(** * The metadata extraction engine: [src/utils/metadataExtractor.ts]

    A shallow embedding of [MetadataExtractor] and the properties its
    specification states about it.

    Conventions of the embedding.
    - A JavaScript number that the code only ever uses as an integer (pixel
      dimensions, byte offsets, sizes, counters) is a [Z]; the operations
      [+], [%] and [/] on such numbers are exact below 2^53.
    - A number that takes part in real arithmetic (entropy, compression
      ratio, durations) is an IEEE-754 binary64 [float], which is what the
      language computes with.
    - A [Uint8Array] is a [list byte]; an unsigned field read out of a
      [DataView] is an [N].
    - A string is a [string] whose characters are code units below 256;
      texts with other code units are outside the model, except in
      [detectEncoding], which is given the code units themselves.
    - The metadata object, which the extractors fill in property by
      property, is a finite map from property names to values.
    - An [async] function returns a [Promise]: [Some] when it fulfils,
      [None] when it rejects; a synchronous call that throws is the same.
      A [Promise] is the outcome of a promise that settles.
    - The promises of the platform settle: a file read, a digest, an
      image or a media element behind a timer or an [onerror] handler.
      The one promise of the source that nothing forces to settle is that
      of [getExifData], which waits for a callback of the EXIF library;
      module [Eventual] follows the functions that await it, with the
      fate [Pends] beside the two outcomes. *)

From stdpp Require Import base option gmap strings.
From Stdlib Require Import ZArith List Bool Lia.
From Stdlib.Strings Require Import String Ascii Byte.
From Stdlib Require Import Decimal DecimalString.
From Stdlib Require Import Floats Uint63.
From Equations Require Import Equations.
Import ListNotations.

Open Scope string_scope.
Open Scope Z_scope.

(* ===================================================================== *)
(** * Part I: the program                                                 *)
(* ===================================================================== *)

(** ** Promises and exceptions *)

Definition Promise (A : Type) : Type := option A.

Definition resolve {A : Type} (a : A) : Promise A := Some a.
Definition reject {A : Type} : Promise A := None.

(** [const x = await p; k] *)
Definition await {A B : Type} (p : Promise A) (k : A -> Promise B) : Promise B :=
  match p with
  | Some a => k a
  | None => None
  end.

Notation "x <- p ;; k" := (await p (fun x => k))
  (at level 100, p at next level, right associativity).

(** [try { body } catch (error) { handler }] *)
Definition try_catch {A : Type} (body handler : Promise A) : Promise A :=
  match body with
  | Some a => Some a
  | None => handler
  end.

(** ** Numbers *)

(** [`${n}`] for an integer-valued number: its decimal digits, with a
    leading minus sign for negative values. *)
Definition Number_toString (n : Z) : string :=
  NilZero.string_of_int (Z.to_int n).

(** An integer-valued number taking part in real arithmetic: the binary64
    value nearest to it. *)
Definition Number_of_Z (z : Z) : float :=
  SF2Prim (binary_normalize prec emax z 0 false).

(** [Math.round(x)]: the integer nearest to [x], a tie going to the larger
    one; the sign of [x] is kept when the result is zero; integers,
    infinities and NaN are returned unchanged.  Computed on the decoded
    value [(-1)^s * m * 2^e]. *)
Definition Math_round (x : float) : float :=
  match Prim2SF x with
  | S754_finite negative m e =>
      if 0 <=? e then x
      else
        let half := 2 ^ (- e - 1) in
        if negative
        then PrimFloat.opp (Number_of_Z (- ((half - Z.pos m) / (2 * half))))
        else Number_of_Z ((Z.pos m + half) / (2 * half))
  | _ => x
  end.

(** The idiom [Math.round(x * 100) / 100]. *)
Definition round2 (x : float) : float := (Math_round (x * 100) / 100)%float.

(** ** Strings *)

(** [s.startsWith(p)] *)
Definition startsWith (s p : string) : bool := String.prefix p s.

(** [s.endsWith(p)] *)
Fixpoint endsWith (s p : string) : bool :=
  (s =? p)%string ||
  match s with
  | EmptyString => false
  | String _ s' => endsWith s' p
  end.

(** [s.includes(p)] *)
Fixpoint includes (s p : string) : bool :=
  String.prefix p s ||
  match s with
  | EmptyString => false
  | String _ s' => includes s' p
  end.

Definition code (c : ascii) : Z := Z.of_N (N_of_ascii c).
Definition unit_of_code (n : Z) : ascii := ascii_of_N (Z.to_N n).

Fixpoint map_units (f : ascii -> ascii) (s : string) : string :=
  match s with
  | EmptyString => EmptyString
  | String c s' => String (f c) (map_units f s')
  end.

(** [s.toLowerCase()]: the letters A-Z and the accented capitals
    U+00C0-U+00DE (the multiplication sign apart) move down by 32. *)
Definition lower_unit (c : ascii) : ascii :=
  let n := code c in
  if ((65 <=? n) && (n <=? 90)) || ((192 <=? n) && (n <=? 222) && negb (n =? 215))
  then unit_of_code (n + 32) else c.

Definition toLowerCase (s : string) : string := map_units lower_unit s.

(** [s.toUpperCase()]: the letters a-z and U+00E0-U+00FE (the division sign
    apart) move up by 32.  The three units whose capital is not a single
    unit below 256 (U+00B5, U+00DF, U+00FF) are left as they are; the code
    upper-cases hexadecimal digits and spaces only. *)
Definition upper_unit (c : ascii) : ascii :=
  let n := code c in
  if ((97 <=? n) && (n <=? 122)) || ((224 <=? n) && (n <=? 254) && negb (n =? 247))
  then unit_of_code (n - 32) else c.

Definition toUpperCase (s : string) : string := map_units upper_unit s.

(** [s.substring(0, n)] *)
Fixpoint substring_to (n : nat) (s : string) : string :=
  match n, s with
  | S n', String c s' => String c (substring_to n' s')
  | _, _ => EmptyString
  end.

(** [s.split(sep)] for a one-character separator: never empty. *)
Fixpoint split_on (sep : ascii) (s : string) : list string :=
  match s with
  | EmptyString => [EmptyString]
  | String c s' =>
      if Ascii.eqb c sep then EmptyString :: split_on sep s'
      else match split_on sep s' with
           | first :: others => String c first :: others
           | [] => [String c EmptyString]
           end
  end.

(** The class [\s] among the units below 256: tab, line feed, vertical
    tab, form feed, carriage return, space and no-break space. *)
Definition is_space (c : ascii) : bool :=
  let n := code c in
  ((9 <=? n) && (n <=? 13)) || (n =? 32) || (n =? 160).

(** [s.split(/\s+/).filter(word => word.length > 0).length]: the number of
    maximal runs of characters that are not white space. *)
Fixpoint count_words (in_word : bool) (s : string) : Z :=
  match s with
  | EmptyString => 0
  | String c s' =>
      if is_space c then count_words false s'
      else (if in_word then 0 else 1) + count_words true s'
  end.

Fixpoint trim_start (s : string) : string :=
  match s with
  | String c s' => if is_space c then trim_start s' else s
  | EmptyString => EmptyString
  end.

Fixpoint trim_end (s : string) : string :=
  match s with
  | EmptyString => EmptyString
  | String c s' =>
      match trim_end s' with
      | EmptyString => if is_space c then EmptyString else String c EmptyString
      | rest => String c rest
      end
  end.

(** [s.trim()] *)
Definition trim (s : string) : string := trim_end (trim_start s).

(** [array.join(sep)] *)
Definition join (sep : string) (parts : list string) : string :=
  String.concat sep parts.

(** ** Hexadecimal rendering of bytes *)

Definition hex_digit (n : N) : ascii :=
  ascii_of_N (if (n <? 10)%N then 48 + n else 87 + n).

(** [b.toString(16).padStart(2, '0')] for a byte [b]. *)
Definition byte_hex (b : byte) : string :=
  let n := Byte.to_N b in
  String (hex_digit (n / 16)) (String (hex_digit (n mod 16)) EmptyString).

(** ** The file handed to the extractor *)

(** A browser [File]: its declared name, MIME type, size and timestamp, and
    its bytes.  [content = None] is a blob whose bytes cannot be read: every
    [arrayBuffer()], [slice(..).arrayBuffer()] and [text()] on it rejects. *)
Record File : Type := mkFile {
  name : string;
  type : string;
  size : Z;
  lastModified : Z;
  content : option (list byte)
}.

(** [file.size] is the number of bytes of the blob. *)
Definition size_agrees (file : File) : Prop :=
  forall bytes, content file = Some bytes -> size file = Z.of_nat (List.length bytes).

(** [await file.arrayBuffer()] *)
Definition File_arrayBuffer (file : File) : Promise (list byte) := content file.

(** [await file.slice(0, n).arrayBuffer()] for [0 <= n] *)
Definition File_slice_arrayBuffer (file : File) (n : Z) : Promise (list byte) :=
  bytes <- content file ;; resolve (firstn (Z.to_nat n) bytes).

(** ** The metadata object *)

(** The tag dictionary [EXIF.getAllTags] builds, as far as the extractor
    looks into it.  The library hands rational tags over as [Number]
    objects, which are truthy whenever they are there, and text tags as
    strings, which are falsy when empty. *)
Record ExifTags : Type := mkExifTags {
  XResolution : option float;
  YResolution : option float;
  Artist : option string;
  ImageDescription : option string;
  Software : option string;
  otherTags : nat
}.

Definition no_tags : ExifTags := mkExifTags None None None None None 0.

Definition count_present {A : Type} (tag : option A) : nat :=
  match tag with Some _ => 1 | None => 0 end.

(** [Object.keys(exifData).length] *)
Definition tag_count (tags : ExifTags) : nat :=
  (count_present (XResolution tags) + count_present (YResolution tags)
   + count_present (Artist tags) + count_present (ImageDescription tags)
   + count_present (Software tags) + otherTags tags)%nat.

(** The truthiness of a text tag. *)
Definition truthy_text (tag : option string) : option string :=
  match tag with
  | Some EmptyString => None
  | other => other
  end.

(** What a property of [ExtendedMetadata] can hold. *)
Inductive Value : Type :=
| VString (s : string)
| VInteger (n : Z)
| VNumber (x : float)
| VBoolean (b : bool)
| VDimensions (width height : Z)        (* { width, height } *)
| VResolution (x y : float)             (* { x, y } *)
| VStrings (items : list string)
| VTags (tags : ExifTags).

(** [ExtendedMetadata]: the properties set so far. *)
Abbreviation ExtendedMetadata := (gmap string Value).

(** ** The host platform *)

(** [HTMLMediaElement], once its metadata has loaded. *)
Record MediaElement : Type := mkMediaElement {
  media_duration : float;
  videoWidth : Z;
  videoHeight : Z
}.

(** What the browser and the libraries contribute to an extraction.  A
    promise that rejects, or a call that throws, is [None]. *)
Class Host : Type := {
  (** [crypto.subtle.digest(algorithm, buffer)] *)
  subtle_digest : string -> list byte -> option (list byte);
  (** [Math.log2] *)
  Math_log2 : float -> float;
  (** the n-th reading of [performance.now()] *)
  performance_now : nat -> float;
  (** an [Image] loaded from the file within the five seconds allowed:
      its [width] and [height] *)
  Image_load : File -> option (Z * Z);
  (** whether [EXIF.getData] runs its callback or throws; it does neither
      when the library cannot read the file, and returns without a word *)
  EXIF_calls_back : File -> bool;
  (** [EXIF.getData] followed by [EXIF.getAllTags]; [None] when it throws
      or yields nothing *)
  EXIF_getAllTags : File -> option ExifTags;
  (** the image drawn on a canvas of at most 100 x 100 pixels and read back
      with [getImageData]: [None] when the image does not load or the
      canvas throws, [Some None] when there is no 2d context, else the
      RGBA bytes *)
  Canvas_getImageData : File -> option (option (list byte));
  (** a media element whose [loadedmetadata] fires within five seconds *)
  Media_load : File -> option MediaElement;
  (** [new TextDecoder('latin1').decode(buffer)] *)
  TextDecoder_latin1 : list byte -> string;
  (** the UTF-8 decoding behind [file.text()] *)
  TextDecoder_utf8 : list byte -> string
}.

(** [await file.text()] *)
Definition File_text `{Host} (file : File) : Promise string :=
  bytes <- content file ;; resolve (TextDecoder_utf8 bytes).

(** ** getFileExtension *)

(** [filename.split('.').pop()?.toLowerCase() || ''] *)
Definition getFileExtension (filename : string) : string :=
  toLowerCase (List.last (split_on "." filename) "").

(** ** getFileSignature *)

Definition getFileSignature (file : File) : Promise string :=
  try_catch
    (bytes <- File_slice_arrayBuffer file 16 ;;
     resolve (toUpperCase (join " " (map byte_hex bytes))))
    (resolve "").

(** ** calculateAspectRatio *)

(** [`${n / d}`] where [d] is the divisor computed by [gcd] below.  That
    divisor divides [n] (lemmas [gcd_divides_l] and [gcd_divides_r]), so
    the quotient is an integer; a division by zero gives [NaN] for [0 / 0]
    and an infinity otherwise. *)
Definition quotient_toString (n d : Z) : string :=
  if d =? 0 then
    if n =? 0 then "NaN" else if n <? 0 then "-Infinity" else "Infinity"
  else Number_toString (Z.quot n d).

(** The local arrow function
    [const gcd = (a, b) => b === 0 ? a : gcd(b, a % b)].
    [%] takes the sign of the dividend: it is [Z.rem]. *)
Equations? gcd (a b : Z) : Z by wf (Z.abs_nat b) lt :=
  gcd a b with Z.eq_dec b 0 := {
    | left _ := a ;
    | right _ := gcd b (Z.rem a b) }.
Proof.
  pose proof (Z.rem_bound_abs a b n). lia.
Qed.

(** The same function with an explicit bound on the depth of the recursion:
    [None] when the bound is reached before the base case. *)
Fixpoint gcd_fuel (fuel : nat) (a b : Z) : option Z :=
  match fuel with
  | O => None
  | S fuel' => if b =? 0 then Some a else gcd_fuel fuel' b (Z.rem a b)
  end.

(** One recursive call: [gcd_call callee caller]. *)
Inductive gcd_call : Z * Z -> Z * Z -> Prop :=
| gcd_call_intro (a b : Z) : b <> 0 -> gcd_call (b, Z.rem a b) (a, b).

Definition calculateAspectRatio (width height : Z) : string :=
  let divisor := gcd width height in
  quotient_toString width divisor ++ ":" ++ quotient_toString height divisor.

(** ** extractImageMetadata *)

(** [getImageDimensions] *)
Definition getImageDimensions `{Host} (file : File) : Promise (Z * Z) :=
  Image_load file.

(** [getExifData], once it settles: it resolves with an empty dictionary
    when the library throws or finds nothing, and never rejects.  The
    promise has no timer: whether it settles at all is [EXIF_calls_back],
    followed in module [Eventual]. *)
Definition getExifData `{Host} (file : File) : Promise ExifTags :=
  resolve (match EXIF_getAllTags file with
           | Some exifData => exifData
           | None => no_tags
           end).

(** [hasAlphaChannel]: [for (let i = 3; i < data.length; i += 4)]. *)
Fixpoint hasAlphaChannel (data : list byte) : bool :=
  match data with
  | _ :: _ :: _ :: alpha :: rest =>
      if (Byte.to_N alpha <? 255)%N then true else hasAlphaChannel rest
  | _ => false
  end.

Definition channel (b : byte) : Z := Z.of_N (Byte.to_N b).

(** [(data[i] << 16) | (data[i + 1] << 8) | data[i + 2]] *)
Definition pack_color (red green blue : Z) : Z :=
  Z.lor (Z.lor (Z.shiftl red 16) (Z.shiftl green 8)) blue.

(** The loop of [estimateColorDepth]: the set of colours seen, or [inl 24]
    as soon as it holds more than 65536.  A channel read past the end of
    the data is [undefined], which the bit operations take for 0. *)
Fixpoint collect_colors (data : list byte) (uniqueColors : gset Z) : Z + gset Z :=
  match data with
  | [] => inr uniqueColors
  | red :: rest =>
      let green := match rest with g :: _ => channel g | [] => 0 end in
      let blue := match rest with _ :: b :: _ => channel b | _ => 0 end in
      let uniqueColors' := {[ pack_color (channel red) green blue ]} ∪ uniqueColors in
      if 65536 <? Z.of_nat (base.size uniqueColors') then inl 24
      else match rest with
           | _ :: _ :: _ :: next => collect_colors next uniqueColors'
           | _ => inr uniqueColors'
           end
  end.

Definition estimateColorDepth (data : list byte) : Z :=
  match collect_colors data ∅ with
  | inl depth => depth
  | inr uniqueColors =>
      let n := Z.of_nat (base.size uniqueColors) in
      if n <=? 2 then 1
      else if n <=? 16 then 4
      else if n <=? 256 then 8
      else if n <=? 65536 then 16
      else 24
  end.

(** In each [try] block of the extractors below, whatever can throw (an
    awaited host promise, a read out of a [DataView]) comes before the
    first assignment to [metadata]: the handler, which only logs, resumes
    with the metadata the block started from. *)

Definition set_exif_fields (exifData : ExifTags) (metadata : ExtendedMetadata)
  : ExtendedMetadata :=
  let metadata := <["exifData" := VTags exifData]> metadata in
  let metadata :=
    match XResolution exifData, YResolution exifData with
    | Some x, Some y => <["dpi" := VResolution x y]> metadata
    | _, _ => metadata
    end in
  let metadata :=
    match truthy_text (Artist exifData) with
    | Some artist => <["creator" := VString artist]> metadata
    | None => metadata
    end in
  let metadata :=
    match truthy_text (ImageDescription exifData) with
    | Some description => <["subject" := VString description]> metadata
    | None => metadata
    end in
  match truthy_text (Software exifData) with
  | Some software => <["keywords" := VStrings [software]]> metadata
  | None => metadata
  end.

Definition extractImageMetadata `{Host} (file : File) (metadata : ExtendedMetadata)
  : Promise ExtendedMetadata :=
  metadata <-
    try_catch
      (dimensions <- getImageDimensions file ;;
       resolve (<["aspectRatio" :=
                    VString (calculateAspectRatio (fst dimensions) (snd dimensions))]>
                (<["dimensions" := VDimensions (fst dimensions) (snd dimensions)]>
                 metadata)))
      (resolve metadata) ;;
  metadata <-
    try_catch
      (exifData <- getExifData file ;;
       resolve (set_exif_fields exifData metadata))
      (resolve metadata) ;;
  try_catch
    (imageData <- Canvas_getImageData file ;;
     resolve (match imageData with
              | Some data =>
                  <["colorDepth" := VInteger (estimateColorDepth data)]>
                  (<["hasAlpha" := VBoolean (hasAlphaChannel data)]> metadata)
              | None => metadata
              end))
    (resolve metadata).

(** ** extractMediaMetadata *)

Definition extractMediaMetadata `{Host} (file : File) (metadata : ExtendedMetadata)
  : Promise ExtendedMetadata :=
  try_catch
    (mediaElement <- Media_load file ;;
     let duration := media_duration mediaElement in
     let metadata := <["duration" := VNumber duration]> metadata in
     let metadata :=
       (* only a video element has videoWidth and videoHeight *)
       if startsWith (type file) "video/" && (0 <? videoWidth mediaElement)
       then <["aspectRatio" :=
                VString (calculateAspectRatio (videoWidth mediaElement)
                                              (videoHeight mediaElement))]>
            (<["dimensions" := VDimensions (videoWidth mediaElement)
                                           (videoHeight mediaElement)]> metadata)
       else metadata in
     let metadata :=
       if (0 <? duration)%float
       then <["bitrate" :=
                VNumber (Math_round (Number_of_Z (size file * 8) / duration)%float)]>
            metadata
       else metadata in
     resolve metadata)
    (resolve metadata).

(** ** extractPDFMetadata *)

(** [s] without its prefix [p], when it has it. *)
Fixpoint drop_prefix (p s : string) : option string :=
  match p, s with
  | EmptyString, _ => Some s
  | String a p', String b s' => if Ascii.eqb a b then drop_prefix p' s' else None
  | String _ _, EmptyString => None
  end.

(** The longest prefix without [stop], and what follows it. *)
Fixpoint span_until (stop : ascii) (s : string) : string * string :=
  match s with
  | EmptyString => (EmptyString, EmptyString)
  | String c s' =>
      if Ascii.eqb c stop then (EmptyString, s)
      else let (taken, rest) := span_until stop s' in (String c taken, rest)
  end.

(** One attempt, at the start of [s], of a pattern made of [key], any
    white space, [opening], a captured run of characters other than [stop]
    (as long as possible) and [closing]: the captured group.  The patterns
    of the PDF extractor all have this shape. *)
Definition capture_here (key opening : string) (stop : ascii) (closing s : string)
  : option string :=
  match drop_prefix key s with
  | None => None
  | Some after_key =>
      match drop_prefix opening (trim_start after_key) with
      | None => None
      | Some body =>
          let (captured, rest) := span_until stop body in
          if String.prefix closing rest then Some captured else None
      end
  end.

(** [s.match(pattern)] for such a pattern: the group of the leftmost
    match. *)
Fixpoint capture (key opening : string) (stop : ascii) (closing s : string)
  : option string :=
  match capture_here key opening stop closing s with
  | Some captured => Some captured
  | None =>
      match s with
      | EmptyString => None
      | String _ s' => capture key opening stop closing s'
      end
  end.

(** One attempt of [/\/Type\s*\/Page[^s]/] at the start of [s]: the length
    of the match. *)
Definition page_marker_here (s : string) : option nat :=
  match drop_prefix "/Type" s with
  | None => None
  | Some after_type =>
      let after_spaces := trim_start after_type in
      match drop_prefix "/Page" after_spaces with
      | Some (String c _) =>
          if Ascii.eqb c "s" then None
          else Some (5 + (String.length after_type - String.length after_spaces)
                     + 5 + 1)%nat
      | _ => None
      end
  end.

(** [(s.match(/\/Type\s*\/Page[^s]/g) || []).length]: matches are counted
    from left to right and do not overlap; [skip] is what is left of the
    match being stepped over. *)
Fixpoint count_page_markers (skip : nat) (s : string) : Z :=
  match s with
  | EmptyString => 0
  | String _ s' =>
      match skip with
      | S skip' => count_page_markers skip' s'
      | O =>
          match page_marker_here s with
          | Some (S rest) => 1 + count_page_markers rest s'
          | _ => count_page_markers 0 s'
          end
      end
  end.

(** [text.replace(/[^\x20-\x7E]/g, ' ')] *)
Definition printable_or_space (c : ascii) : ascii :=
  if (32 <=? code c) && (code c <=? 126) then c else " "%char.

(** [text.replace(/\s+/g, ' ')] *)
Fixpoint collapse_spaces (in_run : bool) (s : string) : string :=
  match s with
  | EmptyString => EmptyString
  | String c s' =>
      if is_space c
      then (if in_run then collapse_spaces true s'
            else String " " (collapse_spaces true s'))
      else String c (collapse_spaces false s')
  end.

Definition set_pdf_info (info : string) (metadata : ExtendedMetadata)
  : ExtendedMetadata :=
  let metadata :=
    match capture "/Title" "(" ")" ")" info with
    | Some title => <["subject" := VString title]> metadata
    | None => metadata
    end in
  let metadata :=
    match capture "/Author" "(" ")" ")" info with
    | Some author => <["creator" := VString author]> metadata
    | None => metadata
    end in
  match capture "/Keywords" "(" ")" ")" info with
  | Some keywords =>
      <["keywords" := VStrings (map trim (split_on "," keywords))]> metadata
  | None => metadata
  end.

Definition extractPDFMetadata `{Host} (file : File) (metadata : ExtendedMetadata)
  : Promise ExtendedMetadata :=
  try_catch
    (arrayBuffer <- File_arrayBuffer file ;;
     let text := TextDecoder_latin1 arrayBuffer in
     let metadata :=
       match capture "/Info" "<<" ">" ">>" text with
       | Some info => set_pdf_info info metadata
       | None => metadata
       end in
     let pages := count_page_markers 0 text in
     let metadata :=
       if 0 <? pages then <["pageCount" := VInteger pages]> metadata
       else metadata in
     let textContent := collapse_spaces false (map_units printable_or_space text) in
     resolve (<["characterCount" := VInteger (Z.of_nat (String.length textContent))]>
              (<["wordCount" := VInteger (count_words false textContent)]> metadata)))
    (resolve metadata).

(** ** extractTextMetadata *)



(** The UTF-16 code units of a text. *)
Definition code_units (text : string) : list Z :=
  map code (list_ascii_of_string text).

(** [detectEncoding], on the code units of its argument, each from 0 to
    0xFFFF.  Nothing in its body throws, so its handler, which returns
    'Unknown', is never reached.  The first test is
    [text.includes('\uFFFD')], the second [/[\u0080-\uFFFF]/.test(text)],
    the third [/^[\x00-\x7F]*$/.test(text)]. *)
Definition detectEncoding (text : list Z) : string :=
  if existsb (Z.eqb 0xFFFD) text then "Binary/Unknown"
  else if existsb (fun unit => (0x0080 <=? unit) && (unit <=? 0xFFFF)) text
  then "UTF-8"
  else if forallb (fun unit => (0x0000 <=? unit) && (unit <=? 0x007F)) text
  then "ASCII"
  else "UTF-8".

(** The class [\w]: letters, digits and the underscore, all ASCII. *)
Definition is_word_unit (c : ascii) : bool :=
  let n := code c in
  ((48 <=? n) && (n <=? 57)) || ((65 <=? n) && (n <=? 90))
  || ((97 <=? n) && (n <=? 122)) || (n =? 95).

Definition is_word (c : option ascii) : bool :=
  match c with
  | Some unit => is_word_unit unit
  | None => false
  end.

(** The assertion [\b] between two neighbours ([None] beyond either end of
    the input): exactly one of them is a word character. *)
Definition word_boundary (before after : option ascii) : bool :=
  xorb (is_word before) (is_word after).

Definition first_unit (s : string) : option ascii :=
  match s with
  | String c _ => Some c
  | EmptyString => None
  end.

Fixpoint last_unit (before : option ascii) (s : string) : option ascii :=
  match s with
  | EmptyString => before
  | String c s' => last_unit (Some c) s'
  end.

(** The alternation [(w1|w2|...)\b] tried at the start of [rest], first
    alternative first: the length of the match. *)
Fixpoint match_alternatives (words : list string) (before : option ascii)
         (rest : string) : option nat :=
  match words with
  | [] => None
  | word :: others =>
      match drop_prefix word rest with
      | Some after =>
          if word_boundary (last_unit before word) (first_unit after)
          then Some (String.length word)
          else match_alternatives others before rest
      | None => match_alternatives others before rest
      end
  end.

(** [(sample.match(/\b(w1|w2|...)\b/g) || []).length]: the matches are
    found from left to right and do not overlap.  [before] is the unit
    left of the current position, [skip] what is left of the match being
    stepped over. *)
Fixpoint count_matches (words : list string) (before : option ascii)
         (skip : nat) (s : string) : Z :=
  match s with
  | EmptyString => 0
  | String c s' =>
      match skip with
      | S skip' => count_matches words (Some c) skip' s'
      | O =>
          if word_boundary before (Some c) then
            match match_alternatives words before s with
            | Some (S rest) => 1 + count_matches words (Some c) rest s'
            | _ => count_matches words (Some c) 0 s'
            end
          else count_matches words (Some c) 0 s'
      end
  end.

(** Accented letters of the stop words, as code units. *)
Definition a_grave : string := String (unit_of_code 224) EmptyString.
Definition a_acute : string := String (unit_of_code 225) EmptyString.
Definition e_circumflex : string := String (unit_of_code 234) EmptyString.
Definition i_acute : string := String (unit_of_code 237) EmptyString.
Definition o_umlaut : string := String (unit_of_code 246) EmptyString.
Definition u_umlaut : string := String (unit_of_code 252) EmptyString.

(** The [patterns] object: per language, the alternatives of its regular
    expression, in the order [Object.entries] lists them. *)
Definition patterns : list (string * list string) :=
  [ ("English",
     ["the"; "and"; "or"; "but"; "in"; "on"; "at"; "to"; "for"; "of"; "with";
      "by"; "this"; "that"; "have"; "has"; "will"; "would"; "could"; "should"]);
    ("French",
     ["le"; "la"; "les"; "de"; "du"; "des"; "et"; "ou"; "mais"; "dans"; "sur";
      "pour"; "avec"; "ce"; "cette"; "avoir"; e_circumflex ++ "tre"; "sera";
      "serait"]);
    ("German",
     ["der"; "die"; "das"; "und"; "oder"; "aber"; "in"; "auf"; "zu";
      "f" ++ u_umlaut ++ "r"; "mit"; "von"; "haben"; "sein"; "wird";
      "w" ++ u_umlaut ++ "rde"; "k" ++ o_umlaut ++ "nnte"; "sollte"]);
    ("Spanish",
     ["el"; "la"; "los"; "las"; "de"; "del"; "y"; "o"; "pero"; "en"; "sobre";
      "para"; "con"; "este"; "esta"; "tener"; "ser"; "ser" ++ a_acute;
      "ser" ++ i_acute ++ "a"]);
    ("Italian",
     ["il"; "la"; "lo"; "gli"; "le"; "di"; "del"; "e"; "o"; "ma"; "in"; "su";
      "per"; "con"; "questo"; "questa"; "avere"; "essere"; "sar" ++ a_grave]) ].

(** The body of the loop over the patterns; the state is
    [(maxMatches, detectedLanguage)]. *)
Definition language_step (sample : string) (state : Z * string)
           (entry : string * list string) : Z * string :=
  let matches := count_matches (snd entry) None 0 sample in
  if fst state <? matches then (matches, fst entry) else state.

Definition detectLanguage (text : string) : string :=
  let sample := substring_to 1000 (toLowerCase text) in
  let '(maxMatches, detectedLanguage) :=
    fold_left (language_step sample) patterns (0, "Unknown") in
  if 3 <? maxMatches then detectedLanguage else "Unknown".

Definition line_feed : ascii := unit_of_code 10.

Definition extractTextMetadata `{Host} (file : File) (metadata : ExtendedMetadata)
  : Promise ExtendedMetadata :=
  try_catch
    (text <- File_text file ;;
     resolve
       (<["language" := VString (detectLanguage text)]>
        (<["encoding" := VString (detectEncoding (code_units text))]>
         (<["lineCount" := VInteger (Z.of_nat (List.length (split_on line_feed text)))]>
          (<["characterCount" := VInteger (Z.of_nat (String.length text))]>
           (<["wordCount" := VInteger (count_words false text)]> metadata))))))
    (resolve metadata).

(** ** extractArchiveMetadata *)

Definition byteLength (buffer : list byte) : Z := Z.of_nat (List.length buffer).

(** The [DataView] reads, little-endian; a read that does not fit in the
    buffer throws a RangeError. *)
Definition getUint8 (view : list byte) (byteOffset : Z) : Promise N :=
  if 0 <=? byteOffset
  then option_map Byte.to_N (nth_error view (Z.to_nat byteOffset))
  else reject.

Definition getUint16 (view : list byte) (byteOffset : Z) : Promise N :=
  b0 <- getUint8 view byteOffset ;;
  b1 <- getUint8 view (byteOffset + 1) ;;
  resolve (b0 + 256 * b1)%N.

Definition getUint32 (view : list byte) (byteOffset : Z) : Promise N :=
  b0 <- getUint8 view byteOffset ;;
  b1 <- getUint8 view (byteOffset + 1) ;;
  b2 <- getUint8 view (byteOffset + 2) ;;
  b3 <- getUint8 view (byteOffset + 3) ;;
  resolve (b0 + 256 * b1 + 65536 * b2 + 16777216 * b3)%N.

(** The ZIP local-file-header magic number. *)
Definition ZIP_MAGIC : N := 0x04034b50.

(** The fields one turn of the loop reads from the header at [offset]. *)
Record LocalFileHeader : Type := mkLocalFileHeader {
  uncompSize : N;
  filenameLength : N;
  extraFieldLength : N;
  compressedSize : N
}.

(** The reads of one turn of the loop: [Some None] is the [break] taken
    when the signature is not there. *)
Definition read_header (view : list byte) (offset : Z)
  : Promise (option LocalFileHeader) :=
  signature <- getUint32 view offset ;;
  if (signature =? ZIP_MAGIC)%N then
    uncompSize <- getUint32 view (offset + 22) ;;
    filenameLength <- getUint16 view (offset + 26) ;;
    extraFieldLength <- getUint16 view (offset + 28) ;;
    compressedSize <- getUint32 view (offset + 18) ;;
    resolve (Some (mkLocalFileHeader uncompSize filenameLength extraFieldLength
                                     compressedSize))
  else resolve None.

(** [while (offset < arrayBuffer.byteLength - 30) { ... }]: the accumulated
    [uncompressedSize] when the loop ends. *)
Equations? zip_walk (view : list byte) (uncompressedSize offset : Z) : Promise Z
  by wf (Z.to_nat (byteLength view - 30 - offset)) lt :=
  zip_walk view uncompressedSize offset
    with Z_lt_dec offset (byteLength view - 30) := {
    | right _ := resolve uncompressedSize ;
    | left _ with read_header view offset := {
        | None := reject ;
        | Some None := resolve uncompressedSize ;
        | Some (Some header) :=
            zip_walk view
                     (uncompressedSize + Z.of_N (uncompSize header))
                     (offset + 30 + Z.of_N (filenameLength header)
                      + Z.of_N (extraFieldLength header)
                      + Z.of_N (compressedSize header)) } }.
Proof. lia. Qed.

(** The value the extractor assigns to [compressionRatio], if it does. *)
Definition compression_ratio (file : File) : Promise (option float) :=
  arrayBuffer <- File_arrayBuffer file ;;
  signature <- getUint32 arrayBuffer 0 ;;
  if (signature =? ZIP_MAGIC)%N then
    uncompressedSize <- zip_walk arrayBuffer 0 0 ;;
    if 0 <? uncompressedSize
    then resolve (Some (round2 (Number_of_Z (size file)
                                / Number_of_Z uncompressedSize)%float))
    else resolve None
  else resolve None.

Definition extractArchiveMetadata (file : File) (metadata : ExtendedMetadata)
  : Promise ExtendedMetadata :=
  try_catch
    (ratio <- compression_ratio file ;;
     resolve (match ratio with
              | Some r => <["compressionRatio" := VNumber r]> metadata
              | None => metadata
              end))
    (resolve metadata).

(** ** calculateChecksum *)

Definition calculateChecksum `{Host} (file : File) (algorithm : string)
  : Promise string :=
  try_catch
    (arrayBuffer <- File_arrayBuffer file ;;
     hashBuffer <-
       (if (algorithm =? "MD5")%string
        then subtle_digest "SHA-1" arrayBuffer     (* Fallback to SHA-1 *)
        else subtle_digest algorithm arrayBuffer) ;;
     resolve (join "" (map byte_hex hashBuffer)))
    (resolve "").

(** ** calculateEntropy *)

(** [frequency[i]++] on an array that holds index [i]. *)
Fixpoint increment (frequency : list Z) (i : nat) : list Z :=
  match frequency, i with
  | [], _ => []
  | freq :: rest, O => (freq + 1) :: rest
  | freq :: rest, S i' => freq :: increment rest i'
  end.

Definition byte_index (b : byte) : nat := Byte.to_nat b.

(** The first loop: the histogram of the sample. *)
Definition byte_frequency (bytes : list byte) : list Z :=
  fold_left (fun frequency b => increment frequency (byte_index b))
            bytes (repeat 0 256).

(** The body of the second loop, for one slot of the histogram. *)
Definition entropy_step `{Host} (length : Z) (entropy : float) (freq : Z) : float :=
  if 0 <? freq then
    let probability := (Number_of_Z freq / Number_of_Z length)%float in
    (entropy - probability * Math_log2 probability)%float
  else entropy.

(** The second loop: the accumulation over the histogram. *)
Definition accumulate_entropy `{Host} (length : Z) (frequency : list Z) : float :=
  fold_left (entropy_step length) frequency 0%float.

Definition calculateEntropy `{Host} (file : File) : Promise float :=
  try_catch
    (bytes <- File_slice_arrayBuffer file (Z.min (size file) (1024 * 1024)) ;;
     let frequency := byte_frequency bytes in
     let length := Z.of_nat (List.length bytes) in
     let entropy := accumulate_entropy length frequency in
     resolve (round2 entropy))
    (resolve 0%float).

(** ** isExecutableFile *)

Definition executableExtensions : list string :=
  ["exe"; "msi"; "app"; "deb"; "rpm"; "dmg"; "pkg"; "run"; "bin"; "com";
   "bat"; "cmd"; "sh"].

Definition isExecutableFile (filename : string) : bool :=
  existsb (String.eqb (getFileExtension filename)) executableExtensions.

(** ** detectEncryption *)

Definition signatures : list (list N) :=
  [ [0x50; 0x4B; 0x03; 0x04]%N;    (* Encrypted ZIP *)
    [0x37; 0x7A; 0xBC; 0xAF]%N;    (* 7z *)
    [0x52; 0x61; 0x72; 0x21]%N ].  (* RAR *)

(** The inner loop: [bytes[i] !== sig[i]] for no [i] below [sig.length]. *)
Fixpoint signature_matches (sig : list N) (bytes : list byte) : bool :=
  match sig, bytes with
  | [], _ => true
  | expected :: sig', b :: bytes' =>
      (Byte.to_N b =? expected)%N && signature_matches sig' bytes'
  | _ :: _, [] => false
  end.

Definition detectEncryption `{Host} (file : File) : Promise bool :=
  try_catch
    (bytes <- File_slice_arrayBuffer file 1024 ;;
     if existsb (fun sig =>
                   (List.length sig <=? List.length bytes)%nat
                   && signature_matches sig bytes) signatures
     then resolve true
     else
       entropy <- calculateEntropy file ;;
       resolve (7.5 <? entropy)%float)
    (resolve false).

(** ** hasEmbeddedMetadata *)

Definition hasEmbeddedMetadata `{Host} (file : File) : Promise bool :=
  try_catch
    (if startsWith (type file) "image/" then
       exifData <- getExifData file ;;
       resolve (0 <? tag_count exifData)%nat
     else if (type file =? "application/pdf")%string then
       arrayBuffer <- File_slice_arrayBuffer file 2048 ;;
       let text := TextDecoder_latin1 arrayBuffer in
       resolve (includes text "/Info" || includes text "/Metadata")
     else resolve false)
    (resolve false).

(** ** extractMetadata *)

Inductive Extractor : Type :=
| ImageExtractor      (* extractImageMetadata *)
| MediaExtractor      (* extractMediaMetadata *)
| DocumentExtractor   (* extractPDFMetadata *)
| TextExtractor       (* extractTextMetadata *)
| ArchiveExtractor.   (* extractArchiveMetadata *)

(** The [if / else if] ladder of [extractMetadata] (lines 76-86): which
    extractor, if any, is awaited for a file. *)
Definition classify (file : File) : option Extractor :=
  if startsWith (type file) "image/" then Some ImageExtractor
  else if startsWith (type file) "video/" || startsWith (type file) "audio/"
  then Some MediaExtractor
  else if (type file =? "application/pdf")%string then Some DocumentExtractor
  else if includes (type file) "text/" || endsWith (name file) ".txt"
          || endsWith (name file) ".md"
  then Some TextExtractor
  else if includes (type file) "zip" || includes (type file) "archive"
          || endsWith (name file) ".zip" || endsWith (name file) ".rar"
  then Some ArchiveExtractor
  else None.

Definition run_extractor `{Host} (extractor : option Extractor) (file : File)
           (metadata : ExtendedMetadata) : Promise ExtendedMetadata :=
  match extractor with
  | Some ImageExtractor => extractImageMetadata file metadata
  | Some MediaExtractor => extractMediaMetadata file metadata
  | Some DocumentExtractor => extractPDFMetadata file metadata
  | Some TextExtractor => extractTextMetadata file metadata
  | Some ArchiveExtractor => extractArchiveMetadata file metadata
  | None => resolve metadata
  end.

Definition extractMetadata `{Host} (file : File) : Promise ExtendedMetadata :=
  let startTime := performance_now 0 in
  let basicMetadata : ExtendedMetadata :=
    <["extension" := VString (getFileExtension (name file))]>
    (<["lastModified" := VInteger (lastModified file)]>
     (<["type" := VString (type file)]>
      (<["size" := VInteger (size file)]>
       (<["name" := VString (name file)]> ∅)))) in
  fileSignature <- getFileSignature file ;;
  let basicMetadata := <["fileSignature" := VString fileSignature]> basicMetadata in
  basicMetadata <- run_extractor (classify file) file basicMetadata ;;
  checksum <- calculateChecksum file "SHA-256" ;;
  let basicMetadata := <["checksum" := VString checksum]> basicMetadata in
  md5 <- calculateChecksum file "MD5" ;;
  let basicMetadata := <["md5" := VString md5]> basicMetadata in
  entropy <- calculateEntropy file ;;
  let basicMetadata := <["entropy" := VNumber entropy]> basicMetadata in
  let basicMetadata :=
    <["isExecutable" := VBoolean (isExecutableFile (name file))]> basicMetadata in
  isEncrypted <- detectEncryption file ;;
  let basicMetadata := <["isEncrypted" := VBoolean isEncrypted]> basicMetadata in
  hasMetadata <- hasEmbeddedMetadata file ;;
  let basicMetadata := <["hasMetadata" := VBoolean hasMetadata]> basicMetadata in
  let endTime := performance_now 1 in
  let basicMetadata :=
    <["processingTime" := VNumber (round2 (endTime - startTime)%float)]> basicMetadata in
  resolve basicMetadata.

(** ** Promises that may stay pending *)

(** What becomes of a promise: it settles, fulfilled or rejected, or it
    stays pending for ever. *)
Inductive Fate (A : Type) : Type :=
| Settles (outcome : Promise A)
| Pends.

Arguments Settles {A} outcome.
Arguments Pends {A}.

(** The functions of the source that await [getExifData], directly or
    through another, with the fate of their promise.  A promise of the
    platform settles, with the outcome it has in the functions above. *)
Module Eventual.

Definition resolve {A : Type} (a : A) : Fate A := Settles (Some a).

(** [const x = await p; k]: nothing after the [await] of a pending promise
    runs. *)
Definition await {A B : Type} (p : Fate A) (k : A -> Fate B) : Fate B :=
  match p with
  | Settles (Some a) => k a
  | Settles None => Settles None
  | Pends => Pends
  end.

Notation "x <~ p ;; k" := (await p (fun x => k))
  (at level 100, p at next level, right associativity).

(** [try { body } catch (error) { handler }]: a pending body never
    reaches the handler. *)
Definition try_catch {A : Type} (body handler : Fate A) : Fate A :=
  match body with
  | Settles (Some a) => Settles (Some a)
  | Settles None => handler
  | Pends => Pends
  end.

(** [getExifData] (lines 316-327): [resolve] is called from the callback
    of [EXIF.getData] or from the [catch] around it, and from nowhere
    else. *)
Definition getExifData `{Host} (file : File) : Fate ExifTags :=
  if EXIF_calls_back file
  then resolve (match EXIF_getAllTags file with
                | Some exifData => exifData
                | None => no_tags
                end)
  else Pends.

Definition extractImageMetadata `{Host} (file : File) (metadata : ExtendedMetadata)
  : Fate ExtendedMetadata :=
  metadata <~
    try_catch
      (dimensions <~ Settles (getImageDimensions file) ;;
       resolve (<["aspectRatio" :=
                    VString (calculateAspectRatio (fst dimensions) (snd dimensions))]>
                (<["dimensions" := VDimensions (fst dimensions) (snd dimensions)]>
                 metadata)))
      (resolve metadata) ;;
  metadata <~
    try_catch
      (exifData <~ getExifData file ;;
       resolve (set_exif_fields exifData metadata))
      (resolve metadata) ;;
  try_catch
    (imageData <~ Settles (Canvas_getImageData file) ;;
     resolve (match imageData with
              | Some data =>
                  <["colorDepth" := VInteger (estimateColorDepth data)]>
                  (<["hasAlpha" := VBoolean (hasAlphaChannel data)]> metadata)
              | None => metadata
              end))
    (resolve metadata).

Definition hasEmbeddedMetadata `{Host} (file : File) : Fate bool :=
  try_catch
    (if startsWith (type file) "image/" then
       exifData <~ getExifData file ;;
       resolve (0 <? tag_count exifData)%nat
     else if (type file =? "application/pdf")%string then
       arrayBuffer <~ Settles (File_slice_arrayBuffer file 2048) ;;
       let text := TextDecoder_latin1 arrayBuffer in
       resolve (includes text "/Info" || includes text "/Metadata")
     else resolve false)
    (resolve false).

Definition run_extractor `{Host} (extractor : option Extractor) (file : File)
           (metadata : ExtendedMetadata) : Fate ExtendedMetadata :=
  match extractor with
  | Some ImageExtractor => extractImageMetadata file metadata
  | Some MediaExtractor => Settles (extractMediaMetadata file metadata)
  | Some DocumentExtractor => Settles (extractPDFMetadata file metadata)
  | Some TextExtractor => Settles (extractTextMetadata file metadata)
  | Some ArchiveExtractor => Settles (extractArchiveMetadata file metadata)
  | None => resolve metadata
  end.

Definition extractMetadata `{Host} (file : File) : Fate ExtendedMetadata :=
  let startTime := performance_now 0 in
  let basicMetadata : ExtendedMetadata :=
    <["extension" := VString (getFileExtension (name file))]>
    (<["lastModified" := VInteger (lastModified file)]>
     (<["type" := VString (type file)]>
      (<["size" := VInteger (size file)]>
       (<["name" := VString (name file)]> ∅)))) in
  fileSignature <~ Settles (getFileSignature file) ;;
  let basicMetadata := <["fileSignature" := VString fileSignature]> basicMetadata in
  basicMetadata <~ run_extractor (classify file) file basicMetadata ;;
  checksum <~ Settles (calculateChecksum file "SHA-256") ;;
  let basicMetadata := <["checksum" := VString checksum]> basicMetadata in
  md5 <~ Settles (calculateChecksum file "MD5") ;;
  let basicMetadata := <["md5" := VString md5]> basicMetadata in
  entropy <~ Settles (calculateEntropy file) ;;
  let basicMetadata := <["entropy" := VNumber entropy]> basicMetadata in
  let basicMetadata :=
    <["isExecutable" := VBoolean (isExecutableFile (name file))]> basicMetadata in
  isEncrypted <~ Settles (detectEncryption file) ;;
  let basicMetadata := <["isEncrypted" := VBoolean isEncrypted]> basicMetadata in
  hasMetadata <~ hasEmbeddedMetadata file ;;
  let basicMetadata := <["hasMetadata" := VBoolean hasMetadata]> basicMetadata in
  let endTime := performance_now 1 in
  let basicMetadata :=
    <["processingTime" := VNumber (round2 (endTime - startTime)%float)]> basicMetadata in
  resolve basicMetadata.

End Eventual.

(** ** The callers of the extractor *)

(** [getFileCategory] of [src/components/MetadataDisplay.tsx] (lines 66-77):
    the label the display shows for a MIME type. *)
Definition getFileCategory (type : string) : string :=
  if startsWith type "image/" then "Image"
  else if startsWith type "video/" then "Video"
  else if startsWith type "audio/" then "Audio"
  else if includes type "pdf" then "PDF Document"
  else if includes type "document" || includes type "word" then "Document"
  else if includes type "spreadsheet" || includes type "excel" then "Spreadsheet"
  else if includes type "presentation" || includes type "powerpoint"
  then "Presentation"
  else if includes type "zip" || includes type "archive" then "Archive"
  else if includes type "text" then "Text File"
  else "Unknown".

(** [toggleSection] of the display (lines 17-25): the expanded sections
    after a click on the header of [section]. *)
Definition toggleSection (expandedSections : gset string) (section : string)
  : gset string :=
  if decide (section ∈ expandedSections)
  then expandedSections ∖ {[section]}
  else {[section]} ∪ expandedSections.

(** The three state variables of [App] ([src/App.tsx]). *)
Record AppState : Type := mkAppState {
  app_metadata : option ExtendedMetadata;
  isProcessing : bool;
  error : option string
}.

(** [handleFileSelect] of [src/App.tsx] (lines 12-24): the state the
    handler leaves.  [setIsProcessing(true)] and [setError(null)] run
    first; the [try] awaits the extraction, and [setIsProcessing(false)]
    in the [finally] runs once that promise has settled, and not before. *)
Definition handleFileSelect `{Host} (file : File) (state : AppState) : AppState :=
  let state := mkAppState (app_metadata state) true (error state) in
  let state := mkAppState (app_metadata state) (isProcessing state) None in
  match Eventual.extractMetadata file with
  | Settles (Some fileMetadata) =>
      let state := mkAppState (Some fileMetadata) (isProcessing state) (error state) in
      mkAppState (app_metadata state) false (error state)
  | Settles None =>
      let state :=
        mkAppState (app_metadata state) (isProcessing state)
                   (Some "Failed to extract metadata. Please try again.") in
      mkAppState (app_metadata state) false (error state)
  | Pends => state
  end.

(** ** A reference host *)

(** The digests of the Web Crypto API, and MD5, which that API does not
    offer, on 32-bit words held in [Z]. *)
Module Digest.

Definition mask32 : Z := 0xFFFFFFFF.
Definition add32 (a b : Z) : Z := Z.land (a + b) mask32.
Definition not32 (a : Z) : Z := Z.lxor a mask32.
Definition rotl32 (n a : Z) : Z :=
  Z.land (Z.lor (Z.shiftl a n) (Z.shiftr a (32 - n))) mask32.
Definition rotr32 (n a : Z) : Z := rotl32 (32 - n) a.
Definition sum32 (terms : list Z) : Z := fold_left add32 terms 0.

Definition octet (b : byte) : Z := Z.of_N (Byte.to_N b).
Definition to_byte (z : Z) : byte :=
  match Byte.of_N (Z.to_N (Z.land z 255)) with
  | Some b => b
  | None => x00
  end.

(** The word [z] as [width] octets, most significant first. *)
Definition octets_be (width : nat) (z : Z) : list Z :=
  map (fun i => Z.land (Z.shiftr z (8 * Z.of_nat i)) 255) (List.rev (seq 0 width)).
Definition octets_le (width : nat) (z : Z) : list Z := List.rev (octets_be width z).

(** The message followed by the bit 1, zeros up to 56 modulo 64, and its
    length in bits on eight octets. *)
Definition pad (big_endian : bool) (message : list Z) : list Z :=
  let len := Z.of_nat (List.length message) in
  let zeros := Z.to_nat ((55 - len) mod 64) in
  (message ++ [128] ++ repeat 0 zeros
   ++ (if big_endian then octets_be 8 (8 * len) else octets_le 8 (8 * len)))%list.

Fixpoint words (big_endian : bool) (octets : list Z) : list Z :=
  match octets with
  | a :: b :: c :: d :: rest =>
      (if big_endian
       then Z.lor (Z.shiftl a 24) (Z.lor (Z.shiftl b 16) (Z.lor (Z.shiftl c 8) d))
       else Z.lor (Z.shiftl d 24) (Z.lor (Z.shiftl c 16) (Z.lor (Z.shiftl b 8) a)))
      :: words big_endian rest
  | _ => []
  end.

Fixpoint blocks (fuel : nat) (ws : list Z) : list (list Z) :=
  match fuel, ws with
  | S fuel', _ :: _ => firstn 16 ws :: blocks fuel' (skipn 16 ws)
  | _, _ => []
  end.

Definition message_blocks (big_endian : bool) (message : list byte) : list (list Z) :=
  let ws := words big_endian (pad big_endian (map octet message)) in
  blocks (List.length ws) ws.

Definition word (ws : list Z) (i : Z) : Z := nth (Z.to_nat i) ws 0.
Definition rounds (n : nat) : list Z := map Z.of_nat (seq 0 n).

(** *** SHA-1 *)

Definition sha1_schedule (block : list Z) : list Z :=
  fold_left
    (fun w i =>
       (w ++ [rotl32 1 (Z.lxor (Z.lxor (word w (i - 3)) (word w (i - 8)))
                               (Z.lxor (word w (i - 14)) (word w (i - 16))))])%list)
    (map (fun i => i + 16) (rounds 64)) block.

Definition sha1_round (w : list Z) (s : Z * Z * Z * Z * Z) (i : Z)
  : Z * Z * Z * Z * Z :=
  let '(a, b, c, d, e) := s in
  let '(f, k) :=
    if i <? 20 then (Z.lor (Z.land b c) (Z.land (not32 b) d), 0x5A827999)
    else if i <? 40 then (Z.lxor (Z.lxor b c) d, 0x6ED9EBA1)
    else if i <? 60
    then (Z.lor (Z.lor (Z.land b c) (Z.land b d)) (Z.land c d), 0x8F1BBCDC)
    else (Z.lxor (Z.lxor b c) d, 0xCA62C1D6) in
  (sum32 [rotl32 5 a; f; e; k; word w i], a, rotl32 30 b, c, d).

Definition sha1_block (h : Z * Z * Z * Z * Z) (block : list Z) : Z * Z * Z * Z * Z :=
  let '(h0, h1, h2, h3, h4) := h in
  let '(a, b, c, d, e) :=
    fold_left (sha1_round (sha1_schedule block)) (rounds 80) h in
  (add32 h0 a, add32 h1 b, add32 h2 c, add32 h3 d, add32 h4 e).

Definition sha1 (message : list byte) : list byte :=
  let '(h0, h1, h2, h3, h4) :=
    fold_left sha1_block (message_blocks true message)
              (0x67452301, 0xEFCDAB89, 0x98BADCFE, 0x10325476, 0xC3D2E1F0) in
  map to_byte (flat_map (octets_be 4) [h0; h1; h2; h3; h4]).

(** *** MD5 *)

Definition md5_shifts : list Z :=
  [ 7; 12; 17; 22; 7; 12; 17; 22; 7; 12; 17; 22; 7; 12; 17; 22;
    5; 9; 14; 20; 5; 9; 14; 20; 5; 9; 14; 20; 5; 9; 14; 20;
    4; 11; 16; 23; 4; 11; 16; 23; 4; 11; 16; 23; 4; 11; 16; 23;
    6; 10; 15; 21; 6; 10; 15; 21; 6; 10; 15; 21; 6; 10; 15; 21 ].

(** [floor (2^32 * abs (sin (i + 1)))] for [i] from 0 to 63. *)
Definition md5_sines : list Z :=
  [ 0xd76aa478; 0xe8c7b756; 0x242070db; 0xc1bdceee; 0xf57c0faf; 0x4787c62a;
    0xa8304613; 0xfd469501; 0x698098d8; 0x8b44f7af; 0xffff5bb1; 0x895cd7be;
    0x6b901122; 0xfd987193; 0xa679438e; 0x49b40821; 0xf61e2562; 0xc040b340;
    0x265e5a51; 0xe9b6c7aa; 0xd62f105d; 0x02441453; 0xd8a1e681; 0xe7d3fbc8;
    0x21e1cde6; 0xc33707d6; 0xf4d50d87; 0x455a14ed; 0xa9e3e905; 0xfcefa3f8;
    0x676f02d9; 0x8d2a4c8a; 0xfffa3942; 0x8771f681; 0x6d9d6122; 0xfde5380c;
    0xa4beea44; 0x4bdecfa9; 0xf6bb4b60; 0xbebfbc70; 0x289b7ec6; 0xeaa127fa;
    0xd4ef3085; 0x04881d05; 0xd9d4d039; 0xe6db99e5; 0x1fa27cf8; 0xc4ac5665;
    0xf4292244; 0x432aff97; 0xab9423a7; 0xfc93a039; 0x655b59c3; 0x8f0ccc92;
    0xffeff47d; 0x85845dd1; 0x6fa87e4f; 0xfe2ce6e0; 0xa3014314; 0x4e0811a1;
    0xf7537e82; 0xbd3af235; 0x2ad7d2bb; 0xeb86d391 ].

Definition md5_round (m : list Z) (s : Z * Z * Z * Z) (i : Z) : Z * Z * Z * Z :=
  let '(a, b, c, d) := s in
  let '(f, g) :=
    if i <? 16 then (Z.lor (Z.land b c) (Z.land (not32 b) d), i)
    else if i <? 32
    then (Z.lor (Z.land d b) (Z.land (not32 d) c), (5 * i + 1) mod 16)
    else if i <? 48 then (Z.lxor (Z.lxor b c) d, (3 * i + 5) mod 16)
    else (Z.lxor c (Z.lor b (not32 d)), (7 * i) mod 16) in
  (d, add32 b (rotl32 (word md5_shifts i)
                      (sum32 [f; a; word md5_sines i; word m g])), b, c).

Definition md5_block (h : Z * Z * Z * Z) (block : list Z) : Z * Z * Z * Z :=
  let '(a0, b0, c0, d0) := h in
  let '(a, b, c, d) := fold_left (md5_round block) (rounds 64) h in
  (add32 a0 a, add32 b0 b, add32 c0 c, add32 d0 d).

Definition md5 (message : list byte) : list byte :=
  let '(a, b, c, d) :=
    fold_left md5_block (message_blocks false message)
              (0x67452301, 0xefcdab89, 0x98badcfe, 0x10325476) in
  map to_byte (flat_map (octets_le 4) [a; b; c; d]).

(** *** SHA-256 *)

Definition is_prime (n : nat) : bool :=
  forallb (fun d => negb (Nat.eqb (n mod d) 0)) (seq 2 (n - 2)).

Definition first_primes (count : nat) : list Z :=
  map Z.of_nat (firstn count (filter is_prime (seq 2 400))).

(** The largest [r] below [2^bits] whose cube does not exceed [n]. *)
Fixpoint cube_root (bits : nat) (n r : Z) : Z :=
  match bits with
  | O => r
  | S bits' =>
      let r' := r + 2 ^ Z.of_nat bits' in
      cube_root bits' n (if r' * r' * r' <=? n then r' else r)
  end.

(** The first 32 bits of the fractional parts of the square roots of the
    first eight primes, and of the cube roots of the first sixty-four. *)
Definition sha256_initial : list Z :=
  Eval vm_compute in
    map (fun p => Z.land (Z.sqrt (p * 2 ^ 64)) mask32) (first_primes 8).

Definition sha256_constants : list Z :=
  Eval vm_compute in
    map (fun p => Z.land (cube_root 40 (p * 2 ^ 96) 0) mask32) (first_primes 64).

Definition sha256_schedule (block : list Z) : list Z :=
  fold_left
    (fun w i =>
       let w15 := word w (i - 15) in
       let w2 := word w (i - 2) in
       let s0 := Z.lxor (Z.lxor (rotr32 7 w15) (rotr32 18 w15)) (Z.shiftr w15 3) in
       let s1 := Z.lxor (Z.lxor (rotr32 17 w2) (rotr32 19 w2)) (Z.shiftr w2 10) in
       (w ++ [sum32 [word w (i - 16); s0; word w (i - 7); s1]])%list)
    (map (fun i => i + 16) (rounds 48)) block.

Definition sha256_round (w : list Z) (s : list Z) (i : Z) : list Z :=
  match s with
  | [a; b; c; d; e; f; g; h] =>
      let S1 := Z.lxor (Z.lxor (rotr32 6 e) (rotr32 11 e)) (rotr32 25 e) in
      let ch := Z.lxor (Z.land e f) (Z.land (not32 e) g) in
      let temp1 := sum32 [h; S1; ch; word sha256_constants i; word w i] in
      let S0 := Z.lxor (Z.lxor (rotr32 2 a) (rotr32 13 a)) (rotr32 22 a) in
      let maj := Z.lxor (Z.lxor (Z.land a b) (Z.land a c)) (Z.land b c) in
      [add32 temp1 (add32 S0 maj); a; b; c; add32 d temp1; e; f; g]
  | _ => s
  end.

Definition sha256_block (h : list Z) (block : list Z) : list Z :=
  map (fun '(x, y) => add32 x y)
      (combine h (fold_left (sha256_round (sha256_schedule block)) (rounds 64) h)).

Definition sha256 (message : list byte) : list byte :=
  map to_byte
      (flat_map (octets_be 4)
                (fold_left sha256_block (message_blocks true message) sha256_initial)).

End Digest.

(** The first [count] binary digits of the logarithm to base 2 of
    [y / 2 ^ precision], a number from 1 to 2: squaring doubles the
    logarithm, and the square reaches 2 exactly when the next digit is 1. *)
Fixpoint log2_digits (count : nat) (precision y digits : Z) : Z :=
  match count with
  | O => digits
  | S count =>
      let square := Z.shiftr (y * y) precision in
      if Z.shiftl 1 (precision + 1) <=? square
      then log2_digits count precision (Z.shiftr square 1) (2 * digits + 1)
      else log2_digits count precision square (2 * digits)
  end.

(** [Math.log2]: for a positive [m * 2 ^ e], the exponent of its leading
    bit plus 80 binary digits of the logarithm of what is left, rounded
    to the nearest number. *)
Definition log2_reference (x : float) : float :=
  match Prim2SF x with
  | S754_finite false m e =>
      let k := Z.log2 (Z.pos m) in
      let y := Z.shiftl (Z.pos m) (200 - k) in
      let fraction := log2_digits 80 200 y 0 in
      SF2Prim (binary_normalize prec emax ((k + e) * 2 ^ 80 + fraction) (-80) false)
  | S754_zero _ => neg_infinity
  | S754_infinity false => infinity
  | _ => nan
  end.

(** One unit per byte. *)
Definition string_of_bytes (bytes : list byte) : string :=
  string_of_list_ascii (map ascii_of_byte bytes).

(** A browser without decoders: no image and no media file loads, the
    tag reader calls back on the files it can read and finds nothing.
    Digests other than SHA-1 and SHA-256 are rejected, the clock advances
    by one millisecond per reading, and texts are decoded one unit per
    byte. *)
#[export] Instance headless : Host := {|
  subtle_digest algorithm buffer :=
    if (algorithm =? "SHA-1")%string then Some (Digest.sha1 buffer)
    else if (algorithm =? "SHA-256")%string then Some (Digest.sha256 buffer)
    else None;
  Math_log2 := log2_reference;
  performance_now n := Number_of_Z (Z.of_nat n);
  Image_load _ := None;
  EXIF_calls_back file :=
    match content file with Some _ => true | None => false end;
  EXIF_getAllTags _ := None;
  Canvas_getImageData _ := None;
  Media_load _ := None;
  TextDecoder_latin1 := string_of_bytes;
  TextDecoder_utf8 := string_of_bytes
|}.

Definition bytes_of_string (s : string) : list byte :=
  map byte_of_ascii (list_ascii_of_string s).

(* ===================================================================== *)
(** * Part II: the vocabulary of the properties                           *)
(* ===================================================================== *)

(** ** Strings *)

Definition StartsWith (s p : string) : Prop := exists rest, s = (p ++ rest)%string.
Definition EndsWith (s p : string) : Prop := exists front, s = (front ++ p)%string.
Definition Includes (s p : string) : Prop :=
  exists front rest, s = (front ++ p ++ rest)%string.

(** ** Format classification *)

Definition image_type (f : File) : Prop := StartsWith (type f) "image/".
Definition media_type (f : File) : Prop :=
  StartsWith (type f) "video/" \/ StartsWith (type f) "audio/".
Definition pdf_type (f : File) : Prop := type f = "application/pdf".
Definition text_like (f : File) : Prop :=
  Includes (type f) "text/" \/ EndsWith (name f) ".txt" \/ EndsWith (name f) ".md".
Definition archive_like (f : File) : Prop :=
  Includes (type f) "zip" \/ Includes (type f) "archive"
  \/ EndsWith (name f) ".zip" \/ EndsWith (name f) ".rar".

(** The dispatch as the specification words it (section 4.4): a prefix for
    the text MIME type, and the [.pdf] extension accepted next to the PDF
    MIME type. *)
Definition classify_as_specified (file : File) : option Extractor :=
  if startsWith (type file) "image/" then Some ImageExtractor
  else if startsWith (type file) "audio/" || startsWith (type file) "video/"
  then Some MediaExtractor
  else if (type file =? "application/pdf")%string || endsWith (name file) ".pdf"
  then Some DocumentExtractor
  else if startsWith (type file) "text/" || endsWith (name file) ".txt"
          || endsWith (name file) ".md"
  then Some TextExtractor
  else if includes (type file) "zip" || includes (type file) "archive"
          || endsWith (name file) ".zip" || endsWith (name file) ".rar"
  then Some ArchiveExtractor
  else None.

(** A file whose only sign of being a PDF is its extension. *)
Definition pdf_by_name : File :=
  mkFile "report.pdf" "" 0 0 (Some []).

(** ** Entropy *)

(** The entropy as the specification words it (section 4.2), for a sample
    already cut to its prefix: per byte value, in increasing order, the
    number of occurrences, and for each value that occurs the term
    [p * log2 p] taken off the running sum. *)
Definition all_bytes : list byte :=
  Eval vm_compute in
    map (fun n => match Byte.of_nat n with Some b => b | None => x00 end) (seq 0 256).

Definition occurrences (b : byte) (sample : list byte) : Z :=
  Z.of_nat (count_occ Byte.byte_eq_dec sample b).

Definition shannon_term `{Host} (sample : list byte) (acc : float) (b : byte) : float :=
  let count := occurrences b sample in
  if 0 <? count then
    let p := (Number_of_Z count / Number_of_Z (Z.of_nat (List.length sample)))%float in
    (acc - p * Math_log2 p)%float
  else acc.

Definition shannon_as_specified `{Host} (sample : list byte) : float :=
  fold_left (shannon_term sample) all_bytes 0%float.

Definition entropy_as_specified `{Host} (buffer : list byte) : float :=
  round2 (shannon_as_specified (firstn (Z.to_nat (1024 * 1024)) buffer)).

(** Dividing a sample length by itself gives exactly one: the check, for
    [count] lengths from [from] on. *)
Fixpoint self_quotients_are_one (count : nat) (from : Z) : bool :=
  match count with
  | O => true
  | S count' =>
      (let x := PrimFloat.of_uint63 (Uint63.of_Z from) in
       PrimFloat.Leibniz.eqb (x / x)%float 1%float)
      && self_quotients_are_one count' (from + 1)
  end.

(** ** Rounding *)

(** [n] is the integer nearest to the number [m * 2 ^ e], negated when
    [negative], for [e < 0]; half way between two integers it is the
    larger one.  Twice the number lies from [2 * n - 1], included, to
    [2 * n + 1], excluded. *)
Definition nearest_integer (negative : bool) (m : positive) (e n : Z) : Prop :=
  let twice := 2 * (if negative then - Z.pos m else Z.pos m) in
  (2 * n - 1) * 2 ^ (- e) <= twice < (2 * n + 1) * 2 ^ (- e).

(** [rounded] is [x] rounded to the nearest integer.  An integer, a zero,
    an infinity and NaN are their own rounding; a negative number keeps
    its sign even when it rounds to zero. *)
Definition Math_round_as_specified (x rounded : float) : Prop :=
  match Prim2SF x with
  | S754_finite negative m e =>
      if 0 <=? e then rounded = x
      else exists n,
             nearest_integer negative m e n
             /\ rounded = if negative then (- Number_of_Z (- n))%float
                          else Number_of_Z n
  | _ => rounded = x
  end.

(** [rounded] is [x] rounded to two decimal places: the nearest number of
    hundredths, divided by 100. *)
Definition rounded_to_two_places (x rounded : float) : Prop :=
  exists hundredths,
    Math_round_as_specified (x * 100)%float hundredths
    /\ rounded = (hundredths / 100)%float.

(** Two bytes in three alike: the entropy is log2 3 - 2/3, a little less
    than 0.9183. *)
Definition aab_file : File := mkFile "aab.bin" "" 3 0 (Some [x61; x61; x62]).

(** ** Digests *)

Definition is_lower_hex (c : ascii) : bool :=
  existsb (Ascii.eqb c) (list_ascii_of_string "0123456789abcdef").

(** A string of lowercase hexadecimal digits. *)
Definition lowercase_hex (s : string) : Prop :=
  Forall (fun c => is_lower_hex c = true) (list_ascii_of_string s).

(** A file of three bytes. *)
Definition abc_file : File :=
  mkFile "abc.bin" "application/octet-stream" 3 0 (Some (bytes_of_string "abc")).

(** ** Provenance of the properties of a record *)

Definition identity_keys : list string :=
  ["name"; "size"; "type"; "lastModified"; "extension"].

Definition universal_keys : list string :=
  ["fileSignature"; "checksum"; "md5"; "entropy"; "isExecutable"; "isEncrypted";
   "hasMetadata"; "processingTime"].

(** The tag reader found a non-empty text under [tag]. *)
Definition text_tag_read `{Host} (file : File) (tag : ExifTags -> option string)
  : Prop :=
  exists tags text, EXIF_getAllTags file = Some tags
                    /\ tag tags = Some text /\ text <> "".

(** The scan of a PDF found the [/Info] dictionary and, in it, [entry]. *)
Definition pdf_entry_found `{Host} (buffer : list byte) (entry : string) : Prop :=
  exists info value,
    capture "/Info" "<<" ">" ">>" (TextDecoder_latin1 buffer) = Some info
    /\ capture entry "(" ")" ")" info = Some value.

(** [stage_succeeded extractor file key]: the stage of [extractor] that
    assigns the property [key] ran to its end on [file] and had a value to
    assign. *)
Definition stage_succeeded `{Host} (extractor : Extractor) (file : File)
           (key : string) : Prop :=
  match extractor with
  | ImageExtractor =>
      (In key ["dimensions"; "aspectRatio"] /\ is_Some (Image_load file))
      \/ key = "exifData"
      \/ (key = "dpi"
          /\ exists tags x y, EXIF_getAllTags file = Some tags
                              /\ XResolution tags = Some x
                              /\ YResolution tags = Some y)
      \/ (key = "creator" /\ text_tag_read file Artist)
      \/ (key = "subject" /\ text_tag_read file ImageDescription)
      \/ (key = "keywords" /\ text_tag_read file Software)
      \/ (In key ["hasAlpha"; "colorDepth"]
          /\ exists data, Canvas_getImageData file = Some (Some data))
  | MediaExtractor =>
      exists element,
        Media_load file = Some element
        /\ (key = "duration"
            \/ (In key ["dimensions"; "aspectRatio"]
                /\ StartsWith (type file) "video/" /\ 0 < videoWidth element)
            \/ (key = "bitrate" /\ (0 <? media_duration element)%float = true))
  | DocumentExtractor =>
      exists buffer,
        content file = Some buffer
        /\ (In key ["wordCount"; "characterCount"]
            \/ (key = "pageCount"
                /\ 0 < count_page_markers 0 (TextDecoder_latin1 buffer))
            \/ (key = "subject" /\ pdf_entry_found buffer "/Title")
            \/ (key = "creator" /\ pdf_entry_found buffer "/Author")
            \/ (key = "keywords" /\ pdf_entry_found buffer "/Keywords"))
  | TextExtractor =>
      exists buffer,
        content file = Some buffer
        /\ In key ["wordCount"; "characterCount"; "lineCount"; "encoding";
                   "language"]
  | ArchiveExtractor =>
      key = "compressionRatio"
      /\ exists buffer total,
           content file = Some buffer
           /\ getUint32 buffer 0 = Some ZIP_MAGIC
           /\ zip_walk buffer 0 0 = Some total
           /\ 0 < total
  end.

(** A blob whose bytes cannot be read. *)
Definition unreadable_file : File :=
  mkFile "lost.bin" "application/octet-stream" 1024 0 None.

(** A picture whose bytes cannot be read. *)
Definition unreadable_image : File :=
  mkFile "lost.png" "image/png" 1024 0 None.

(** An archive of three bytes, one short of the magic number. *)
Definition short_archive : File :=
  mkFile "short.zip" "application/zip" 3 0 (Some [x50; x4b; x03]).

(** ** Archives *)

(** The buffer starts with the four bytes of the local-file-header magic
    number, 50 4B 03 04. *)
Definition has_zip_magic (buffer : list byte) : Prop :=
  exists rest, buffer = ([x50; x4b; x03; x04] ++ rest)%list.

(** The headers the walk visits from [offset] on. *)
Inductive walked (view : list byte) : Z -> list LocalFileHeader -> Prop :=
| walked_end (offset : Z) :
    ~ offset < byteLength view - 30 -> walked view offset []
| walked_break (offset : Z) :
    offset < byteLength view - 30 ->
    read_header view offset = Some None ->
    walked view offset []
| walked_next (offset : Z) (header : LocalFileHeader)
              (others : list LocalFileHeader) :
    offset < byteLength view - 30 ->
    read_header view offset = Some (Some header) ->
    walked view
           (offset + 30 + Z.of_N (filenameLength header)
            + Z.of_N (extraFieldLength header) + Z.of_N (compressedSize header))
           others ->
    walked view offset (header :: others).

Definition total_uncompressed (headers : list LocalFileHeader) : Z :=
  fold_right (fun header sum => Z.of_N (uncompSize header) + sum) 0 headers.

(** The first entry announces more bytes than the buffer holds. *)
Definition first_entry_truncated (buffer : list byte) : Prop :=
  exists header,
    read_header buffer 0 = Some (Some header)
    /\ byteLength buffer
       < 30 + Z.of_N (filenameLength header) + Z.of_N (extraFieldLength header)
         + Z.of_N (compressedSize header).

(** A local file header announcing 100 bytes of data that inflate to 1000,
    followed by a single byte. *)
Definition truncated_zip : list byte :=
  ([x50; x4b; x03; x04] ++ repeat x00 14
   ++ [x64; x00; x00; x00]       (* compressed size: 100 *)
   ++ [xe8; x03; x00; x00]       (* uncompressed size: 1000 *)
   ++ [x00; x00; x00; x00]       (* no file name, no extra field *)
   ++ [x00])%list.

Definition truncated_zip_file : File :=
  mkFile "cut.zip" "application/zip" 31 0 (Some truncated_zip).

(** A file of three zero bytes. *)
Definition zero_file : File := mkFile "zeros.bin" "" 3 0 (Some [x00; x00; x00]).

(** ** Language detection *)

(** The number of matches of a language's pattern in a sample. *)
Definition score (sample : string) (entry : string * list string) : Z :=
  count_matches (snd entry) None 0 sample.








Fixpoint repeat_string (n : nat) (s : string) : string :=
  match n with
  | O => EmptyString
  | S n' => (s ++ repeat_string n' s)%string
  end.



(** ** The assembled record *)

(** The identity properties [extractMetadata] starts from. *)
Definition initial_metadata (file : File) : ExtendedMetadata :=
  <["extension" := VString (getFileExtension (name file))]>
  (<["lastModified" := VInteger (lastModified file)]>
   (<["type" := VString (type file)]>
    (<["size" := VInteger (size file)]>
     (<["name" := VString (name file)]> ∅)))).

(** The properties the universal analyzers add, in the order of the
    assignments. *)
Definition universal_fields `{Host} (file : File) (checksum md5 : string)
           (entropy : float) (isEncrypted hasMetadata : bool)
           (metadata : ExtendedMetadata) : ExtendedMetadata :=
  <["processingTime" :=
      VNumber (round2 (performance_now 1 - performance_now 0)%float)]>
  (<["hasMetadata" := VBoolean hasMetadata]>
   (<["isEncrypted" := VBoolean isEncrypted]>
    (<["isExecutable" := VBoolean (isExecutableFile (name file))]>
     (<["entropy" := VNumber entropy]>
      (<["md5" := VString md5]>
       (<["checksum" := VString checksum]> metadata)))))).

(** ** File names *)

Definition dotless (s : string) : Prop := ~ In "."%char (list_ascii_of_string s).

(** ** Signatures *)

(** The digits 0-9 and A-F. *)
Definition is_upper_hex (c : ascii) : bool :=
  let n := code c in ((48 <=? n) && (n <=? 57)) || ((65 <=? n) && (n <=? 70)).

Definition hex_value (c : ascii) : N :=
  let n := N_of_ascii c in if (n <? 58)%N then n - 48 else n - 55.

(** The byte two upper-case hexadecimal digits stand for. *)
Definition byte_of_hex (high low : ascii) : byte :=
  match Byte.of_N (16 * hex_value high + hex_value low) with
  | Some b => b
  | None => x00
  end.

Definition high_digit (b : byte) : ascii := upper_unit (hex_digit (Byte.to_N b / 16)).
Definition low_digit (b : byte) : ascii := upper_unit (hex_digit (Byte.to_N b mod 16)).

(** What follows the two digits of a byte in a signature. *)
Definition signature_tail (rest : list byte) : string :=
  match rest with
  | [] => ""
  | _ :: _ => String " " (toUpperCase (join " " (map byte_hex rest)))
  end.

(** The eight bytes a PNG file starts with. *)
Definition png_file : File :=
  mkFile "dot.png" "image/png" 8 0
         (Some [x89; x50; x4e; x47; x0d; x0a; x1a; x0a]).

(** The buffer starts with one of the archive signatures. *)
Definition starts_with_signature (buffer : list byte) : Prop :=
  exists sig, In sig signatures /\ map Byte.to_N (firstn 4 buffer) = sig.

(** ** Pixels *)

(** The colours of the pixels, alpha left out, in the order of the data. *)
Fixpoint pixel_colors (data : list byte) : list Z :=
  match data with
  | [] => []
  | red :: rest =>
      pack_color (channel red)
                 (match rest with g :: _ => channel g | [] => 0 end)
                 (match rest with _ :: b :: _ => channel b | _ => 0 end)
      :: match rest with
         | _ :: _ :: _ :: next => pixel_colors next
         | _ => []
         end
  end.

Definition distinct_colors (data : list byte) : gset Z :=
  list_to_set (pixel_colors data).

(** The ladder that ends [estimateColorDepth]. *)
Definition depth_of_count (n : Z) : Z :=
  if n <=? 2 then 1
  else if n <=? 16 then 4
  else if n <=? 256 then 8
  else if n <=? 65536 then 16
  else 24.

(** Two pixels: opaque red, half-transparent blue. *)
Definition two_pixels : list byte := [xff; x00; x00; xff; x00; x00; xff; x80].

(** ** Texts *)

(** [text.split(sep).length - 1] *)
Definition separators (sep : ascii) (text : string) : nat :=
  count_occ ascii_dec (list_ascii_of_string text) sep.

(** Nothing but white space. *)
Definition blank (text : string) : Prop :=
  Forall (fun c => is_space c = true) (list_ascii_of_string text).

(** [value] stands in [info] between parentheses, after [key] and any white
    space, and holds no closing parenthesis. *)
Definition parenthesised (key value info : string) : Prop :=
  exists front spaces rest,
    info = (front ++ key ++ spaces ++ "(" ++ value ++ ")" ++ rest)%string
    /\ blank spaces
    /\ ~ In ")"%char (list_ascii_of_string value).

(** No white space at either end, and no comma. *)
Definition trimmed_keyword (keyword : string) : Prop :=
  (forall c, first_unit keyword = Some c -> is_space c = false)
  /\ (forall c, last_unit None keyword = Some c -> is_space c = false)
  /\ ~ In ","%char (list_ascii_of_string keyword).

(** The text the PDF extractor counts words and characters in. *)
Definition pdf_text_content (text : string) : string :=
  collapse_spaces false (map_units printable_or_space text).


Definition report_file : File :=
  mkFile "report.pdf" "application/pdf" 62 0
         (Some (bytes_of_string
                  "%PDF-1.4 /Type /Pages /Type /Page  /Info << /Title (Report) >>")).

(** ** Stop words with an accent *)

(** [accent] comes right after a word character somewhere in [s]; [before]
    is the unit left of [s]. *)
Fixpoint follows_word (accent : ascii) (before : option ascii) (s : string) : bool :=
  match s with
  | EmptyString => false
  | String c s' =>
      (Ascii.eqb c accent && is_word before) || follows_word accent (Some c) s'
  end.

Definition starts_with_unit (accent : ascii) (word : string) : bool :=
  match word with
  | String c _ => Ascii.eqb c accent
  | EmptyString => false
  end.

Definition e_circumflex_unit : ascii := unit_of_code 234.

(** The French entry of [patterns], and its stop words other than the one
    that starts with an accented letter. *)
Definition french : string * list string := nth 1 patterns ("", []).

Definition french_without_etre : list string :=
  ["le"; "la"; "les"; "de"; "du"; "des"; "et"; "ou"; "mais"; "dans"; "sur";
   "pour"; "avec"; "ce"; "cette"; "avoir"; "sera"; "serait"].

Definition etre_sample : string :=
  repeat_string 5 (e_circumflex ++ "tre ").

(** ** Words as a reader takes them *)






(** The capital of a letter from a to z and of an accented letter from
    U+00E0 to U+00FE, 32 code units below it; any other character is left
    as it is. *)
Definition capital_unit (c : ascii) : ascii :=
  let n := code c in
  if ((97 <=? n) && (n <=? 122))
     || ((224 <=? n) && (n <=? 254) && negb (n =? 247))
  then unit_of_code (n - 32) else c.

(** The text with each letter replaced by its capital. *)
Definition in_capitals (text : string) : string := map_units capital_unit text.




(** ** Hosts with decoders *)

(** The dictionary [getExifData] resolves with. *)
Definition exif_of `{Host} (file : File) : ExifTags :=
  match EXIF_getAllTags file with
  | Some exifData => exifData
  | None => no_tags
  end.

(** A browser that decodes every file as the same picture of two pixels
    taken by the same camera, and as the same clip of two seconds. *)
Definition decoding : Host := {|
  subtle_digest := @subtle_digest headless;
  Math_log2 := @Math_log2 headless;
  performance_now := @performance_now headless;
  Image_load _ := Some (2, 1);
  EXIF_calls_back := @EXIF_calls_back headless;
  EXIF_getAllTags _ :=
    Some (mkExifTags (Some 72%float) (Some 72%float) (Some "Ada") None (Some "") 3);
  Canvas_getImageData _ := Some (Some two_pixels);
  Media_load _ := Some (mkMediaElement 2%float 640 360);
  TextDecoder_latin1 := @TextDecoder_latin1 headless;
  TextDecoder_utf8 := @TextDecoder_utf8 headless
|}.

Definition clip_file : File := mkFile "clip.mp4" "video/mp4" 1000 0 (Some []).

(** ** The properties of each extractor *)

(** The properties each extractor can assign. *)
Definition assigned_by : list (Extractor * list string) :=
  [ (ImageExtractor,
     ["dimensions"; "aspectRatio"; "exifData"; "dpi"; "creator"; "subject";
      "keywords"; "hasAlpha"; "colorDepth"]);
    (MediaExtractor, ["duration"; "dimensions"; "aspectRatio"; "bitrate"]);
    (DocumentExtractor,
     ["subject"; "creator"; "keywords"; "pageCount"; "wordCount";
      "characterCount"]);
    (TextExtractor,
     ["wordCount"; "characterCount"; "lineCount"; "encoding"; "language"]);
    (ArchiveExtractor, ["compressionRatio"]) ].

Definition assigns (extractor : Extractor) (key : string) : Prop :=
  exists keys, In (extractor, keys) assigned_by /\ In key keys.

(** Properties the interface [ExtendedMetadata] declares and no statement
    of the extractor assigns. *)
Definition unassigned_keys : list string :=
  ["sampleRate"; "channels"; "codec"; "architecture"].

(* ===================================================================== *)
(** * Part III: properties                                                *)
(* ===================================================================== *)

(** ** Aspect ratio *)

Lemma gcd_step (a b : Z) :
  gcd a b = if b =? 0 then a else gcd b (Z.rem a b).
Proof.
  rewrite gcd_equation_1.
  destruct (Z.eq_dec b 0) as [->|Hb]; simpl.
  - reflexivity.
  - apply Z.eqb_neq in Hb. rewrite Hb. reflexivity.
Qed.

(** On non-negative arguments the recursion is Euclid's algorithm. *)
Lemma gcd_is_Zgcd (a b : Z) : 0 <= a -> 0 <= b -> gcd a b = Z.gcd a b.
Proof.
  funelim (gcd a b); intros Ha Hb.
  - subst b. rewrite Z.gcd_0_r. lia.
  - match goal with IH : _ -> _ -> gcd _ _ = Z.gcd _ _ |- _ => rename IH into IH' end.
    assert (Hpos : 0 < b) by lia.
    rewrite Z.rem_mod_nonneg in * by lia.
    pose proof (Z.mod_pos_bound a b Hpos).
    rewrite IH' by lia.
    rewrite Z.gcd_mod_r. apply Z.gcd_comm.
Qed.

Lemma gcd_fuel_enough (fuel : nat) (a b : Z) :
  0 <= a -> 0 <= b -> (Z.to_nat b < fuel)%nat ->
  gcd_fuel fuel a b = Some (gcd a b).
Proof.
  revert a b. induction fuel as [|fuel IH]; intros a b Ha Hb Hlt; [lia|].
  simpl. rewrite (gcd_step a b).
  destruct (b =? 0) eqn:E; [reflexivity|].
  apply Z.eqb_neq in E.
  assert (Hpos : 0 < b) by lia.
  rewrite Z.rem_mod_nonneg by lia.
  pose proof (Z.mod_pos_bound a b Hpos).
  apply IH; lia.
Qed.

Lemma gcd_divides_l (a b : Z) : 0 <= a -> 0 <= b -> (gcd a b | a).
Proof. intros. rewrite gcd_is_Zgcd by assumption. apply Z.gcd_divide_l. Qed.

Lemma gcd_divides_r (a b : Z) : 0 <= a -> 0 <= b -> (gcd a b | b).
Proof. intros. rewrite gcd_is_Zgcd by assumption. apply Z.gcd_divide_r. Qed.

Lemma gcd_positive (a b : Z) :
  0 <= a -> 0 <= b -> 0 < a \/ 0 < b -> 0 < gcd a b.
Proof.
  intros Ha Hb Hor. rewrite gcd_is_Zgcd by assumption.
  pose proof (Z.gcd_nonneg a b).
  assert (Z.gcd a b <> 0); [|lia].
  intros E. apply Z.gcd_eq_0 in E. lia.
Qed.

Lemma quotient_toString_nonzero (n d : Z) :
  0 <= n -> 0 < d -> quotient_toString n d = Number_toString (n / d).
Proof.
  intros Hn Hd. unfold quotient_toString.
  destruct (d =? 0) eqn:E; [apply Z.eqb_eq in E; lia|].
  rewrite Z.quot_div_nonneg by lia. reflexivity.
Qed.

(** C7. For positive integer dimensions the aspect ratio is the string
    "W:H" where W and H are the width and the height divided by their
    greatest common divisor (so W and H have no common factor left);
    1920x1080 gives "16:9" and 1x1 gives "1:1". *)
Theorem aspect_ratio_reduced :
  (forall width height : Z, 0 < width -> 0 < height ->
     let g := Z.gcd width height in
     calculateAspectRatio width height =
       Number_toString (width / g) ++ ":" ++ Number_toString (height / g)
     /\ width = (width / g) * g /\ height = (height / g) * g
     /\ Z.gcd (width / g) (height / g) = 1)
  /\ calculateAspectRatio 1920 1080 = "16:9"
  /\ calculateAspectRatio 1 1 = "1:1".
Proof.
  split; [|split; reflexivity].
  intros w h Hw Hh g.
  assert (Hg : 0 < g).
  { unfold g. rewrite <- gcd_is_Zgcd by lia. apply gcd_positive; lia. }
  split; [|split; [|split]].
  - unfold calculateAspectRatio. cbv zeta.
    rewrite gcd_is_Zgcd by lia. fold g.
    rewrite !quotient_toString_nonzero by lia. reflexivity.
  - destruct (Z.gcd_divide_l w h) as [k Hk]. fold g in Hk.
    rewrite Hk at 2. rewrite Z.div_mul by lia. exact Hk.
  - destruct (Z.gcd_divide_r w h) as [k Hk]. fold g in Hk.
    rewrite Hk at 2. rewrite Z.div_mul by lia. exact Hk.
  - apply Z.gcd_div_gcd; [lia | reflexivity].
Qed.

Lemma aspect_ratio_reduced_witness :
  0 < 1280 /\ 0 < 720 /\ calculateAspectRatio 1280 720 = "16:9".
Proof.
  split; [lia | split; [lia |]].
  destruct (proj1 aspect_ratio_reduced 1280 720) as [E _]; [lia | lia |].
  rewrite E. reflexivity.
Defined.

(** C10. On non-negative integers every recursive call of [gcd] receives
    non-negative arguments whose second component is strictly smaller, the
    recursion reaches its base case within [b + 1] calls, and the divisor
    it returns is positive as soon as one of the two inputs is: neither
    division of the ratio divides by zero. *)
Theorem gcd_terminates_nonzero_divisor (a b : Z) :
  0 <= a -> 0 <= b ->
  (forall a' b', gcd_call (a', b') (a, b) -> 0 <= a' /\ 0 <= b' < b)
  /\ gcd_fuel (S (Z.to_nat b)) a b = Some (gcd a b)
  /\ (0 < a \/ 0 < b ->
        gcd a b <> 0
        /\ calculateAspectRatio a b =
             Number_toString (a / gcd a b) ++ ":" ++ Number_toString (b / gcd a b)).
Proof.
  intros Ha Hb. split; [|split].
  - intros a' b' Hcall. inversion Hcall as [x y Hy]; subst.
    assert (Hpos : 0 < b) by lia.
    rewrite Z.rem_mod_nonneg by lia.
    pose proof (Z.mod_pos_bound a b Hpos). lia.
  - apply gcd_fuel_enough; lia.
  - intros Hor. pose proof (gcd_positive a b Ha Hb Hor) as Hg.
    split; [lia|].
    unfold calculateAspectRatio. cbv zeta.
    rewrite !quotient_toString_nonzero by lia. reflexivity.
Qed.

Lemma gcd_terminates_nonzero_divisor_witness :
  gcd_fuel 4 0 3 = Some 3 /\ gcd 0 3 <> 0 /\ calculateAspectRatio 0 3 = "0:1".
Proof.
  destruct (gcd_terminates_nonzero_divisor 0 3) as (_ & Hf & Hd); [lia | lia |].
  destruct Hd as [Hnz Hs]; [right; lia|].
  split; [exact Hf | split; [exact Hnz | rewrite Hs; reflexivity]].
Defined.

(** ** Strings *)

Lemma prefix_spec (p s : string) :
  String.prefix p s = true <-> StartsWith s p.
Proof.
  revert s. induction p as [|c p IH]; intros s; simpl.
  - split; [intros _; exists s; reflexivity | destruct s; reflexivity].
  - destruct s as [|d s].
    + split; [discriminate | intros [r Hr]; discriminate].
    + simpl. destruct (ascii_dec c d) as [->|Hne].
      * rewrite IH. split; intros [r Hr]; exists r.
        -- simpl. now rewrite Hr.
        -- simpl in Hr. now inversion Hr.
      * split; [discriminate | intros [r Hr]; simpl in Hr; inversion Hr; congruence].
Qed.

Lemma startsWith_spec (s p : string) : startsWith s p = true <-> StartsWith s p.
Proof. apply prefix_spec. Qed.

Lemma endsWith_spec (s p : string) : endsWith s p = true <-> EndsWith s p.
Proof.
  induction s as [|c s IH]; cbn [endsWith].
  - rewrite orb_false_r, String.eqb_eq. split.
    + intros <-. exists "". reflexivity.
    + intros [[|d front] H]; simpl in H; [assumption | discriminate].
  - rewrite orb_true_iff, String.eqb_eq, IH. split.
    + intros [<- | [front ->]]; [exists ""; reflexivity|].
      exists (String c front). reflexivity.
    + intros [[|d front] H]; simpl in H; [left; assumption|].
      inversion H; subst. right. exists front. reflexivity.
Qed.

Lemma includes_spec (s p : string) : includes s p = true <-> Includes s p.
Proof.
  induction s as [|c s IH]; cbn [includes].
  - rewrite orb_false_r, prefix_spec. split.
    + intros [r Hr]. exists "", r. exact Hr.
    + intros [[|d front] [r Hr]]; simpl in Hr; [exists r; exact Hr | discriminate].
  - rewrite orb_true_iff, prefix_spec, IH. split.
    + intros [[r Hr] | (front & r & ->)].
      * exists "", r. exact Hr.
      * exists (String c front), r. reflexivity.
    + intros [[|d front] [r Hr]]; simpl in Hr.
      * left. exists r. exact Hr.
      * inversion Hr; subst. right. exists front, r. reflexivity.
Qed.

Create Rewrite HintDb js_strings.
#[local] Hint Rewrite startsWith_spec endsWith_spec includes_spec
  orb_true_iff orb_false_iff String.eqb_eq String.eqb_neq : js_strings.

(** ** Format classification *)

Lemma not_true_iff_false' (b : bool) (P : Prop) :
  (b = true <-> P) -> (b = false <-> ~ P).
Proof. intros H. rewrite <- H. destruct b; split; congruence. Qed.

(** C4, as stated, fails: a [.pdf] extension alone does not select the
    document extractor (nothing is selected for such a file). *)
Lemma classify_pdf_extension_counterexample :
  classify_as_specified pdf_by_name = Some DocumentExtractor
  /\ classify pdf_by_name = None.
Proof. split; reflexivity. Qed.

(** C4, amended.  The dispatch is a function of the declared MIME type and
    the file name only, in this priority order: a MIME type starting with
    "image/" selects the image extractor; else one starting with "video/" or
    "audio/" the media extractor; else the MIME type "application/pdf"
    exactly the document extractor; else a MIME type containing "text/" or a
    name ending in ".txt" or ".md" the text extractor; else a MIME type
    containing "zip" or "archive" or a name ending in ".zip" or ".rar" the
    archive extractor; otherwise none. *)
Theorem classify_priority (f : File) :
  (classify f = Some ImageExtractor <-> image_type f)
  /\ (classify f = Some MediaExtractor <-> ~ image_type f /\ media_type f)
  /\ (classify f = Some DocumentExtractor <->
        ~ image_type f /\ ~ media_type f /\ pdf_type f)
  /\ (classify f = Some TextExtractor <->
        ~ image_type f /\ ~ media_type f /\ ~ pdf_type f /\ text_like f)
  /\ (classify f = Some ArchiveExtractor <->
        ~ image_type f /\ ~ media_type f /\ ~ pdf_type f /\ ~ text_like f
        /\ archive_like f)
  /\ (classify f = None <->
        ~ image_type f /\ ~ media_type f /\ ~ pdf_type f /\ ~ text_like f
        /\ ~ archive_like f)
  /\ (forall g : File, type g = type f -> name g = name f ->
        classify g = classify f).
Proof.
  assert (Hi : startsWith (type f) "image/" = true <-> image_type f)
    by apply startsWith_spec.
  assert (Hm : startsWith (type f) "video/" || startsWith (type f) "audio/" = true
               <-> media_type f).
  { unfold media_type. now autorewrite with js_strings. }
  assert (Hp : (type f =? "application/pdf")%string = true <-> pdf_type f)
    by apply String.eqb_eq.
  assert (Ht : includes (type f) "text/" || endsWith (name f) ".txt"
               || endsWith (name f) ".md" = true <-> text_like f).
  { unfold text_like. autorewrite with js_strings. tauto. }
  assert (Ha : includes (type f) "zip" || includes (type f) "archive"
               || endsWith (name f) ".zip" || endsWith (name f) ".rar" = true
               <-> archive_like f).
  { unfold archive_like. autorewrite with js_strings. tauto. }
  pose proof (not_true_iff_false' _ _ Hi) as Hi'.
  pose proof (not_true_iff_false' _ _ Hm) as Hm'.
  pose proof (not_true_iff_false' _ _ Hp) as Hp'.
  pose proof (not_true_iff_false' _ _ Ht) as Ht'.
  pose proof (not_true_iff_false' _ _ Ha) as Ha'.
  unfold classify.
  repeat split;
    try (intros g Hty Hnm; unfold classify; rewrite Hty, Hnm; reflexivity);
    destruct (startsWith (type f) "image/");
    destruct (startsWith (type f) "video/" || startsWith (type f) "audio/");
    destruct (type f =? "application/pdf")%string;
    destruct (includes (type f) "text/" || endsWith (name f) ".txt"
              || endsWith (name f) ".md");
    destruct (includes (type f) "zip" || includes (type f) "archive"
              || endsWith (name f) ".zip" || endsWith (name f) ".rar");
    try discriminate; try tauto; intuition congruence.
Qed.

Lemma classify_priority_witness :
  classify (mkFile "notes.md" "" 12 0 (Some []))
  = classify (mkFile "notes.md" "" 4096 1700000000000 None)
  /\ classify (mkFile "notes.md" "" 12 0 (Some [])) = Some TextExtractor.
Proof.
  split.
  - destruct (classify_priority (mkFile "notes.md" "" 4096 1700000000000 None))
      as (_ & _ & _ & _ & _ & _ & Hsame).
    apply Hsame; reflexivity.
  - reflexivity.
Defined.


(** ** Entropy *)

Section EntropyFacts.
Context `{Host}.

Lemma increment_length (frequency : list Z) (i : nat) :
  List.length (increment frequency i) = List.length frequency.
Proof.
  revert i. induction frequency as [|x l IH]; intros [|i]; simpl; auto.
Qed.

Lemma increment_nth (frequency : list Z) (i j : nat) :
  (i < List.length frequency)%nat ->
  nth j (increment frequency i) 0 =
  nth j frequency 0 + (if Nat.eqb i j then 1 else 0).
Proof.
  revert i j. induction frequency as [|x l IH]; intros i j Hi; simpl in Hi; [lia|].
  destruct i as [|i], j as [|j]; simpl; try lia.
  apply IH. lia.
Qed.

Lemma histogram_length (bytes : list byte) (init : list Z) :
  List.length (fold_left (fun frequency b => increment frequency (byte_index b))
                         bytes init)
  = List.length init.
Proof.
  revert init. induction bytes as [|b l IH]; intros init; simpl; [reflexivity|].
  rewrite IH. apply increment_length.
Qed.

Lemma byte_index_bound (b : byte) : (byte_index b < 256)%nat.
Proof. pose proof (Byte.to_nat_bounded b). unfold byte_index. lia. Qed.

(** Each slot of the histogram counts the bytes of that value. *)
Lemma histogram_nth (bytes : list byte) (init : list Z) (c : byte) :
  List.length init = 256%nat ->
  nth (byte_index c)
      (fold_left (fun frequency b => increment frequency (byte_index b))
                 bytes init) 0
  = nth (byte_index c) init 0 + occurrences c bytes.
Proof.
  revert init. induction bytes as [|b l IH]; intros init Hlen.
  - unfold occurrences. simpl. lia.
  - cbn [fold_left]. rewrite IH by (rewrite increment_length; exact Hlen).
    rewrite increment_nth by (rewrite Hlen; apply byte_index_bound).
    unfold occurrences. cbn [count_occ].
    destruct (Byte.byte_eq_dec b c) as [->|Hne].
    + rewrite Nat.eqb_refl. lia.
    + assert (E : Nat.eqb (byte_index b) (byte_index c) = false).
      { apply Nat.eqb_neq. intros E. apply Hne.
        unfold byte_index in E.
        pose proof (Byte.of_to_nat b) as Hb. rewrite E, Byte.of_to_nat in Hb.
        congruence. }
      rewrite E. lia.
Qed.

Lemma all_bytes_nth (c : byte) : nth (byte_index c) all_bytes x00 = c.
Proof. destruct c; reflexivity. Qed.

Lemma all_bytes_length : List.length all_bytes = 256%nat.
Proof. reflexivity. Qed.

Lemma all_bytes_index (j : nat) :
  (j < 256)%nat -> byte_index (nth j all_bytes x00) = j.
Proof.
  intros Hj.
  destruct (Byte.of_nat j) as [b|] eqn:E.
  - apply Byte.to_of_nat in E. subst j. rewrite all_bytes_nth. reflexivity.
  - apply Byte.of_nat_None_iff in E. lia.
Qed.

(** The histogram built by the loop is the table of occurrences. *)
Lemma byte_frequency_occurrences (bytes : list byte) :
  byte_frequency bytes = map (fun b => occurrences b bytes) all_bytes.
Proof.
  apply (nth_ext _ _ 0 0).
  - unfold byte_frequency. rewrite histogram_length, repeat_length, length_map.
    reflexivity.
  - intros j Hj. unfold byte_frequency in *.
    rewrite histogram_length, repeat_length in Hj.
    rewrite (nth_indep (map _ _) 0 ((fun b => occurrences b bytes) x00))
      by (rewrite length_map; exact Hj).
    rewrite (map_nth (fun b => occurrences b bytes)).
    rewrite <- (all_bytes_index j Hj) at 1.
    rewrite histogram_nth by apply repeat_length.
    rewrite nth_repeat. simpl. reflexivity.
Qed.

Lemma fold_left_on_map {A B C : Type} (f : A -> C -> A) (g : B -> C)
      (l : list B) (a : A) :
  fold_left f (map g l) a = fold_left (fun acc b => f acc (g b)) l a.
Proof. revert a. induction l as [|x l IH]; intros a; simpl; auto. Qed.

Lemma accumulate_is_shannon (bytes : list byte) :
  accumulate_entropy (Z.of_nat (List.length bytes)) (byte_frequency bytes)
  = shannon_as_specified bytes.
Proof.
  unfold accumulate_entropy, shannon_as_specified.
  rewrite byte_frequency_occurrences, fold_left_on_map. reflexivity.
Qed.

End EntropyFacts.


Lemma Number_of_Z_small (z : Z) :
  0 <= z < 2 ^ 63 -> Number_of_Z z = PrimFloat.of_uint63 (Uint63.of_Z z).
Proof.
  intros Hz. unfold Number_of_Z.
  rewrite <- (FloatAxioms.SF2Prim_Prim2SF (PrimFloat.of_uint63 (Uint63.of_Z z))).
  rewrite FloatAxioms.of_uint63_spec, Uint63.of_Z_spec.
  rewrite Z.mod_small by exact Hz. reflexivity.
Qed.

Lemma self_quotients_sound (count : nat) (from n : Z) :
  self_quotients_are_one count from = true ->
  from <= n < from + Z.of_nat count ->
  (PrimFloat.of_uint63 (Uint63.of_Z n) / PrimFloat.of_uint63 (Uint63.of_Z n))%float
  = 1%float.
Proof.
  revert from. induction count as [|count IH]; intros from Hall Hn; [lia|].
  cbn [self_quotients_are_one] in Hall.
  apply andb_true_iff in Hall as [Hhere Hrest].
  destruct (Z.eq_dec n from) as [->|Hne].
  - apply FloatAxioms.Leibniz.eqb_spec. exact Hhere.
  - apply (IH (from + 1)); [exact Hrest | lia].
Qed.

Lemma self_quotients_checked :
  self_quotients_are_one (Z.to_nat (1024 * 1024)) 1 = true.
Proof. vm_compute. reflexivity. Qed.

Lemma sample_length_quotient (n : Z) :
  1 <= n <= 1024 * 1024 -> (Number_of_Z n / Number_of_Z n)%float = 1%float.
Proof.
  intros Hn. rewrite Number_of_Z_small by lia.
  apply (self_quotients_sound (Z.to_nat (1024 * 1024)) 1).
  - exact self_quotients_checked.
  - lia.
Qed.

Lemma occurrences_zero_byte (sample : list byte) :
  Forall (fun b => b = x00) sample ->
  occurrences x00 sample = Z.of_nat (List.length sample).
Proof.
  intros Hall. unfold occurrences. f_equal.
  induction Hall as [|b l Hb Hl IH]; simpl; [reflexivity|].
  subst b. destruct (Byte.byte_eq_dec x00 x00); [|congruence].
  f_equal. exact IH.
Qed.

Lemma occurrences_other_byte (sample : list byte) (b : byte) :
  Forall (fun b => b = x00) sample -> b <> x00 -> occurrences b sample = 0.
Proof.
  intros Hall Hb. unfold occurrences.
  replace (count_occ Byte.byte_eq_dec sample b) with 0%nat; [reflexivity|].
  symmetry. apply count_occ_not_In. intros Hin.
  rewrite Forall_forall in Hall. apply Hb. apply Hall. exact Hin.
Qed.

Section EntropyOfConstantSample.
Context `{Host}.
Variable sample : list byte.
Hypothesis log2_one : Math_log2 1%float = 0%float.
Hypothesis all_zero : Forall (fun b => b = x00) sample.
Hypothesis bounded : Z.of_nat (List.length sample) <= 1024 * 1024.

Lemma shannon_skips_absent (values : list byte) (acc : float) :
  (forall b, In b values -> occurrences b sample = 0) ->
  fold_left (shannon_term sample) values acc = acc.
Proof.
  revert acc. induction values as [|v l IH]; intros acc Habs; simpl; [reflexivity|].
  unfold shannon_term at 2. rewrite (Habs v) by (left; reflexivity). simpl.
  apply IH. intros b Hb. apply Habs. right. exact Hb.
Qed.

Lemma shannon_zero_head (values : list byte) :
  (forall b, In b values -> occurrences b sample = 0) ->
  fold_left (shannon_term sample) (x00 :: values) 0%float = 0%float.
Proof.
  intros Hrest. cbn [fold_left].
  rewrite shannon_skips_absent by exact Hrest.
  unfold shannon_term.
  rewrite occurrences_zero_byte by exact all_zero.
  destruct (0 <? Z.of_nat (List.length sample)) eqn:Hpos; [|reflexivity].
  apply Z.ltb_lt in Hpos. cbv zeta.
  rewrite sample_length_quotient by lia.
  rewrite log2_one. reflexivity.
Qed.

Lemma shannon_all_zero : shannon_as_specified sample = 0%float.
Proof.
  unfold shannon_as_specified.
  assert (E : all_bytes = x00 :: tl all_bytes) by reflexivity.
  rewrite E. apply shannon_zero_head.
  intros b Hb. apply occurrences_other_byte; [exact all_zero|].
  assert (Hall : forallb (fun c => if Byte.byte_eq_dec c x00 then false else true)
                         (tl all_bytes) = true) by reflexivity.
  rewrite forallb_forall in Hall. specialize (Hall b Hb).
  destruct (Byte.byte_eq_dec b x00); [discriminate | assumption].
Qed.

End EntropyOfConstantSample.


Lemma entropy_slice (file : File) (buffer : list byte) :
  content file = Some buffer ->
  size file = Z.of_nat (List.length buffer) ->
  File_slice_arrayBuffer file (Z.min (size file) (1024 * 1024))
  = resolve (firstn (Z.to_nat (1024 * 1024)) buffer).
Proof.
  intros Hread Hsize. unfold File_slice_arrayBuffer. rewrite Hread. cbn [await].
  unfold resolve. f_equal. rewrite Hsize.
  destruct (Z.le_ge_cases (Z.of_nat (List.length buffer)) (1024 * 1024)) as [Hle|Hge].
  - rewrite Z.min_l by exact Hle. rewrite Nat2Z.id.
    rewrite firstn_all. symmetry. apply firstn_all2. lia.
  - rewrite Z.min_r by lia. reflexivity.
Qed.

(** [Math_round] rounds to the nearest integer. *)
Lemma Math_round_meets_specification (x : float) :
  Math_round_as_specified x (Math_round x).
Proof.
  unfold Math_round_as_specified, Math_round.
  destruct (Prim2SF x) as [s|s| |negative m e]; try reflexivity.
  destruct (Z.leb_spec 0 e) as [He|He]; [reflexivity|].
  set (half := 2 ^ (- e - 1)).
  assert (Hhalf : 0 < half) by (apply Z.pow_pos_nonneg; lia).
  assert (Hpow : 2 ^ (- e) = 2 * half).
  { unfold half. rewrite <- Z.pow_succ_r by lia. f_equal. lia. }
  destruct negative.
  - exists ((half - Z.pos m) / (2 * half)). split; [|reflexivity].
    unfold nearest_integer. rewrite Hpow. cbv zeta.
    pose proof (Z.div_mod (half - Z.pos m) (2 * half)).
    pose proof (Z.mod_pos_bound (half - Z.pos m) (2 * half)). nia.
  - exists ((Z.pos m + half) / (2 * half)). split; [|reflexivity].
    unfold nearest_integer. rewrite Hpow. cbv zeta.
    pose proof (Z.div_mod (Z.pos m + half) (2 * half)).
    pose proof (Z.mod_pos_bound (Z.pos m + half) (2 * half)). nia.
Qed.

Lemma round2_meets_specification (x : float) :
  rounded_to_two_places x (round2 x).
Proof.
  exists (Math_round (x * 100)). split; [apply Math_round_meets_specification|].
  reflexivity.
Qed.

(** C5. For a readable file the entropy is computed over the first
    1024 * 1024 bytes at most, as the Shannon sum over the 256 byte values
    (for each value that occurs, with p its count over the sample length,
    [p * log2 p] is taken off the sum), rounded to two decimals: the
    result is the integer nearest to a hundred times the sum, divided by
    100.  A buffer of zero bytes of any length, and the empty buffer, give
    exactly 0. *)
Theorem entropy_is_rounded_shannon `{Host} (file : File) (buffer : list byte) :
  content file = Some buffer ->
  size_agrees file ->
  Math_log2 1%float = 0%float ->
  let sample := firstn (Z.to_nat (1024 * 1024)) buffer in
  (Z.of_nat (List.length sample) <= 1024 * 1024
   /\ exists rest, buffer = (sample ++ rest)%list)
  /\ byte_frequency sample = map (fun b => occurrences b sample) all_bytes
  /\ calculateEntropy file = resolve (round2 (shannon_as_specified sample))
  /\ calculateEntropy file = resolve (entropy_as_specified buffer)
  /\ (exists entropy,
        rounded_to_two_places (shannon_as_specified sample) entropy
        /\ calculateEntropy file = resolve entropy)
  /\ (Forall (fun b => b = x00) buffer -> calculateEntropy file = resolve 0%float)
  /\ (buffer = [] -> calculateEntropy file = resolve 0%float).
Proof.
  intros Hread Hagree Hlog sample.
  pose proof (Hagree buffer Hread) as Hsize.
  assert (Hlen : Z.of_nat (List.length sample) <= 1024 * 1024).
  { unfold sample. rewrite length_firstn. lia. }
  assert (Hcalc : calculateEntropy file = resolve (round2 (shannon_as_specified sample))).
  { unfold calculateEntropy.
    rewrite (entropy_slice file buffer Hread Hsize). fold sample.
    cbn [await try_catch resolve].
    rewrite accumulate_is_shannon. reflexivity. }
  assert (Hzero : Forall (fun b => b = x00) buffer ->
                  calculateEntropy file = resolve 0%float).
  { intros Hall. rewrite Hcalc. rewrite shannon_all_zero.
    - reflexivity.
    - exact Hlog.
    - unfold sample. rewrite Forall_forall in *. intros b Hb.
      apply Hall. rewrite <- (firstn_skipn (Z.to_nat (1024 * 1024)) buffer).
      apply in_or_app. left. exact Hb.
    - exact Hlen. }
  repeat split.
  - lia.
  - exists (skipn (Z.to_nat (1024 * 1024)) buffer). unfold sample.
    symmetry. apply firstn_skipn.
  - apply byte_frequency_occurrences.
  - exact Hcalc.
  - exact Hcalc.
  - exists (round2 (shannon_as_specified sample)).
    split; [apply round2_meets_specification | exact Hcalc].
  - exact Hzero.
  - intros ->. apply Hzero. constructor.
Qed.

Lemma entropy_is_rounded_shannon_witness :
  (content zero_file = Some [x00; x00; x00]
   /\ size_agrees zero_file
   /\ @Math_log2 headless 1%float = 0%float
   /\ @calculateEntropy headless zero_file = resolve 0%float)
  /\ (content aab_file = Some [x61; x61; x62]
      /\ size_agrees aab_file
      /\ @calculateEntropy headless aab_file = resolve (92 / 100)%float).
Proof.
  assert (Hlog : Math_log2 1%float = 0%float) by (vm_compute; reflexivity).
  assert (Hagree : size_agrees zero_file)
    by (intros bytes Hbytes; injection Hbytes as <-; reflexivity).
  assert (Hagree' : size_agrees aab_file)
    by (intros bytes Hbytes; injection Hbytes as <-; reflexivity).
  split.
  - split; [reflexivity | split; [exact Hagree | split; [exact Hlog|]]].
    destruct (entropy_is_rounded_shannon zero_file [x00; x00; x00]
                eq_refl Hagree Hlog) as (_ & _ & _ & _ & _ & Hzero & _).
    apply Hzero. repeat constructor.
  - split; [reflexivity | split; [exact Hagree'|]].
    destruct (entropy_is_rounded_shannon aab_file [x61; x61; x62]
                eq_refl Hagree' Hlog) as (_ & _ & Hcalc & _).
    rewrite Hcalc. vm_compute. reflexivity.
Defined.

(** ** Promises that always fulfil *)

Lemma try_catch_fulfils {A : Type} (body : Promise A) (fallback : A) :
  try_catch body (resolve fallback)
  = resolve (match body with Some a => a | None => fallback end).
Proof. destruct body; reflexivity. Qed.

Lemma getFileSignature_fulfils (file : File) :
  exists signature, getFileSignature file = Some signature.
Proof. unfold getFileSignature. rewrite try_catch_fulfils. eexists. reflexivity. Qed.

Section Fulfilment.
Context `{Host}.

Lemma calculateChecksum_fulfils (file : File) (algorithm : string) :
  exists digest, calculateChecksum file algorithm = Some digest.
Proof. unfold calculateChecksum. rewrite try_catch_fulfils. eexists. reflexivity. Qed.

Lemma calculateEntropy_fulfils (file : File) :
  exists entropy, calculateEntropy file = Some entropy.
Proof. unfold calculateEntropy. rewrite try_catch_fulfils. eexists. reflexivity. Qed.

Lemma detectEncryption_fulfils (file : File) :
  exists flag, detectEncryption file = Some flag.
Proof. unfold detectEncryption. rewrite try_catch_fulfils. eexists. reflexivity. Qed.

Lemma hasEmbeddedMetadata_fulfils (file : File) :
  exists flag, hasEmbeddedMetadata file = Some flag.
Proof. unfold hasEmbeddedMetadata. rewrite try_catch_fulfils. eexists. reflexivity. Qed.

Lemma extractImageMetadata_fulfils (file : File) (metadata : ExtendedMetadata) :
  exists metadata', extractImageMetadata file metadata = Some metadata'.
Proof.
  unfold extractImageMetadata.
  rewrite try_catch_fulfils. cbn [await resolve].
  rewrite try_catch_fulfils. cbn [await resolve].
  rewrite try_catch_fulfils. eexists. reflexivity.
Qed.

Lemma run_extractor_fulfils (extractor : option Extractor) (file : File)
      (metadata : ExtendedMetadata) :
  exists metadata', run_extractor extractor file metadata = Some metadata'.
Proof.
  destruct extractor as [[]|]; cbn [run_extractor].
  - apply extractImageMetadata_fulfils.
  - unfold extractMediaMetadata. rewrite try_catch_fulfils. eexists. reflexivity.
  - unfold extractPDFMetadata. rewrite try_catch_fulfils. eexists. reflexivity.
  - unfold extractTextMetadata. rewrite try_catch_fulfils. eexists. reflexivity.
  - unfold extractArchiveMetadata. rewrite try_catch_fulfils. eexists. reflexivity.
  - eexists. reflexivity.
Qed.

(** The record [extractMetadata] assembles, stage by stage. *)
Lemma extractMetadata_stages (file : File) :
  exists fileSignature formatted checksum md5 entropy isEncrypted hasMetadata,
    getFileSignature file = Some fileSignature
    /\ run_extractor (classify file) file
         (<["fileSignature" := VString fileSignature]> (initial_metadata file))
       = Some formatted
    /\ calculateChecksum file "SHA-256" = Some checksum
    /\ calculateChecksum file "MD5" = Some md5
    /\ calculateEntropy file = Some entropy
    /\ detectEncryption file = Some isEncrypted
    /\ hasEmbeddedMetadata file = Some hasMetadata
    /\ extractMetadata file
       = Some (universal_fields file checksum md5 entropy isEncrypted hasMetadata
                                formatted).
Proof.
  destruct (getFileSignature_fulfils file) as [fileSignature Hsig].
  destruct (run_extractor_fulfils (classify file) file
              (<["fileSignature" := VString fileSignature]> (initial_metadata file)))
    as [formatted Hfmt].
  destruct (calculateChecksum_fulfils file "SHA-256") as [checksum Hsum].
  destruct (calculateChecksum_fulfils file "MD5") as [md5 Hmd5].
  destruct (calculateEntropy_fulfils file) as [entropy Hent].
  destruct (detectEncryption_fulfils file) as [isEncrypted Henc].
  destruct (hasEmbeddedMetadata_fulfils file) as [hasMetadata Hmeta].
  exists fileSignature, formatted, checksum, md5, entropy, isEncrypted, hasMetadata.
  repeat (split; [assumption|]).
  unfold extractMetadata. rewrite Hsig. cbn [await].
  unfold initial_metadata in Hfmt. rewrite Hfmt. cbn [await].
  rewrite Hsum. cbn [await]. rewrite Hmd5. cbn [await].
  rewrite Hent. cbn [await]. rewrite Henc. cbn [await].
  rewrite Hmeta. cbn [await]. reflexivity.
Qed.

End Fulfilment.

(** ** Promises that stay pending *)

Section Fates.
Context `{Host}.

Lemma getExifData_fate (file : File) :
  Eventual.getExifData file
  = if EXIF_calls_back file then Settles (getExifData file) else Pends.
Proof. unfold Eventual.getExifData. destruct (EXIF_calls_back file); reflexivity. Qed.

Lemma extractImageMetadata_fate (file : File) (metadata : ExtendedMetadata) :
  Eventual.extractImageMetadata file metadata
  = if EXIF_calls_back file then Settles (extractImageMetadata file metadata)
    else Pends.
Proof.
  unfold Eventual.extractImageMetadata, extractImageMetadata.
  rewrite getExifData_fate.
  destruct (getImageDimensions file) as [dimensions|], (EXIF_calls_back file);
    cbn [Eventual.await Eventual.try_catch Eventual.resolve
         await try_catch resolve getExifData];
    try reflexivity;
    destruct (Canvas_getImageData file) as [[data|]|]; reflexivity.
Qed.

Lemma hasEmbeddedMetadata_fate (file : File) :
  Eventual.hasEmbeddedMetadata file
  = if startsWith (type file) "image/" && negb (EXIF_calls_back file) then Pends
    else Settles (hasEmbeddedMetadata file).
Proof.
  unfold Eventual.hasEmbeddedMetadata, hasEmbeddedMetadata.
  rewrite getExifData_fate.
  destruct (startsWith (type file) "image/"); cbn [andb].
  - destruct (EXIF_calls_back file); reflexivity.
  - destruct (type file =? "application/pdf")%string; [|reflexivity].
    destruct (File_slice_arrayBuffer file 2048); reflexivity.
Qed.

Lemma run_extractor_fate (file : File) (metadata : ExtendedMetadata) :
  Eventual.run_extractor (classify file) file metadata
  = if startsWith (type file) "image/" && negb (EXIF_calls_back file) then Pends
    else Settles (run_extractor (classify file) file metadata).
Proof.
  unfold classify.
  destruct (startsWith (type file) "image/"); cbn [andb].
  - cbn [Eventual.run_extractor run_extractor]. rewrite extractImageMetadata_fate.
    destruct (EXIF_calls_back file); reflexivity.
  - repeat match goal with
           | |- context [if ?c then Some _ else _] => destruct c
           end; reflexivity.
Qed.

(** The promise of [extractMetadata] stays pending when the file has an
    image type and the EXIF library never calls back; in every other case
    it settles, with the outcome [extractMetadata] gives. *)
Lemma extractMetadata_fate (file : File) :
  Eventual.extractMetadata file
  = if startsWith (type file) "image/" && negb (EXIF_calls_back file) then Pends
    else Settles (extractMetadata file).
Proof.
  destruct (extractMetadata_stages file)
    as (sig & formatted & c & d & e & x & h
        & Hsig & Hfmt & Hc & Hd & He & Hx & Hh & E).
  rewrite E. unfold Eventual.extractMetadata.
  rewrite Hsig. cbn [Eventual.await].
  rewrite run_extractor_fate. unfold initial_metadata in Hfmt. rewrite Hfmt.
  destruct (startsWith (type file) "image/" && negb (EXIF_calls_back file)) eqn:Hpends;
    [reflexivity|].
  cbn [Eventual.await].
  rewrite Hc. cbn [Eventual.await]. rewrite Hd. cbn [Eventual.await].
  rewrite He. cbn [Eventual.await]. rewrite Hx. cbn [Eventual.await].
  rewrite hasEmbeddedMetadata_fate, Hpends, Hh. reflexivity.
Qed.

Lemma extractMetadata_pends (file : File) :
  Eventual.extractMetadata file = Pends
  <-> image_type file /\ EXIF_calls_back file = false.
Proof.
  rewrite extractMetadata_fate. unfold image_type. rewrite <- startsWith_spec.
  destruct (startsWith (type file) "image/"), (EXIF_calls_back file); cbn;
    split; try tauto; try discriminate; intros [? ?]; discriminate.
Qed.

End Fates.

(** ** Digests *)

Example sha1_abc :
  join "" (map byte_hex (Digest.sha1 (bytes_of_string "abc")))
  = "a9993e364706816aba3e25717850c26c9cd0d89d".
Proof. vm_compute. reflexivity. Qed.

Example md5_abc :
  join "" (map byte_hex (Digest.md5 (bytes_of_string "abc")))
  = "900150983cd24fb0d6963f7d28e17f72".
Proof. vm_compute. reflexivity. Qed.

Example sha256_abc :
  join "" (map byte_hex (Digest.sha256 (bytes_of_string "abc")))
  = "ba7816bf8f01cfea414140de5dae2223b00361a396177a9cb410ff61f20015ad".
Proof. vm_compute. reflexivity. Qed.

Example md5_two_blocks :
  join "" (map byte_hex (Digest.md5 (bytes_of_string
    "12345678901234567890123456789012345678901234567890123456789012345678901234567890")))
  = "57edf4a22be3c955ac49da2e2107b67a".
Proof. vm_compute. reflexivity. Qed.

Example sha1_two_blocks :
  join "" (map byte_hex (Digest.sha1 (bytes_of_string
    "abcdbcdecdefdefgefghfghighijhijkijkljklmklmnlmnomnopnopq")))
  = "84983e441c3bd26ebaae4aa1f95129e5e54670f1".
Proof. vm_compute. reflexivity. Qed.

Example sha256_two_blocks :
  join "" (map byte_hex (Digest.sha256 (bytes_of_string
    "abcdbcdecdefdefgefghfghighijhijkijkljklmklmnlmnomnopnopq")))
  = "248d6a61d20638b8e5c026930c3e6039a33ce45964ff2167f6ecedd419db06c1".
Proof. vm_compute. reflexivity. Qed.

Lemma universal_checksum `{Host} (file : File) (checksum md5 : string)
      (entropy : float) (isEncrypted hasMetadata : bool)
      (metadata : ExtendedMetadata) :
  universal_fields file checksum md5 entropy isEncrypted hasMetadata metadata
    !! "checksum" = Some (VString checksum).
Proof.
  unfold universal_fields.
  rewrite !lookup_insert_ne by discriminate. apply lookup_insert_eq.
Qed.

Lemma universal_md5 `{Host} (file : File) (checksum md5 : string)
      (entropy : float) (isEncrypted hasMetadata : bool)
      (metadata : ExtendedMetadata) :
  universal_fields file checksum md5 entropy isEncrypted hasMetadata metadata
    !! "md5" = Some (VString md5).
Proof.
  unfold universal_fields.
  rewrite !lookup_insert_ne by discriminate. apply lookup_insert_eq.
Qed.

Lemma byte_hex_digits (b : byte) :
  exists high low,
    byte_hex b = String high (String low EmptyString)
    /\ is_lower_hex high = true /\ is_lower_hex low = true.
Proof. destruct b; vm_compute; eexists _, _; repeat split. Qed.

Lemma append_cons (c : ascii) (s t : string) :
  (String c s ++ t)%string = String c (s ++ t)%string.
Proof. reflexivity. Qed.

Lemma append_empty (s : string) : (s ++ "")%string = s.
Proof.
  induction s as [|c s IH]; [reflexivity|].
  rewrite append_cons, IH. reflexivity.
Qed.

Lemma join_empty_cons (part : string) (parts : list string) :
  join "" (part :: parts) = (part ++ join "" parts)%string.
Proof.
  unfold join. destruct parts as [|next parts].
  - simpl. symmetry. apply append_empty.
  - reflexivity.
Qed.

Lemma hex_rendering (digest : list byte) :
  lowercase_hex (join "" (map byte_hex digest))
  /\ String.length (join "" (map byte_hex digest)) = (2 * List.length digest)%nat.
Proof.
  induction digest as [|b digest [IHhex IHlen]].
  - split; [constructor | reflexivity].
  - cbn [map]. rewrite join_empty_cons.
    destruct (byte_hex_digits b) as (high & low & -> & Hhigh & Hlow).
    rewrite !append_cons. change ("" ++ join "" (map byte_hex digest))%string
      with (join "" (map byte_hex digest)).
    split.
    + unfold lowercase_hex. cbn [list_ascii_of_string].
      constructor; [assumption|]. constructor; assumption.
    + cbn [String.length]. rewrite IHlen. cbn [List.length]. lia.
Qed.

Lemma checksum_of_readable `{Host} (file : File) (algorithm : string)
      (buffer : list byte) :
  content file = Some buffer ->
  algorithm <> "MD5" ->
  calculateChecksum file algorithm
  = resolve (match subtle_digest algorithm buffer with
             | Some digest => join "" (map byte_hex digest)
             | None => ""
             end).
Proof.
  intros Hread Halg. unfold calculateChecksum, File_arrayBuffer.
  rewrite Hread. cbn [await].
  apply String.eqb_neq in Halg. rewrite Halg.
  destruct (subtle_digest algorithm buffer); reflexivity.
Qed.

(** C6. The SHA-256 digest of a file is a function of its bytes alone: two
    files with the same bytes, whatever their names, MIME types and
    timestamps, get the same checksum, from [calculateChecksum] and in the
    record [extractMetadata] returns; it is the host's SHA-256 of the whole
    buffer, rendered as two lowercase hexadecimal digits per byte. *)
Theorem sha256_checksum_content_addressed `{Host} (file other : File) :
  content file = content other ->
  calculateChecksum file "SHA-256" = calculateChecksum other "SHA-256"
  /\ (forall record record',
        extractMetadata file = Some record ->
        extractMetadata other = Some record' ->
        record !! "checksum" = record' !! "checksum")
  /\ (forall buffer digest,
        content file = Some buffer ->
        subtle_digest "SHA-256" buffer = Some digest ->
        calculateChecksum file "SHA-256" = resolve (join "" (map byte_hex digest))
        /\ String.length (join "" (map byte_hex digest))
           = (2 * List.length digest)%nat)
  /\ (forall hex, calculateChecksum file "SHA-256" = Some hex -> lowercase_hex hex).
Proof.
  intros Hsame.
  assert (Heq : calculateChecksum file "SHA-256" = calculateChecksum other "SHA-256").
  { unfold calculateChecksum, File_arrayBuffer. rewrite Hsame. reflexivity. }
  split; [exact Heq|]. split; [|split].
  - intros record record' Hrec Hrec'.
    destruct (extractMetadata_stages file)
      as (s1 & m1 & c1 & d1 & e1 & x1 & h1 & _ & _ & Hc1 & _ & _ & _ & _ & E1).
    destruct (extractMetadata_stages other)
      as (s2 & m2 & c2 & d2 & e2 & x2 & h2 & _ & _ & Hc2 & _ & _ & _ & _ & E2).
    rewrite E1 in Hrec. rewrite E2 in Hrec'.
    injection Hrec as <-. injection Hrec' as <-.
    rewrite !universal_checksum. rewrite Heq, Hc2 in Hc1. congruence.
  - intros buffer digest Hread Hdigest.
    rewrite (checksum_of_readable file "SHA-256" buffer Hread) by discriminate.
    rewrite Hdigest. split; [reflexivity | apply hex_rendering].
  - intros hex Hhex. unfold calculateChecksum, File_arrayBuffer in Hhex.
    destruct (content file) as [buffer|]; cbn in Hhex.
    + destruct (subtle_digest "SHA-256" buffer) as [digest|]; cbn in Hhex;
        injection Hhex as <-; [apply hex_rendering | constructor].
    + injection Hhex as <-. constructor.
Qed.

Lemma sha256_checksum_content_addressed_witness :
  @calculateChecksum headless abc_file "SHA-256"
  = @calculateChecksum headless
      (mkFile "renamed.txt" "text/plain" 3 1700000000000
              (Some (bytes_of_string "abc"))) "SHA-256"
  /\ @calculateChecksum headless abc_file "SHA-256"
     = Some "ba7816bf8f01cfea414140de5dae2223b00361a396177a9cb410ff61f20015ad".
Proof.
  split.
  - apply (sha256_checksum_content_addressed abc_file
             (mkFile "renamed.txt" "text/plain" 3 1700000000000
                     (Some (bytes_of_string "abc")))).
    reflexivity.
  - vm_compute. reflexivity.
Defined.

(** C1 (the code departs from it).  Whatever the host, the digest computed
    under the name MD5 is the one computed under the name SHA-1; the host is
    never asked for an MD5.  On the three bytes "abc" the record's [md5] is
    the 40 digits of SHA-1, not the 32 digits of the MD5 of "abc". *)
Theorem md5_field_is_sha1 :
  (forall (host : Host) (file : File),
     calculateChecksum file "MD5" = calculateChecksum file "SHA-1")
  /\ (forall (host : Host) (file : File) (record : ExtendedMetadata),
        extractMetadata file = Some record ->
        exists hex, calculateChecksum file "SHA-1" = Some hex
                    /\ record !! "md5" = Some (VString hex))
  /\ (exists record,
        @extractMetadata headless abc_file = Some record
        /\ record !! "md5"
           = Some (VString "a9993e364706816aba3e25717850c26c9cd0d89d"))
  /\ join "" (map byte_hex (Digest.md5 (bytes_of_string "abc")))
     = "900150983cd24fb0d6963f7d28e17f72".
Proof.
  assert (Hsame : forall (host : Host) (file : File),
             calculateChecksum file "MD5" = calculateChecksum file "SHA-1").
  { intros host file. reflexivity. }
  assert (Hfield : forall (host : Host) (file : File) (record : ExtendedMetadata),
             extractMetadata file = Some record ->
             exists hex, calculateChecksum file "SHA-1" = Some hex
                         /\ record !! "md5" = Some (VString hex)).
  { intros host file record Hrec.
    destruct (extractMetadata_stages file)
      as (s1 & m1 & c1 & d1 & e1 & x1 & h1 & _ & _ & _ & Hd1 & _ & _ & _ & E1).
    rewrite E1 in Hrec. injection Hrec as <-.
    exists d1. split; [rewrite <- Hsame; exact Hd1 | apply universal_md5]. }
  split; [exact Hsame|]. split; [exact Hfield|]. split.
  - destruct (@extractMetadata_stages headless abc_file)
      as (s1 & m1 & c1 & d1 & e1 & x1 & h1 & _ & _ & _ & Hd1 & _ & _ & _ & E1).
    eexists. split; [exact E1|].
    rewrite universal_md5. f_equal. f_equal.
    assert (Hval : @calculateChecksum headless abc_file "MD5"
                   = Some "a9993e364706816aba3e25717850c26c9cd0d89d")
      by (vm_compute; reflexivity).
    congruence.
  - vm_compute. reflexivity.
Qed.

(** ** Provenance of the properties of a record *)

Ltac split_insert H :=
  repeat (apply lookup_insert_is_Some' in H; destruct H as [H|H]).

Section Provenance.
Context `{Host}.

Lemma set_exif_effect (file : File) (tags : ExifTags)
      (metadata : ExtendedMetadata) (key : string) :
  (tags = no_tags \/ EXIF_getAllTags file = Some tags) ->
  is_Some (set_exif_fields tags metadata !! key) ->
  is_Some (metadata !! key) \/ stage_succeeded ImageExtractor file key.
Proof.
  intros Hsrc Hkey.
  assert (Hread : tags <> no_tags -> EXIF_getAllTags file = Some tags).
  { intros Hne. destruct Hsrc; [contradiction | assumption]. }
  unfold set_exif_fields in Hkey.
  destruct tags as [xr yr ar de sw n].
  cbn [XResolution YResolution Artist ImageDescription Software] in Hkey.
  cbn [stage_succeeded]. unfold text_tag_read.
  assert (Hxy : forall x y, xr = Some x -> yr = Some y ->
                  exists tags x y, EXIF_getAllTags file = Some tags
                                   /\ XResolution tags = Some x
                                   /\ YResolution tags = Some y).
  { intros x y -> ->. eexists _, x, y.
    split; [apply Hread; discriminate | split; reflexivity]. }
  assert (Har : forall a, ar = Some a -> a <> "" ->
                  exists tags text, EXIF_getAllTags file = Some tags
                                    /\ Artist tags = Some text /\ text <> "").
  { intros a -> Ha. eexists _, a.
    split; [apply Hread; discriminate | split; [reflexivity | exact Ha]]. }
  assert (Hde : forall a, de = Some a -> a <> "" ->
                  exists tags text, EXIF_getAllTags file = Some tags
                                    /\ ImageDescription tags = Some text /\ text <> "").
  { intros a -> Ha. eexists _, a.
    split; [apply Hread; discriminate | split; [reflexivity | exact Ha]]. }
  assert (Hsw : forall a, sw = Some a -> a <> "" ->
                  exists tags text, EXIF_getAllTags file = Some tags
                                    /\ Software tags = Some text /\ text <> "").
  { intros a -> Ha. eexists _, a.
    split; [apply Hread; discriminate | split; [reflexivity | exact Ha]]. }
  clear Hsrc Hread.
  destruct sw as [[|c1 s1]|]; cbn [truthy_text] in Hkey;
    [ | apply lookup_insert_is_Some' in Hkey; destruct Hkey as [<-|Hkey];
        [right; do 5 right; left; split; [reflexivity|]; eapply Hsw; [reflexivity|discriminate] | ]
      | ];
  (destruct de as [[|c2 s2]|]; cbn [truthy_text] in Hkey;
    [ | apply lookup_insert_is_Some' in Hkey; destruct Hkey as [<-|Hkey];
        [right; do 4 right; left; split; [reflexivity|]; eapply Hde; [reflexivity|discriminate] | ]
      | ]);
  (destruct ar as [[|c3 s3]|]; cbn [truthy_text] in Hkey;
    [ | apply lookup_insert_is_Some' in Hkey; destruct Hkey as [<-|Hkey];
        [right; do 3 right; left; split; [reflexivity|]; eapply Har; [reflexivity|discriminate] | ]
      | ]);
  (destruct xr as [x|], yr as [y|];
    [ apply lookup_insert_is_Some' in Hkey; destruct Hkey as [<-|Hkey];
        [right; do 2 right; left; split; [reflexivity|]; eapply Hxy; reflexivity | ]
      | | | ]);
  (apply lookup_insert_is_Some' in Hkey; destruct Hkey as [<-|Hkey];
    [right; right; left; reflexivity | left; exact Hkey]).
Qed.

Lemma image_effect (file : File) (metadata metadata' : ExtendedMetadata)
      (key : string) :
  extractImageMetadata file metadata = Some metadata' ->
  is_Some (metadata' !! key) ->
  is_Some (metadata !! key) \/ stage_succeeded ImageExtractor file key.
Proof.
  intros Heq Hkey.
  unfold extractImageMetadata, getImageDimensions, getExifData in Heq.
  assert (Htags : match EXIF_getAllTags file with
                  | Some exifData => exifData
                  | None => no_tags
                  end = no_tags
                  \/ EXIF_getAllTags file
                     = Some match EXIF_getAllTags file with
                            | Some exifData => exifData
                            | None => no_tags
                            end).
  { destruct (EXIF_getAllTags file); [right | left]; reflexivity. }
  destruct (Image_load file) as [dimensions|] eqn:Hload;
    destruct (Canvas_getImageData file) as [[data|]|] eqn:Hcanvas;
    cbn [await resolve try_catch] in Heq; injection Heq as <-;
    repeat (apply lookup_insert_is_Some' in Hkey;
            destruct Hkey as [<-|Hkey];
            [right; cbn [stage_succeeded]; do 6 right;
             split; [cbn; auto | eexists; exact Hcanvas] | ]);
    apply (set_exif_effect file _ _ _ Htags) in Hkey;
    (destruct Hkey as [Hkey|Hkey]; [|right; exact Hkey]);
    repeat (apply lookup_insert_is_Some' in Hkey;
            destruct Hkey as [<-|Hkey];
            [right; cbn [stage_succeeded]; left;
             split; [cbn; auto | eexists; exact Hload] | ]);
    left; exact Hkey.
Qed.

Lemma media_effect (file : File) (metadata metadata' : ExtendedMetadata)
      (key : string) :
  extractMediaMetadata file metadata = Some metadata' ->
  is_Some (metadata' !! key) ->
  is_Some (metadata !! key) \/ stage_succeeded MediaExtractor file key.
Proof.
  intros Heq Hkey. unfold extractMediaMetadata in Heq.
  destruct (Media_load file) as [element|] eqn:Hload;
    cbn [await resolve try_catch] in Heq; injection Heq as <-;
    [|left; exact Hkey].
  cbn [stage_succeeded].
  destruct (0 <? media_duration element)%float eqn:Hrate;
    destruct (startsWith (type file) "video/" && (0 <? videoWidth element)) eqn:Hvideo;
    try (apply andb_true_iff in Hvideo as [Hprefix Hwidth];
         apply startsWith_spec in Hprefix; apply Z.ltb_lt in Hwidth);
    repeat (apply lookup_insert_is_Some' in Hkey;
            destruct Hkey as [<-|Hkey];
            [right; exists element; split; [exact Hload|]; cbn; auto 10 | ]);
    left; exact Hkey.
Qed.

Lemma pdf_info_effect (buffer : list byte) (info : string)
      (metadata : ExtendedMetadata) (key : string) :
  capture "/Info" "<<" ">" ">>" (TextDecoder_latin1 buffer) = Some info ->
  is_Some (set_pdf_info info metadata !! key) ->
  is_Some (metadata !! key)
  \/ (key = "subject" /\ pdf_entry_found buffer "/Title")
  \/ (key = "creator" /\ pdf_entry_found buffer "/Author")
  \/ (key = "keywords" /\ pdf_entry_found buffer "/Keywords").
Proof.
  intros Hinfo Hkey. unfold set_pdf_info in Hkey. unfold pdf_entry_found.
  destruct (capture "/Keywords" "(" ")" ")" info) as [keywords|] eqn:Hk;
    destruct (capture "/Author" "(" ")" ")" info) as [author|] eqn:Ha;
    destruct (capture "/Title" "(" ")" ")" info) as [title|] eqn:Ht;
    repeat (apply lookup_insert_is_Some' in Hkey;
            destruct Hkey as [<-|Hkey]; [right; eauto 10 | ]);
    left; exact Hkey.
Qed.

Lemma pdf_effect (file : File) (metadata metadata' : ExtendedMetadata)
      (key : string) :
  extractPDFMetadata file metadata = Some metadata' ->
  is_Some (metadata' !! key) ->
  is_Some (metadata !! key) \/ stage_succeeded DocumentExtractor file key.
Proof.
  intros Heq Hkey. unfold extractPDFMetadata, File_arrayBuffer in Heq.
  destruct (content file) as [buffer|] eqn:Hread;
    cbn [await resolve try_catch] in Heq; injection Heq as <-;
    [|left; exact Hkey].
  cbn [stage_succeeded].
  apply lookup_insert_is_Some' in Hkey. destruct Hkey as [<-|Hkey];
    [right; exists buffer; split; [exact Hread | left; cbn; auto] |].
  apply lookup_insert_is_Some' in Hkey. destruct Hkey as [<-|Hkey];
    [right; exists buffer; split; [exact Hread | left; cbn; auto] |].
  destruct (0 <? count_page_markers 0 (TextDecoder_latin1 buffer)) eqn:Hpages.
  - apply Z.ltb_lt in Hpages.
    apply lookup_insert_is_Some' in Hkey. destruct Hkey as [<-|Hkey];
      [right; exists buffer; split; [exact Hread | right; left; auto] |].
    destruct (capture "/Info" "<<" ">" ">>" (TextDecoder_latin1 buffer))
      as [info|] eqn:Hinfo; [|left; exact Hkey].
    apply (pdf_info_effect buffer info _ _ Hinfo) in Hkey.
    destruct Hkey as [Hkey|Hkey]; [left; exact Hkey|].
    right. exists buffer. split; [exact Hread|]. tauto.
  - destruct (capture "/Info" "<<" ">" ">>" (TextDecoder_latin1 buffer))
      as [info|] eqn:Hinfo; [|left; exact Hkey].
    apply (pdf_info_effect buffer info _ _ Hinfo) in Hkey.
    destruct Hkey as [Hkey|Hkey]; [left; exact Hkey|].
    right. exists buffer. split; [exact Hread|]. tauto.
Qed.

Lemma text_effect (file : File) (metadata metadata' : ExtendedMetadata)
      (key : string) :
  extractTextMetadata file metadata = Some metadata' ->
  is_Some (metadata' !! key) ->
  is_Some (metadata !! key) \/ stage_succeeded TextExtractor file key.
Proof.
  intros Heq Hkey. unfold extractTextMetadata, File_text in Heq.
  destruct (content file) as [buffer|] eqn:Hread;
    cbn [await resolve try_catch] in Heq; injection Heq as <-;
    [|left; exact Hkey].
  cbn [stage_succeeded].
  repeat (apply lookup_insert_is_Some' in Hkey;
          destruct Hkey as [<-|Hkey];
          [right; exists buffer; split; [exact Hread | cbn; auto 10] | ]).
  left; exact Hkey.
Qed.

Lemma archive_effect (file : File) (metadata metadata' : ExtendedMetadata)
      (key : string) :
  extractArchiveMetadata file metadata = Some metadata' ->
  is_Some (metadata' !! key) ->
  is_Some (metadata !! key) \/ stage_succeeded ArchiveExtractor file key.
Proof.
  intros Heq Hkey.
  unfold extractArchiveMetadata, compression_ratio, File_arrayBuffer in Heq.
  destruct (content file) as [buffer|] eqn:Hread;
    cbn [await resolve try_catch] in Heq; [|injection Heq as <-; left; exact Hkey].
  destruct (getUint32 buffer 0) as [signature|] eqn:Hsig;
    cbn [await resolve try_catch] in Heq; [|injection Heq as <-; left; exact Hkey].
  destruct (signature =? ZIP_MAGIC)%N eqn:Hmagic;
    cbn [await resolve try_catch] in Heq; [|injection Heq as <-; left; exact Hkey].
  apply N.eqb_eq in Hmagic. subst signature.
  destruct (zip_walk buffer 0 0) as [total|] eqn:Hwalk;
    cbn [await resolve try_catch] in Heq; [|injection Heq as <-; left; exact Hkey].
  destruct (0 <? total) eqn:Hpos;
    cbn [await resolve try_catch] in Heq; injection Heq as <-; [|left; exact Hkey].
  apply Z.ltb_lt in Hpos.
  apply lookup_insert_is_Some' in Hkey. destruct Hkey as [<-|Hkey];
    [|left; exact Hkey].
  right. cbn [stage_succeeded]. split; [reflexivity|].
  exists buffer, total. auto.
Qed.

Lemma run_extractor_effect (extractor : option Extractor) (file : File)
      (metadata metadata' : ExtendedMetadata) (key : string) :
  run_extractor extractor file metadata = Some metadata' ->
  is_Some (metadata' !! key) ->
  is_Some (metadata !! key)
  \/ exists selected, extractor = Some selected /\ stage_succeeded selected file key.
Proof.
  intros Heq Hkey.
  destruct extractor as [[]|]; cbn [run_extractor] in Heq.
  - destruct (image_effect _ _ _ _ Heq Hkey); eauto.
  - destruct (media_effect _ _ _ _ Heq Hkey); eauto.
  - destruct (pdf_effect _ _ _ _ Heq Hkey); eauto.
  - destruct (text_effect _ _ _ _ Heq Hkey); eauto.
  - destruct (archive_effect _ _ _ _ Heq Hkey); eauto.
  - injection Heq as <-. left. exact Hkey.
Qed.

Ltac kept := repeat (apply lookup_insert_is_Some'; right); assumption.

Lemma set_exif_keeps (tags : ExifTags) (metadata : ExtendedMetadata) (key : string) :
  is_Some (metadata !! key) -> is_Some (set_exif_fields tags metadata !! key).
Proof.
  intros Hkey. unfold set_exif_fields.
  destruct tags as [[x|] [y|] [[|c1 s1]|] [[|c2 s2]|] [[|c3 s3]|] n];
    cbn [XResolution YResolution Artist ImageDescription Software truthy_text];
    kept.
Qed.

Lemma set_pdf_info_keeps (info : string) (metadata : ExtendedMetadata)
      (key : string) :
  is_Some (metadata !! key) -> is_Some (set_pdf_info info metadata !! key).
Proof.
  intros Hkey. unfold set_pdf_info.
  destruct (capture "/Keywords" "(" ")" ")" info);
    destruct (capture "/Author" "(" ")" ")" info);
    destruct (capture "/Title" "(" ")" ")" info); kept.
Qed.

(** The extractors only add properties. *)
Lemma run_extractor_keeps (extractor : option Extractor) (file : File)
      (metadata metadata' : ExtendedMetadata) (key : string) :
  run_extractor extractor file metadata = Some metadata' ->
  is_Some (metadata !! key) -> is_Some (metadata' !! key).
Proof.
  intros Heq Hkey.
  destruct extractor as [[]|]; cbn [run_extractor] in Heq.
  - unfold extractImageMetadata, getImageDimensions, getExifData in Heq.
    destruct (Image_load file) as [dimensions|];
      destruct (Canvas_getImageData file) as [[data|]|];
      cbn [await resolve try_catch] in Heq; injection Heq as <-;
      repeat (apply lookup_insert_is_Some'; right);
      apply set_exif_keeps; kept.
  - unfold extractMediaMetadata in Heq.
    destruct (Media_load file) as [element|];
      cbn [await resolve try_catch] in Heq; injection Heq as <-;
      [|assumption].
    destruct (0 <? media_duration element)%float;
      destruct (startsWith (type file) "video/" && (0 <? videoWidth element));
      kept.
  - unfold extractPDFMetadata, File_arrayBuffer in Heq.
    destruct (content file) as [buffer|];
      cbn [await resolve try_catch] in Heq; injection Heq as <-;
      [|assumption].
    do 2 (apply lookup_insert_is_Some'; right).
    destruct (0 <? count_page_markers 0 (TextDecoder_latin1 buffer));
      destruct (capture "/Info" "<<" ">" ">>" (TextDecoder_latin1 buffer));
      repeat (apply lookup_insert_is_Some'; right);
      try apply set_pdf_info_keeps; assumption.
  - unfold extractTextMetadata, File_text in Heq.
    destruct (content file) as [buffer|];
      cbn [await resolve try_catch] in Heq; injection Heq as <-; kept.
  - unfold extractArchiveMetadata in Heq.
    destruct (compression_ratio file) as [[ratio|]|];
      cbn [await resolve try_catch] in Heq; injection Heq as <-; kept.
  - injection Heq as <-. assumption.
Qed.

(** Every property of an assembled record is an identity property, one of
    the universal analyzers, or one whose extractor was selected and whose
    stage succeeded. *)
Lemma record_provenance (file : File) (record : ExtendedMetadata) (key : string) :
  extractMetadata file = Some record ->
  is_Some (record !! key) ->
  In key identity_keys \/ In key universal_keys
  \/ exists selected, classify file = Some selected
                      /\ stage_succeeded selected file key.
Proof.
  intros Hrec Hkey.
  destruct (extractMetadata_stages file)
    as (sig & formatted & c & d & e & x & h & _ & Hfmt & _ & _ & _ & _ & _ & E).
  rewrite E in Hrec. injection Hrec as <-.
  unfold universal_fields in Hkey.
  repeat (apply lookup_insert_is_Some' in Hkey;
          destruct Hkey as [<-|Hkey]; [right; left; cbn; auto 10 | ]).
  destruct (run_extractor_effect _ _ _ _ _ Hfmt Hkey) as [Hkey'|Hstage];
    [|right; right; exact Hstage].
  apply lookup_insert_is_Some' in Hkey'.
  destruct Hkey' as [<-|Hkey']; [right; left; cbn; auto 10 |].
  unfold initial_metadata in Hkey'.
  repeat (apply lookup_insert_is_Some' in Hkey';
          destruct Hkey' as [<-|Hkey']; [left; cbn; auto 10 | ]).
  exfalso. exact (lookup_empty_is_Some _ Hkey').
Qed.

(** The identity and universal properties are in every record. *)
Lemma universal_keys_present (file : File) (record : ExtendedMetadata)
      (key : string) :
  extractMetadata file = Some record ->
  In key (identity_keys ++ universal_keys) ->
  is_Some (record !! key).
Proof.
  intros Hrec Hkey.
  destruct (extractMetadata_stages file)
    as (sig & formatted & c & d & e & x & h & _ & Hfmt & _ & _ & _ & _ & _ & E).
  rewrite E in Hrec. injection Hrec as <-.
  unfold universal_fields.
  assert (Hbase : forall k, is_Some (<["fileSignature" := VString sig]>
                                     (initial_metadata file) !! k) ->
                            is_Some (formatted !! k)).
  { intros k Hk. exact (run_extractor_keeps _ _ _ _ k Hfmt Hk). }
  cbn in Hkey.
  repeat (destruct Hkey as [<-|Hkey];
          [repeat (first [ rewrite lookup_insert_eq; eauto
                         | rewrite lookup_insert_ne by discriminate ]);
           try (apply Hbase; unfold initial_metadata;
                repeat (first [ rewrite lookup_insert_eq; eauto
                              | rewrite lookup_insert_ne by discriminate ])) | ]).
  contradiction.
Qed.

Ltac framed :=
  repeat (rewrite lookup_insert_ne by discriminate); try reflexivity.

Lemma set_exif_frame (tags : ExifTags) (metadata : ExtendedMetadata) (key : string) :
  In key (identity_keys ++ ["fileSignature"]) ->
  set_exif_fields tags metadata !! key = metadata !! key.
Proof.
  intros Hkey. unfold set_exif_fields.
  destruct tags as [[x|] [y|] [[|c1 s1]|] [[|c2 s2]|] [[|c3 s3]|] n];
    cbn [XResolution YResolution Artist ImageDescription Software truthy_text];
    cbn in Hkey; intuition (subst; framed).
Qed.

Lemma set_pdf_info_frame (info : string) (metadata : ExtendedMetadata)
      (key : string) :
  In key (identity_keys ++ ["fileSignature"]) ->
  set_pdf_info info metadata !! key = metadata !! key.
Proof.
  intros Hkey. unfold set_pdf_info.
  destruct (capture "/Keywords" "(" ")" ")" info);
    destruct (capture "/Author" "(" ")" ")" info);
    destruct (capture "/Title" "(" ")" ")" info);
    cbn in Hkey; intuition (subst; framed).
Qed.

(** The extractors leave the identity properties and the signature as they
    found them. *)
Lemma run_extractor_frame (extractor : option Extractor) (file : File)
      (metadata metadata' : ExtendedMetadata) (key : string) :
  run_extractor extractor file metadata = Some metadata' ->
  In key (identity_keys ++ ["fileSignature"]) ->
  metadata' !! key = metadata !! key.
Proof.
  intros Heq Hkey.
  destruct extractor as [[]|]; cbn [run_extractor] in Heq.
  - unfold extractImageMetadata, getImageDimensions, getExifData in Heq.
    destruct (Image_load file) as [dimensions|];
      destruct (Canvas_getImageData file) as [[data|]|];
      cbn [await resolve try_catch] in Heq; injection Heq as <-;
      transitivity (set_exif_fields
                      match EXIF_getAllTags file with
                      | Some exifData => exifData
                      | None => no_tags
                      end metadata !! key);
      try (rewrite (set_exif_frame _ metadata key Hkey); reflexivity);
      try (cbn in Hkey; intuition (subst; framed));
      rewrite !set_exif_frame by (cbn; auto 10); framed.
  - unfold extractMediaMetadata in Heq.
    destruct (Media_load file) as [element|];
      cbn [await resolve try_catch] in Heq; injection Heq as <-;
      [|reflexivity].
    destruct (0 <? media_duration element)%float;
      destruct (startsWith (type file) "video/" && (0 <? videoWidth element));
      cbn in Hkey; intuition (subst; framed).
  - unfold extractPDFMetadata, File_arrayBuffer in Heq.
    destruct (content file) as [buffer|];
      cbn [await resolve try_catch] in Heq; injection Heq as <-;
      [|reflexivity].
    transitivity (match capture "/Info" "<<" ">" ">>" (TextDecoder_latin1 buffer) with
                  | Some info => set_pdf_info info metadata
                  | None => metadata
                  end !! key).
    + destruct (0 <? count_page_markers 0 (TextDecoder_latin1 buffer));
        cbn in Hkey; intuition (subst; framed).
    + destruct (capture "/Info" "<<" ">" ">>" (TextDecoder_latin1 buffer));
        [apply set_pdf_info_frame; exact Hkey | reflexivity].
  - unfold extractTextMetadata, File_text in Heq.
    destruct (content file) as [buffer|];
      cbn [await resolve try_catch] in Heq; injection Heq as <-;
      cbn in Hkey; intuition (subst; framed).
  - unfold extractArchiveMetadata in Heq.
    destruct (compression_ratio file) as [[ratio|]|];
      cbn [await resolve try_catch] in Heq; injection Heq as <-;
      cbn in Hkey; intuition (subst; framed).
  - injection Heq as <-. reflexivity.
Qed.

End Provenance.

(** ** What an unreadable file yields *)

Section Unreadable.
Context `{Host}.
Variable file : File.
Hypothesis unreadable : content file = None.

Lemma unreadable_signature : getFileSignature file = Some "".
Proof. unfold getFileSignature, File_slice_arrayBuffer. now rewrite unreadable. Qed.

Lemma unreadable_checksum (algorithm : string) :
  calculateChecksum file algorithm = Some "".
Proof. unfold calculateChecksum, File_arrayBuffer. now rewrite unreadable. Qed.

Lemma unreadable_entropy : calculateEntropy file = Some 0%float.
Proof. unfold calculateEntropy, File_slice_arrayBuffer. now rewrite unreadable. Qed.

Lemma unreadable_encryption : detectEncryption file = Some false.
Proof. unfold detectEncryption, File_slice_arrayBuffer. now rewrite unreadable. Qed.

End Unreadable.

(** A property outside the identity and universal ones is absent unless
    its extractor was selected and its stage succeeded. *)
Lemma absent_unless_earned `{Host} (file : File) (record : ExtendedMetadata)
      (key : string) :
  extractMetadata file = Some record ->
  ~ In key (identity_keys ++ universal_keys) ->
  (forall selected, classify file = Some selected ->
                    ~ stage_succeeded selected file key) ->
  record !! key = None.
Proof.
  intros Hrec Hother Hfailed.
  destruct (record !! key) as [value|] eqn:Hkey; [exfalso | reflexivity].
  assert (Hsome : is_Some (record !! key)) by (rewrite Hkey; eauto).
  destruct (record_provenance file record key Hrec Hsome)
    as [Hid | [Huni | (selected & Hsel & Hstage)]].
  - apply Hother, in_or_app. left. exact Hid.
  - apply Hother, in_or_app. right. exact Huni.
  - exact (Hfailed selected Hsel Hstage).
Qed.

Lemma identity_properties `{Host} (file : File) (record : ExtendedMetadata) :
  extractMetadata file = Some record ->
  record !! "name" = Some (VString (name file))
  /\ record !! "size" = Some (VInteger (size file))
  /\ record !! "type" = Some (VString (type file))
  /\ record !! "lastModified" = Some (VInteger (lastModified file))
  /\ record !! "extension" = Some (VString (getFileExtension (name file)))
  /\ exists signature, getFileSignature file = Some signature
                       /\ record !! "fileSignature" = Some (VString signature).
Proof.
  intros Hrec.
  destruct (extractMetadata_stages file)
    as (sig & formatted & c & d & e & x & h & Hsig & Hfmt & _ & _ & _ & _ & _ & E).
  rewrite E in Hrec. injection Hrec as <-.
  unfold universal_fields.
  repeat split; try (exists sig; split; [exact Hsig|]);
    repeat (rewrite lookup_insert_ne by discriminate);
    rewrite (run_extractor_frame _ _ _ _ _ Hfmt) by (cbn; auto 10);
    unfold initial_metadata;
    repeat (first [ rewrite lookup_insert_eq; reflexivity
                  | rewrite lookup_insert_ne by discriminate ]).
Qed.

Lemma universal_values `{Host} (file : File) (record : ExtendedMetadata) :
  extractMetadata file = Some record ->
  exists checksum md5 entropy isEncrypted hasMetadata,
    calculateChecksum file "SHA-256" = Some checksum
    /\ calculateChecksum file "MD5" = Some md5
    /\ calculateEntropy file = Some entropy
    /\ detectEncryption file = Some isEncrypted
    /\ hasEmbeddedMetadata file = Some hasMetadata
    /\ record !! "checksum" = Some (VString checksum)
    /\ record !! "md5" = Some (VString md5)
    /\ record !! "entropy" = Some (VNumber entropy)
    /\ record !! "isExecutable" = Some (VBoolean (isExecutableFile (name file)))
    /\ record !! "isEncrypted" = Some (VBoolean isEncrypted)
    /\ record !! "hasMetadata" = Some (VBoolean hasMetadata).
Proof.
  intros Hrec.
  destruct (extractMetadata_stages file)
    as (sig & formatted & c & d & e & x & h & _ & _ & Hc & Hd & He & Hx & Hh & E).
  rewrite E in Hrec. injection Hrec as <-.
  exists c, d, e, x, h. unfold universal_fields.
  repeat (split; [assumption|]).
  repeat split;
    repeat (first [ rewrite lookup_insert_eq; reflexivity
                  | rewrite lookup_insert_ne by discriminate ]).
Qed.

(** ** The two claims about the assembled record *)

(** C2, as stated, fails: for a file whose bytes cannot be read the digest,
    entropy, encryption and signature analyzers all fail, yet their
    properties are in the record, holding '', 0 and false. *)
Lemma placeholder_counterexample :
  content unreadable_file = None
  /\ exists record,
       @extractMetadata headless unreadable_file = Some record
       /\ record !! "checksum" = Some (VString "")
       /\ record !! "md5" = Some (VString "")
       /\ record !! "entropy" = Some (VNumber 0%float)
       /\ record !! "isEncrypted" = Some (VBoolean false)
       /\ record !! "hasMetadata" = Some (VBoolean false)
       /\ record !! "fileSignature" = Some (VString "").
Proof.
  split; [reflexivity|].
  destruct (extractMetadata_stages unreadable_file)
    as (sig & formatted & c & d & e & x & h & _ & _ & _ & _ & _ & _ & _ & E).
  eexists. split; [exact E|].
  destruct (universal_values unreadable_file _ E)
    as (c' & d' & e' & x' & h' & Hc & Hd & He & Hx & Hh
        & Rc & Rd & Re & _ & Rx & Rh).
  destruct (identity_properties unreadable_file _ E)
    as (_ & _ & _ & _ & _ & sig' & Hsig' & Rsig).
  rewrite (unreadable_signature unreadable_file eq_refl) in Hsig'.
  rewrite (unreadable_checksum unreadable_file eq_refl) in Hc, Hd.
  rewrite (unreadable_entropy unreadable_file eq_refl) in He.
  rewrite (unreadable_encryption unreadable_file eq_refl) in Hx.
  assert (Hflag : hasEmbeddedMetadata unreadable_file = Some false)
    by (vm_compute; reflexivity).
  rewrite Hflag in Hh.
  injection Hsig' as <-. injection Hc as <-. injection Hd as <-.
  injection He as <-. injection Hx as <-. injection Hh as <-.
  repeat split; assumption.
Qed.

(** C2, amended.  Every file gets a record in which
    - a property other than the identity and the universal ones is present
      only if the extractor that assigns it was selected for the file and
      the stage that assigns it succeeded ([exifData] being assigned for
      every file given to the image extractor, empty when no tag is read);
    - the properties of the universal analyzers are always present: the
      digests hold '' when the bytes cannot be read or the host rejects the
      digest, the entropy 0 and the encryption flag false when the bytes
      cannot be read, the signature '' likewise, and the embedded-metadata
      flag false for a file that is neither an image nor a PDF. *)
Theorem fields_present_only_when_earned `{Host} (file : File) :
  exists record,
    extractMetadata file = Some record
    /\ (forall key, is_Some (record !! key) ->
          In key identity_keys \/ In key universal_keys
          \/ exists selected, classify file = Some selected
                              /\ stage_succeeded selected file key)
    /\ (forall key, In key universal_keys -> is_Some (record !! key))
    /\ (content file = None ->
          record !! "fileSignature" = Some (VString "")
          /\ record !! "checksum" = Some (VString "")
          /\ record !! "md5" = Some (VString "")
          /\ record !! "entropy" = Some (VNumber 0%float)
          /\ record !! "isEncrypted" = Some (VBoolean false))
    /\ (forall buffer, content file = Some buffer ->
          subtle_digest "SHA-256" buffer = None ->
          record !! "checksum" = Some (VString ""))
    /\ (forall buffer, content file = Some buffer ->
          subtle_digest "SHA-1" buffer = None ->
          record !! "md5" = Some (VString ""))
    /\ (~ image_type file -> ~ pdf_type file ->
          record !! "hasMetadata" = Some (VBoolean false)).
Proof.
  destruct (extractMetadata_stages file)
    as (sig & formatted & c & d & e & x & h & Hsig & _ & _ & _ & _ & _ & _ & E).
  eexists. split; [exact E|].
  destruct (universal_values file _ E)
    as (c' & d' & e' & x' & h' & Hc & Hd & He & Hx & Hh
        & Rc & Rd & Re & _ & Rx & Rh).
  destruct (identity_properties file _ E) as (_ & _ & _ & _ & _ & sig' & Hsig' & Rsig).
  split; [|split; [|split; [|split; [|split]]]].
  - intros key. apply (record_provenance file _ key E).
  - intros key Hkey. apply (universal_keys_present file _ key E).
    apply in_or_app. right. exact Hkey.
  - intros Hunread.
    rewrite (unreadable_signature file Hunread) in Hsig'.
    rewrite (unreadable_checksum file Hunread) in Hc, Hd.
    rewrite (unreadable_entropy file Hunread) in He.
    rewrite (unreadable_encryption file Hunread) in Hx.
    injection Hsig' as <-. injection Hc as <-. injection Hd as <-.
    injection He as <-. injection Hx as <-. auto.
  - intros buffer Hread Hdigest.
    rewrite (checksum_of_readable file "SHA-256" buffer Hread) in Hc by discriminate.
    rewrite Hdigest in Hc. injection Hc as <-. exact Rc.
  - intros buffer Hread Hdigest.
    unfold calculateChecksum, File_arrayBuffer in Hd. rewrite Hread in Hd.
    cbn [await] in Hd. rewrite String.eqb_refl, Hdigest in Hd.
    injection Hd as <-. exact Rd.
  - intros Hnot_image Hnot_pdf.
    unfold hasEmbeddedMetadata in Hh.
    destruct (startsWith (type file) "image/") eqn:Himg;
      [apply startsWith_spec in Himg; contradiction|].
    destruct (type file =? "application/pdf")%string eqn:Hpdf;
      [apply String.eqb_eq in Hpdf; contradiction|].
    cbn in Hh. injection Hh as <-. exact Rh.
Qed.

Lemma fields_present_only_when_earned_witness :
  content unreadable_file = None
  /\ exists record,
       @extractMetadata headless unreadable_file = Some record
       /\ record !! "entropy" = Some (VNumber 0%float)
       /\ record !! "hasMetadata" = Some (VBoolean false).
Proof.
  split; [reflexivity|].
  destruct (@fields_present_only_when_earned headless unreadable_file)
    as (record & Hrec & _ & _ & Hunread & _ & _ & Hflag).
  exists record. split; [exact Hrec|]. split.
  - apply Hunread. reflexivity.
  - apply Hflag.
    + intros Himage. apply startsWith_spec in Himage. discriminate Himage.
    + discriminate.
Defined.


(** C3, as stated, fails: the bytes of the file cannot be read and the
    promise of [extractMetadata] still settles and fulfils with a record. *)
Lemma unreadable_input_counterexample :
  content unreadable_file = None
  /\ @extractMetadata headless unreadable_file <> None
  /\ exists record,
       @Eventual.extractMetadata headless unreadable_file = Settles (Some record).
Proof.
  destruct (extractMetadata_stages unreadable_file)
    as (sig & formatted & c & d & e & x & h & _ & _ & _ & _ & _ & _ & _ & E).
  split; [reflexivity|]. split; [rewrite E; discriminate|].
  eexists. rewrite extractMetadata_fate, E. reflexivity.
Qed.

Ltac impossible_stage Hstage :=
  cbn in Hstage; decompose [or and ex] Hstage;
  first [ discriminate
        | contradiction
        | match goal with Hs : is_Some None |- _ => destruct Hs; discriminate end ].

Ltac not_listed :=
  let Hin := fresh in
  cbn; intros Hin;
  repeat (destruct Hin as [Hin|Hin]; [discriminate Hin|]); exact Hin.

Lemma short_buffer_has_no_magic (buffer : list byte) :
  byteLength buffer < 4 -> getUint32 buffer 0 = None.
Proof.
  unfold byteLength.
  destruct buffer as [|b0 [|b1 [|b2 [|b3 rest]]]]; cbn [List.length];
    try reflexivity; lia.
Qed.

(** C3, amended.  [extractMetadata] never surfaces a failure: for every
    file, readable or not, and every host, its promise does not reject.
    It stays pending, and nothing is returned, exactly when the file has
    an image type and the EXIF library never calls back; in every other
    case it fulfils with a record that carries the identity properties of
    the file and all universal properties.  What fails inside is caught
    where it happens and leaves its properties absent: after a
    classification miss the record has the identity and universal
    properties only; an image that does not decode has no dimensions and
    no aspect ratio, one that cannot be sampled no alpha flag and no
    colour depth; a media file that does not load in time has no
    duration, bitrate, dimensions or aspect ratio; bytes that cannot be
    read give no count, encoding, language or compression ratio; a file
    too short to hold the magic number of an archive gives no compression
    ratio, and a PDF without an Info dictionary no subject, creator or
    keywords. *)
Theorem extraction_never_rejects `{Host} (file : File) :
  Eventual.extractMetadata file <> Settles None
  /\ (Eventual.extractMetadata file = Pends
      <-> image_type file /\ EXIF_calls_back file = false)
  /\ exists record,
       extractMetadata file = Some record
       /\ (Eventual.extractMetadata file = Pends
           \/ Eventual.extractMetadata file = Settles (Some record))
       /\ (record !! "name" = Some (VString (name file))
           /\ record !! "size" = Some (VInteger (size file))
           /\ record !! "type" = Some (VString (type file))
           /\ record !! "lastModified" = Some (VInteger (lastModified file))
           /\ record !! "extension" = Some (VString (getFileExtension (name file))))
       /\ (forall key, In key universal_keys -> is_Some (record !! key))
       /\ (classify file = None ->
             forall key, is_Some (record !! key) ->
                         In key (identity_keys ++ universal_keys))
       /\ (classify file = Some ImageExtractor -> Image_load file = None ->
             record !! "dimensions" = None /\ record !! "aspectRatio" = None)
       /\ (classify file = Some ImageExtractor -> Canvas_getImageData file = None ->
             record !! "hasAlpha" = None /\ record !! "colorDepth" = None)
       /\ (classify file = Some MediaExtractor -> Media_load file = None ->
             record !! "duration" = None /\ record !! "bitrate" = None
             /\ record !! "dimensions" = None /\ record !! "aspectRatio" = None)
       /\ (content file = None ->
             record !! "wordCount" = None /\ record !! "characterCount" = None
             /\ record !! "lineCount" = None /\ record !! "pageCount" = None
             /\ record !! "encoding" = None /\ record !! "language" = None
             /\ record !! "compressionRatio" = None)
       /\ (forall buffer, content file = Some buffer -> byteLength buffer < 4 ->
             record !! "compressionRatio" = None)
       /\ (forall buffer, content file = Some buffer ->
             classify file = Some DocumentExtractor ->
             capture "/Info" "<<" ">" ">>" (TextDecoder_latin1 buffer) = None ->
             record !! "subject" = None /\ record !! "creator" = None
             /\ record !! "keywords" = None).
Proof.
  destruct (extractMetadata_stages file)
    as (sig & formatted & c & d & e & x & h & Hsig & _ & _ & _ & _ & _ & _ & E).
  split; [|split; [apply extractMetadata_pends|]].
  { rewrite extractMetadata_fate, E.
    destruct (startsWith (type file) "image/" && negb (EXIF_calls_back file));
      discriminate. }
  eexists. split; [exact E|].
  split.
  { rewrite extractMetadata_fate, E.
    destruct (startsWith (type file) "image/" && negb (EXIF_calls_back file));
      [left | right]; reflexivity. }
  destruct (identity_properties file _ E) as (Rn & Rs & Rt & Rl & Rx & _).
  split; [auto|]. split; [|split; [|split; [|split; [|split; [|split; [|split]]]]]].
  - intros key Hkey. apply (universal_keys_present file _ key E).
    apply in_or_app. right. exact Hkey.
  - intros Hmiss key Hkey.
    destruct (record_provenance file _ key E Hkey)
      as [Hid | [Huni | (selected & Hsel & _)]].
    + apply in_or_app. left. exact Hid.
    + apply in_or_app. right. exact Huni.
    + congruence.
  - intros Hsel Hload.
    split; apply (absent_unless_earned file _ _ E); try not_listed;
      intros selected Hsel'; assert (selected = ImageExtractor) as -> by congruence;
      cbn [stage_succeeded]; unfold text_tag_read; rewrite Hload;
      intros Hstage; impossible_stage Hstage.
  - intros Hsel Hcanvas.
    split; apply (absent_unless_earned file _ _ E); try not_listed;
      intros selected Hsel'; assert (selected = ImageExtractor) as -> by congruence;
      cbn [stage_succeeded]; unfold text_tag_read; rewrite Hcanvas;
      intros Hstage; impossible_stage Hstage.
  - intros Hsel Hload.
    repeat split; apply (absent_unless_earned file _ _ E); try not_listed;
      intros selected Hsel'; assert (selected = MediaExtractor) as -> by congruence;
      cbn [stage_succeeded]; rewrite Hload;
      intros (element & Hnone & _); discriminate.
  - intros Hunread.
    repeat split; apply (absent_unless_earned file _ _ E); try not_listed;
      intros selected _; destruct selected; cbn [stage_succeeded];
      unfold text_tag_read; rewrite ?Hunread;
      intros Hstage; impossible_stage Hstage.
  - intros buffer Hread Hshort.
    apply (absent_unless_earned file _ _ E); try not_listed.
    pose proof (short_buffer_has_no_magic buffer Hshort) as Hnone.
    intros selected _; destruct selected; cbn [stage_succeeded];
      unfold text_tag_read; intros Hstage;
      try (impossible_stage Hstage; fail).
    destruct Hstage as (_ & buffer' & total & Hread' & Hmagic & _).
    congruence.
  - intros buffer Hread Hsel Hinfo.
    repeat split; apply (absent_unless_earned file _ _ E); try not_listed;
      intros selected Hsel'; assert (selected = DocumentExtractor) as -> by congruence;
      cbn [stage_succeeded]; unfold pdf_entry_found;
      intros (buffer' & Hread' & Hstage);
      assert (buffer' = buffer) as -> by congruence;
      rewrite Hinfo in Hstage; impossible_stage Hstage.
Qed.

Lemma extraction_never_rejects_witness :
  (classify unreadable_file = None
   /\ content unreadable_file = None
   /\ exists record,
        @Eventual.extractMetadata headless unreadable_file = Settles (Some record)
        /\ record !! "name" = Some (VString "lost.bin")
        /\ record !! "wordCount" = None
        /\ (forall key, is_Some (record !! key) ->
                        In key (identity_keys ++ universal_keys)))
  /\ @Eventual.extractMetadata headless unreadable_image = Pends
  /\ exists record,
       @Eventual.extractMetadata headless short_archive = Settles (Some record)
       /\ record !! "compressionRatio" = None.
Proof.
  split; [|split].
  - split; [reflexivity | split; [reflexivity|]].
    destruct (@extraction_never_rejects headless unreadable_file)
      as (_ & Hpends & record & Hrec & Hfate & (Hname & _) & _ & Hmiss & _ & _ & _
          & Hunread & _).
    exists record. split; [|split; [exact Hname | split]].
    + destruct Hfate as [Hfate|Hfate]; [|exact Hfate].
      apply Hpends in Hfate. destruct Hfate as [Himage _].
      apply startsWith_spec in Himage. discriminate Himage.
    + apply Hunread. reflexivity.
    + apply Hmiss. reflexivity.
  - destruct (@extraction_never_rejects headless unreadable_image)
      as (_ & Hpends & _).
    apply Hpends. split; [exists "png"; reflexivity | reflexivity].
  - destruct (@extraction_never_rejects headless short_archive)
      as (_ & Hpends & record & Hrec & Hfate & _ & _ & _ & _ & _ & _ & _ & Hshort & _).
    exists record. split.
    + destruct Hfate as [Hfate|Hfate]; [|exact Hfate].
      apply Hpends in Hfate. destruct Hfate as [Himage _].
      apply startsWith_spec in Himage. discriminate Himage.
    + apply (Hshort [x50; x4b; x03]); reflexivity.
Defined.


(** ** Archives *)

Lemma getUint8_inside (view : list byte) (offset : Z) :
  0 <= offset < byteLength view -> exists b, getUint8 view offset = Some b.
Proof.
  intros [Hlo Hhi]. unfold getUint8, byteLength in *.
  destruct (0 <=? offset) eqn:E; [|apply Z.leb_gt in E; lia].
  destruct (nth_error view (Z.to_nat offset)) as [b|] eqn:Hnth.
  - eexists. reflexivity.
  - apply nth_error_None in Hnth. lia.
Qed.

Lemma getUint16_inside (view : list byte) (offset : Z) :
  0 <= offset -> offset + 2 <= byteLength view ->
  exists n, getUint16 view offset = Some n.
Proof.
  intros Hlo Hhi. unfold getUint16.
  destruct (getUint8_inside view offset) as [b0 ->]; [lia|].
  destruct (getUint8_inside view (offset + 1)) as [b1 ->]; [lia|].
  eexists. reflexivity.
Qed.

Lemma getUint32_inside (view : list byte) (offset : Z) :
  0 <= offset -> offset + 4 <= byteLength view ->
  exists n, getUint32 view offset = Some n.
Proof.
  intros Hlo Hhi. unfold getUint32.
  destruct (getUint8_inside view offset) as [b0 ->]; [lia|].
  destruct (getUint8_inside view (offset + 1)) as [b1 ->]; [lia|].
  destruct (getUint8_inside view (offset + 2)) as [b2 ->]; [lia|].
  destruct (getUint8_inside view (offset + 3)) as [b3 ->]; [lia|].
  eexists. reflexivity.
Qed.

(** Under the guard of the loop every read of a turn stays inside the
    buffer: the turn does not throw. *)
Lemma read_header_inside (view : list byte) (offset : Z) :
  0 <= offset -> offset < byteLength view - 30 ->
  exists outcome, read_header view offset = Some outcome.
Proof.
  intros Hlo Hhi. unfold read_header.
  destruct (getUint32_inside view offset) as [signature ->]; [lia | lia |].
  cbn [await]. destruct (signature =? ZIP_MAGIC)%N; [|eexists; reflexivity].
  destruct (getUint32_inside view (offset + 22)) as [n1 ->]; [lia | lia |].
  destruct (getUint16_inside view (offset + 26)) as [n2 ->]; [lia | lia |].
  destruct (getUint16_inside view (offset + 28)) as [n3 ->]; [lia | lia |].
  destruct (getUint32_inside view (offset + 18)) as [n4 ->]; [lia | lia |].
  eexists. reflexivity.
Qed.

(** The walk ends without throwing, on the sum of the uncompressed sizes of
    the headers it visited. *)
Lemma zip_walk_total (view : list byte) (uncompressedSize offset : Z) :
  0 <= offset ->
  exists headers,
    walked view offset headers
    /\ zip_walk view uncompressedSize offset
       = Some (uncompressedSize + total_uncompressed headers).
Proof.
  funelim (zip_walk view uncompressedSize offset); intros Hlo.
  - exists []. split; [apply walked_end; assumption|].
    unfold resolve, total_uncompressed. cbn [fold_right]. apply f_equal. lia.
  - match goal with
    | IH : 0 <= _ -> exists _, _ |- _ =>
        destruct IH as (others & Hwalk & Htotal); try lia
    end.
    exists (header :: others). split; [apply walked_next; assumption|].
    rewrite Htotal. unfold total_uncompressed. cbn [fold_right].
    apply f_equal. lia.
  - exists []. split; [apply walked_break; assumption|].
    unfold resolve, total_uncompressed. cbn [fold_right]. apply f_equal. lia.
  - destruct (read_header_inside view offset Hlo l) as [outcome Hout].
    congruence.
Qed.

Lemma total_uncompressed_nonneg (headers : list LocalFileHeader) :
  0 <= total_uncompressed headers.
Proof.
  unfold total_uncompressed.
  induction headers as [|h l IH]; cbn [fold_right]; lia.
Qed.

Lemma to_N_inj (a b : byte) : Byte.to_N a = Byte.to_N b -> a = b.
Proof.
  intros E. pose proof (Byte.of_to_N a) as Ha. rewrite E, Byte.of_to_N in Ha.
  congruence.
Qed.

Lemma magic_read (buffer : list byte) :
  getUint32 buffer 0 = Some ZIP_MAGIC <-> has_zip_magic buffer.
Proof.
  unfold has_zip_magic. split.
  - destruct buffer as [|b0 [|b1 [|b2 [|b3 rest]]]]; try discriminate.
    cbn. intros E. injection E as E.
    pose proof (Byte.to_N_bounded b0). pose proof (Byte.to_N_bounded b1).
    pose proof (Byte.to_N_bounded b2). pose proof (Byte.to_N_bounded b3).
    unfold ZIP_MAGIC in E.
    assert (E0 : Byte.to_N b0 = Byte.to_N x50) by (cbn; lia).
    assert (E1 : Byte.to_N b1 = Byte.to_N x4b) by (cbn; lia).
    assert (E2 : Byte.to_N b2 = Byte.to_N x03) by (cbn; lia).
    assert (E3 : Byte.to_N b3 = Byte.to_N x04) by (cbn; lia).
    apply to_N_inj in E0, E1, E2, E3. subst. exists rest. reflexivity.
  - intros [rest ->]. reflexivity.
Qed.

Lemma archive_of_readable (file : File) (metadata : ExtendedMetadata)
      (buffer : list byte) :
  content file = Some buffer ->
  extractArchiveMetadata file metadata
  = Some (match getUint32 buffer 0 with
          | Some signature =>
              if (signature =? ZIP_MAGIC)%N then
                match zip_walk buffer 0 0 with
                | Some total =>
                    if 0 <? total
                    then <["compressionRatio" :=
                             VNumber (round2 (Number_of_Z (size file)
                                              / Number_of_Z total)%float)]> metadata
                    else metadata
                | None => metadata
                end
              else metadata
          | None => metadata
          end).
Proof.
  intros Hread.
  unfold extractArchiveMetadata, compression_ratio, File_arrayBuffer.
  rewrite Hread. cbn [await].
  destruct (getUint32 buffer 0) as [signature|]; [|reflexivity].
  cbn [await]. destruct (signature =? ZIP_MAGIC)%N; [|reflexivity].
  destruct (zip_walk buffer 0 0) as [total|]; [|reflexivity].
  cbn [await]. destruct (0 <? total); reflexivity.
Qed.

(** C8, as stated, fails in its last part: an archive cut short after its
    first header still gets a compression ratio. *)
Lemma truncated_archive_counterexample :
  first_entry_truncated truncated_zip
  /\ exists ratio,
       extractArchiveMetadata truncated_zip_file ∅
       = Some (<["compressionRatio" := VNumber ratio]> ∅).
Proof.
  split.
  - eexists. split; [vm_compute; reflexivity | vm_compute; reflexivity].
  - eexists. rewrite (archive_of_readable truncated_zip_file ∅ truncated_zip eq_refl).
    assert (Hmagic : getUint32 truncated_zip 0 = Some ZIP_MAGIC)
      by (vm_compute; reflexivity).
    assert (Hwalk : zip_walk truncated_zip 0 0 = Some 1000)
      by (vm_compute; reflexivity).
    rewrite Hmagic, Hwalk. reflexivity.
Qed.

(** C8, amended.  The archive extractor never raises.  On a buffer whose
    first four bytes are not the ZIP magic number (or that cannot be read)
    it leaves the metadata as it was.  When the magic matches, the walk
    over the headers ends without a read out of bounds on the sum of their
    uncompressed sizes, and the compression ratio, fileSize divided by
    that sum and rounded to two decimals (the integer nearest to a hundred
    times the quotient, divided by 100), is assigned if and only if the
    sum is positive.  An archive cut short within its first header
    (at most 30 bytes) gets no compression ratio. *)
Theorem archive_ratio_iff_positive_total (file : File)
        (metadata : ExtendedMetadata) :
  (exists outcome, extractArchiveMetadata file metadata = Some outcome)
  /\ (content file = None -> extractArchiveMetadata file metadata = Some metadata)
  /\ (forall buffer, content file = Some buffer -> ~ has_zip_magic buffer ->
        extractArchiveMetadata file metadata = Some metadata)
  /\ (forall buffer, content file = Some buffer -> has_zip_magic buffer ->
        exists headers,
          walked buffer 0 headers
          /\ zip_walk buffer 0 0 = Some (total_uncompressed headers)
          /\ 0 <= total_uncompressed headers
          /\ (0 < total_uncompressed headers ->
                extractArchiveMetadata file metadata
                = Some (<["compressionRatio" :=
                            VNumber (round2 (Number_of_Z (size file)
                                             / Number_of_Z (total_uncompressed headers))%float)]>
                        metadata))
          /\ (total_uncompressed headers = 0 ->
                extractArchiveMetadata file metadata = Some metadata)
          /\ (0 < total_uncompressed headers ->
                exists ratio,
                  rounded_to_two_places
                    (Number_of_Z (size file)
                     / Number_of_Z (total_uncompressed headers))%float ratio
                  /\ extractArchiveMetadata file metadata
                     = Some (<["compressionRatio" := VNumber ratio]> metadata)))
  /\ (forall buffer, content file = Some buffer -> byteLength buffer <= 30 ->
        extractArchiveMetadata file metadata = Some metadata).
Proof.
  assert (Hmagic : forall buffer, content file = Some buffer -> has_zip_magic buffer ->
            exists headers,
              walked buffer 0 headers
              /\ zip_walk buffer 0 0 = Some (total_uncompressed headers)
              /\ 0 <= total_uncompressed headers
              /\ (0 < total_uncompressed headers ->
                    extractArchiveMetadata file metadata
                    = Some (<["compressionRatio" :=
                                VNumber (round2 (Number_of_Z (size file)
                                                 / Number_of_Z (total_uncompressed headers))%float)]>
                            metadata))
              /\ (total_uncompressed headers = 0 ->
                    extractArchiveMetadata file metadata = Some metadata)
              /\ (0 < total_uncompressed headers ->
                    exists ratio,
                      rounded_to_two_places
                        (Number_of_Z (size file)
                         / Number_of_Z (total_uncompressed headers))%float ratio
                      /\ extractArchiveMetadata file metadata
                         = Some (<["compressionRatio" := VNumber ratio]> metadata))).
  { intros buffer Hread Hhas.
    destruct (zip_walk_total buffer 0 0) as (headers & Hwalk & Htotal); [lia|].
    rewrite Z.add_0_l in Htotal.
    exists headers. split; [exact Hwalk|]. split; [exact Htotal|].
    split; [apply total_uncompressed_nonneg|].
    apply magic_read in Hhas.
    rewrite (archive_of_readable file metadata buffer Hread), Hhas, Htotal.
    rewrite N.eqb_refl. split; [|split].
    - intros Hpos. apply Z.ltb_lt in Hpos. rewrite Hpos. reflexivity.
    - intros Hzero. rewrite Hzero. reflexivity.
    - intros Hpos. apply Z.ltb_lt in Hpos. rewrite Hpos.
      eexists. split; [apply round2_meets_specification | reflexivity]. }
  split; [|split; [|split; [|split]]].
  - unfold extractArchiveMetadata. rewrite try_catch_fulfils. eexists. reflexivity.
  - intros Hunread. unfold extractArchiveMetadata, compression_ratio, File_arrayBuffer.
    rewrite Hunread. reflexivity.
  - intros buffer Hread Hnot.
    rewrite (archive_of_readable file metadata buffer Hread).
    destruct (getUint32 buffer 0) as [signature|] eqn:Hsig; [|reflexivity].
    destruct (signature =? ZIP_MAGIC)%N eqn:Heq; [|reflexivity].
    apply N.eqb_eq in Heq. subst signature.
    apply magic_read in Hsig. contradiction.
  - exact Hmagic.
  - intros buffer Hread Hshort.
    destruct (getUint32 buffer 0) as [signature|] eqn:Hsig;
      [|rewrite (archive_of_readable file metadata buffer Hread), Hsig; reflexivity].
    destruct (signature =? ZIP_MAGIC)%N eqn:Heq;
      [|rewrite (archive_of_readable file metadata buffer Hread), Hsig, Heq;
        reflexivity].
    apply N.eqb_eq in Heq. subst signature. apply magic_read in Hsig.
    destruct (Hmagic buffer Hread Hsig) as (headers & Hwalk & _ & _ & _ & Hzero & _).
    apply Hzero. inversion Hwalk; subst; [reflexivity | lia | lia].
Qed.

Lemma archive_ratio_iff_positive_total_witness :
  has_zip_magic truncated_zip
  /\ exists headers,
       walked truncated_zip 0 headers
       /\ 0 < total_uncompressed headers
       /\ is_Some (extractArchiveMetadata truncated_zip_file ∅)
       /\ extractArchiveMetadata truncated_zip_file ∅
          = Some (<["compressionRatio" := VNumber (3 / 100)%float]> ∅).
Proof.
  assert (Hhas : has_zip_magic truncated_zip) by (eexists; reflexivity).
  split; [exact Hhas|].
  destruct (archive_ratio_iff_positive_total truncated_zip_file ∅)
    as (_ & _ & _ & Hmagic & _).
  destruct (Hmagic truncated_zip eq_refl Hhas)
    as (headers & Hwalk & Htotal & _ & Hpos & _).
  assert (Hvalue : zip_walk truncated_zip 0 0 = Some 1000)
    by (vm_compute; reflexivity).
  rewrite Hvalue in Htotal. injection Htotal as Htotal.
  exists headers. split; [exact Hwalk|]. split; [lia|].
  rewrite Hpos by lia. split; [eexists; reflexivity|].
  rewrite <- Htotal. reflexivity.
Defined.

(** ** Language detection *)

Lemma drop_prefix_spec (p s rest : string) :
  drop_prefix p s = Some rest <-> s = (p ++ rest)%string.
Proof.
  revert s. induction p as [|a p IH]; intros s.
  - change ("" ++ rest)%string with rest. cbn [drop_prefix]. split; congruence.
  - destruct s as [|b s]; cbn [drop_prefix].
    + split; [discriminate | rewrite append_cons; discriminate].
    + rewrite append_cons. destruct (Ascii.eqb_spec a b) as [->|Hne].
      * rewrite IH. split; [intros ->; reflexivity | intros E; now inversion E].
      * split; [discriminate | intros E; inversion E; congruence].
Qed.


Lemma count_matches_nonneg (words : list string) (before : option ascii)
      (skip : nat) (s : string) :
  0 <= count_matches words before skip s.
Proof.
  revert before skip. induction s as [|c s IH]; intros before skip;
    cbn [count_matches]; [lia|].
  destruct skip as [|skip]; [|apply IH].
  destruct (word_boundary before (Some c)); [|apply IH].
  destruct (match_alternatives words before (String c s)) as [[|k]|];
    try apply IH.
  specialize (IH (Some c) k). lia.
Qed.




Lemma lower_unit_idempotent (c : ascii) : lower_unit (lower_unit c) = lower_unit c.
Proof. destruct c as [[] [] [] [] [] [] [] []]; vm_compute; reflexivity. Qed.

Lemma toLowerCase_idempotent (s : string) :
  toLowerCase (toLowerCase s) = toLowerCase s.
Proof.
  unfold toLowerCase. induction s as [|c s IH]; cbn [map_units]; [reflexivity|].
  rewrite lower_unit_idempotent, IH. reflexivity.
Qed.







(** *** On plain stop words the pattern counts whole words *)



Lemma append_length (s t : string) :
  String.length (s ++ t) = (String.length s + String.length t)%nat.
Proof.
  induction s as [|c s IH]; [reflexivity|].
  rewrite append_cons. cbn [String.length]. rewrite IH. reflexivity.
Qed.






(** *** On unaccented text the accented stop words play no part *)









Lemma lower_of_capital (c : ascii) :
  lower_unit (capital_unit c) = lower_unit c.
Proof.
  destruct c as [[] [] [] [] [] [] [] []]; vm_compute; reflexivity.
Qed.

Lemma toLowerCase_in_capitals (text : string) :
  toLowerCase (in_capitals text) = toLowerCase text.
Proof.
  unfold toLowerCase, in_capitals.
  induction text as [|c text IH]; [reflexivity|].
  cbn [map_units]. rewrite IH. f_equal. apply lower_of_capital.
Qed.













(* ===================================================================== *)
(** * Part IV: further properties of the code                             *)
(* ===================================================================== *)

Ltac look_up :=
  repeat (first [ rewrite lookup_insert_eq
                | rewrite lookup_insert_ne by discriminate ]).

(** ** File names *)

Lemma split_on_nonempty (sep : ascii) (s : string) : split_on sep s <> [].
Proof.
  destruct s as [|c s]; cbn [split_on]; [discriminate|].
  destruct (Ascii.eqb c sep); [discriminate|].
  destruct (split_on sep s); discriminate.
Qed.

Lemma split_on_app (sep : ascii) (a b : string) :
  split_on sep (a ++ String sep b) = (split_on sep a ++ split_on sep b)%list.
Proof.
  induction a as [|c a IH].
  - change ("" ++ String sep b)%string with (String sep b).
    cbn [split_on]. rewrite Ascii.eqb_refl. reflexivity.
  - rewrite append_cons. cbn [split_on]. rewrite IH.
    destruct (Ascii.eqb c sep); [reflexivity|].
    pose proof (split_on_nonempty sep a) as Hne.
    destruct (split_on sep a) as [|first others]; [contradiction|]. reflexivity.
Qed.

Lemma split_on_absent (sep : ascii) (s : string) :
  ~ In sep (list_ascii_of_string s) -> split_on sep s = [s].
Proof.
  induction s as [|c s IH]; intros Hno; [reflexivity|].
  cbn [split_on]. cbn [list_ascii_of_string In] in Hno.
  destruct (Ascii.eqb_spec c sep) as [->|Hne]; [tauto|].
  rewrite IH by tauto. reflexivity.
Qed.

Lemma split_on_parts_free (sep : ascii) (s : string) :
  Forall (fun part => ~ In sep (list_ascii_of_string part)) (split_on sep s).
Proof.
  induction s as [|c s IH]; cbn [split_on].
  - constructor; [intros []|constructor].
  - destruct (Ascii.eqb_spec c sep) as [->|Hne].
    + constructor; [intros []|exact IH].
    + destruct (split_on sep s) as [|first others]; inversion IH; subst.
      * constructor; [|constructor]. cbn. tauto.
      * constructor; [|assumption]. cbn [list_ascii_of_string In]. tauto.
Qed.

Lemma split_on_length (sep : ascii) (text : string) :
  List.length (split_on sep text) = S (separators sep text).
Proof.
  unfold separators. induction text as [|c text IH]; [reflexivity|].
  cbn [split_on list_ascii_of_string count_occ].
  destruct (Ascii.eqb_spec c sep) as [->|Hne].
  - destruct (ascii_dec sep sep); [|contradiction]. cbn [List.length]. lia.
  - destruct (ascii_dec c sep); [contradiction|].
    destruct (split_on sep text) as [|first others]; [discriminate|].
    cbn [List.length] in *. exact IH.
Qed.

Lemma last_in {A : Type} (l : list A) (d : A) : l <> [] -> In (List.last l d) l.
Proof.
  induction l as [|x [|y l] IH]; intros Hne; [contradiction | left; reflexivity |].
  right. apply IH. discriminate.
Qed.

Lemma last_of_map {A B : Type} (f : A -> B) (l : list A) (d : A) :
  List.last (map f l) (f d) = f (List.last l d).
Proof. induction l as [|x [|y l] IH]; [reflexivity | reflexivity | exact IH]. Qed.

Lemma lower_unit_dot (c : ascii) :
  (Ascii.eqb (lower_unit c) "." = Ascii.eqb c ".")%char.
Proof. destruct c as [[] [] [] [] [] [] [] []]; reflexivity. Qed.

Lemma split_on_lower (s : string) :
  split_on "." (toLowerCase s) = map toLowerCase (split_on "." s).
Proof.
  induction s as [|c s IH]; [reflexivity|].
  unfold toLowerCase in *. cbn [map_units split_on].
  rewrite lower_unit_dot, IH.
  destruct (Ascii.eqb c "."); [reflexivity|].
  destruct (split_on "." s); reflexivity.
Qed.

Lemma units_lower (s : string) :
  list_ascii_of_string (toLowerCase s) = map lower_unit (list_ascii_of_string s).
Proof.
  induction s as [|c s IH]; [reflexivity|].
  unfold toLowerCase in *. cbn [map_units list_ascii_of_string map]. now rewrite IH.
Qed.

Lemma dotless_lower (s : string) : dotless s -> dotless (toLowerCase s).
Proof.
  unfold dotless. rewrite units_lower. intros Hno Hin.
  apply in_map_iff in Hin as (c & Hc & Hin). apply Hno.
  pose proof (lower_unit_dot c) as E. rewrite Hc, Ascii.eqb_refl in E.
  symmetry in E. apply Ascii.eqb_eq in E. subst c. exact Hin.
Qed.

Lemma extension_of_name (stem ext : string) :
  dotless ext -> getFileExtension (stem ++ "." ++ ext) = toLowerCase ext.
Proof.
  intros Hno. unfold getFileExtension.
  change ("." ++ ext)%string with (String "." ext).
  rewrite split_on_app, (split_on_absent "." ext Hno).
  rewrite last_last. reflexivity.
Qed.

Lemma extension_of_bare_name (filename : string) :
  dotless filename -> getFileExtension filename = toLowerCase filename.
Proof.
  intros Hno. unfold getFileExtension. rewrite (split_on_absent "." _ Hno). reflexivity.
Qed.

Lemma extension_lower (filename : string) :
  getFileExtension (toLowerCase filename) = getFileExtension filename.
Proof.
  unfold getFileExtension. rewrite split_on_lower.
  change "" with (toLowerCase "") at 1. rewrite last_of_map.
  apply toLowerCase_idempotent.
Qed.

Ltac no_dot :=
  unfold dotless; cbn;
  let H := fresh in
  intros H; repeat (destruct H as [H|H]; [discriminate H|]); exact H.

(** X1.  The extension is the text after the last dot of the name, in
    lower case; a name without a dot is its own extension.  The result
    holds no dot, is in lower case already, and does not depend on the case
    of the name. *)
Theorem extension_is_text_after_last_dot :
  (forall stem ext, dotless ext ->
     getFileExtension (stem ++ "." ++ ext) = toLowerCase ext)
  /\ (forall filename, dotless filename ->
        getFileExtension filename = toLowerCase filename)
  /\ (forall filename,
        dotless (getFileExtension filename)
        /\ toLowerCase (getFileExtension filename) = getFileExtension filename
        /\ getFileExtension (toLowerCase filename) = getFileExtension filename).
Proof.
  split; [exact extension_of_name|]. split; [exact extension_of_bare_name|].
  intros filename. split; [|split].
  - unfold getFileExtension. apply dotless_lower.
    pose proof (split_on_parts_free "." filename) as Hall.
    rewrite Forall_forall in Hall. apply Hall, last_in, split_on_nonempty.
  - unfold getFileExtension. apply toLowerCase_idempotent.
  - apply extension_lower.
Qed.

Lemma extension_is_text_after_last_dot_witness :
  getFileExtension "backup.Tar.GZ" = "gz"
  /\ getFileExtension "Makefile" = "makefile".
Proof.
  destruct extension_is_text_after_last_dot as (Hname & Hbare & _).
  split.
  - apply (Hname "backup.Tar" "GZ"). no_dot.
  - apply (Hbare "Makefile"). no_dot.
Defined.

Lemma capital_dot (c : ascii) :
  (Ascii.eqb (capital_unit c) "." = Ascii.eqb c ".")%char.
Proof. destruct c as [[] [] [] [] [] [] [] []]; reflexivity. Qed.

Lemma split_on_in_capitals (s : string) :
  split_on "." (in_capitals s) = map in_capitals (split_on "." s).
Proof.
  induction s as [|c s IH]; [reflexivity|].
  unfold in_capitals in *. cbn [map_units split_on].
  rewrite capital_dot, IH.
  destruct (Ascii.eqb c "."); [reflexivity|].
  destruct (split_on "." s); reflexivity.
Qed.

Lemma extension_in_capitals (filename : string) :
  getFileExtension (in_capitals filename) = getFileExtension filename.
Proof.
  unfold getFileExtension. rewrite split_on_in_capitals.
  change "" with (in_capitals "") at 1. rewrite last_of_map.
  apply toLowerCase_in_capitals.
Qed.

(** X2.  Whether a name is executable depends on its last segment only,
    whatever its case: a name in capitals is executable exactly when the
    name itself is; a name without a dot is executable exactly when the
    whole name, in lower case, is one of the listed extensions, and a name
    that ends with a dot never is. *)
Theorem executable_by_last_segment :
  (forall stem ext, dotless ext ->
     isExecutableFile (stem ++ "." ++ ext) = isExecutableFile ext)
  /\ (forall filename, dotless filename ->
        (isExecutableFile filename = true
         <-> In (toLowerCase filename) executableExtensions))
  /\ (forall filename,
        isExecutableFile (toLowerCase filename) = isExecutableFile filename
        /\ isExecutableFile (in_capitals filename) = isExecutableFile filename)
  /\ (forall stem, isExecutableFile (stem ++ ".") = false).
Proof.
  split; [|split; [|split]].
  - intros stem ext Hno. unfold isExecutableFile.
    rewrite (extension_of_name stem ext Hno), (extension_of_bare_name ext Hno).
    reflexivity.
  - intros filename Hno. unfold isExecutableFile.
    rewrite (extension_of_bare_name filename Hno), existsb_exists. split.
    + intros (x & Hin & Heq). apply String.eqb_eq in Heq. subst x. exact Hin.
    + intros Hin. exists (toLowerCase filename). split; [exact Hin|].
      apply String.eqb_refl.
  - intros filename. unfold isExecutableFile.
    rewrite extension_lower, extension_in_capitals. split; reflexivity.
  - intros stem. unfold isExecutableFile.
    change (stem ++ ".")%string with (stem ++ "." ++ "")%string.
    rewrite (extension_of_name stem ""); [reflexivity|]. intros [].
Qed.

Lemma executable_by_last_segment_witness :
  isExecutableFile "setup.tar.SH" = isExecutableFile "SH"
  /\ (isExecutableFile "run" = true <-> In (toLowerCase "run") executableExtensions)
  /\ isExecutableFile "SETUP.EXE" = true.
Proof.
  destruct executable_by_last_segment as (Hname & Hbare & Hcase & _).
  split; [|split].
  - apply (Hname "setup.tar" "SH"). no_dot.
  - apply (Hbare "run"). no_dot.
  - exact (eq_trans (proj2 (Hcase "setup.exe")) eq_refl).
Defined.

(** ** The file signature *)

Lemma signature_cons (b : byte) (rest : list byte) :
  toUpperCase (join " " (map byte_hex (b :: rest)))
  = String (high_digit b) (String (low_digit b) (signature_tail rest)).
Proof.
  destruct rest as [|b' rest]; [reflexivity|].
  unfold join. cbn [map String.concat].
  unfold byte_hex at 1. rewrite !append_cons.
  change ("" ++ ?s)%string with s.
  unfold toUpperCase. cbn [map_units]. reflexivity.
Qed.

Lemma hex_digits_decoded (b : byte) : byte_of_hex (high_digit b) (low_digit b) = b.
Proof. destruct b; reflexivity. Qed.

Lemma hex_digits_upper (b : byte) :
  is_upper_hex (high_digit b) = true /\ is_upper_hex (low_digit b) = true.
Proof. destruct b; split; reflexivity. Qed.

Lemma signature_injective (bytes others : list byte) :
  toUpperCase (join " " (map byte_hex bytes))
  = toUpperCase (join " " (map byte_hex others)) ->
  bytes = others.
Proof.
  revert others. induction bytes as [|b bytes IH]; intros [|b' others] Heq;
    [reflexivity | | |].
  - rewrite signature_cons in Heq. discriminate.
  - rewrite signature_cons in Heq. discriminate.
  - rewrite !signature_cons in Heq. injection Heq as Hhigh Hlow Htail.
    assert (Hb : b = b').
    { rewrite <- (hex_digits_decoded b), <- (hex_digits_decoded b').
      rewrite Hhigh, Hlow. reflexivity. }
    subst b'. f_equal.
    destruct bytes as [|c bytes], others as [|c' others];
      cbn [signature_tail] in Htail; try discriminate; [reflexivity|].
    injection Htail as Htail. apply IH. exact Htail.
Qed.

Lemma signature_length (bytes : list byte) :
  Z.of_nat (String.length (toUpperCase (join " " (map byte_hex bytes))))
  = Z.max 0 (3 * Z.of_nat (List.length bytes) - 1).
Proof.
  induction bytes as [|b bytes IH]; [reflexivity|].
  rewrite signature_cons. cbn [String.length List.length].
  destruct bytes as [|b' bytes]; [reflexivity|].
  cbn [signature_tail String.length]. cbn [List.length] in *. lia.
Qed.

Lemma signature_units (bytes : list byte) :
  Forall (fun c => is_upper_hex c = true \/ c = " "%char)
         (list_ascii_of_string (toUpperCase (join " " (map byte_hex bytes)))).
Proof.
  induction bytes as [|b bytes IH]; [constructor|].
  rewrite signature_cons. cbn [list_ascii_of_string].
  destruct (hex_digits_upper b) as [Hhigh Hlow].
  constructor; [left; exact Hhigh|]. constructor; [left; exact Hlow|].
  destruct bytes as [|b' bytes]; [constructor|].
  cbn [signature_tail list_ascii_of_string]. constructor; [right; reflexivity|].
  exact IH.
Qed.

Lemma signature_of_readable (file : File) (bytes : list byte) :
  content file = Some bytes ->
  getFileSignature file
  = Some (toUpperCase (join " " (map byte_hex (firstn 16 bytes)))).
Proof.
  intros Hread. unfold getFileSignature, File_slice_arrayBuffer.
  rewrite Hread. reflexivity.
Qed.

(** X3.  The signature of a readable file renders its first sixteen bytes
    (fewer when the file is shorter): two upper-case hexadecimal digits
    per byte, one space between bytes, so 3n - 1 characters for n bytes
    and none for an empty file.  Nothing is lost: two readable files have
    the same signature exactly when they start with the same sixteen
    bytes. *)
Theorem signature_renders_first_sixteen_bytes (file other : File)
        (bytes others : list byte) :
  content file = Some bytes ->
  content other = Some others ->
  exists signature,
    getFileSignature file = Some signature
    /\ Z.of_nat (String.length signature)
       = Z.max 0 (3 * Z.min 16 (Z.of_nat (List.length bytes)) - 1)
    /\ Forall (fun c => is_upper_hex c = true \/ c = " "%char)
              (list_ascii_of_string signature)
    /\ (getFileSignature other = Some signature
        <-> firstn 16 others = firstn 16 bytes).
Proof.
  intros Hread Hother. eexists.
  split; [apply (signature_of_readable file bytes Hread)|].
  split; [|split].
  - rewrite signature_length, length_firstn. f_equal. lia.
  - apply signature_units.
  - rewrite (signature_of_readable other others Hother). split.
    + intros E. injection E as E. apply signature_injective. exact E.
    + intros ->. reflexivity.
Qed.

Lemma signature_renders_first_sixteen_bytes_witness :
  content png_file = Some [x89; x50; x4e; x47; x0d; x0a; x1a; x0a]
  /\ exists signature,
       getFileSignature png_file = Some signature
       /\ Z.of_nat (String.length signature) = 23.
Proof.
  split; [reflexivity|].
  destruct (signature_renders_first_sixteen_bytes png_file png_file _ _
              eq_refl eq_refl) as (signature & Hsig & Hlen & _).
  exists signature. split; [exact Hsig | exact Hlen].
Defined.

(** ** Pixels *)

(** Induction over the data four bytes at a time, as the loops read it. *)
Lemma by_pixels (P : list byte -> Prop) :
  (forall data, (List.length data < 4)%nat -> P data) ->
  (forall r g b a rest, P rest -> P (r :: g :: b :: a :: rest)) ->
  forall data, P data.
Proof.
  intros Hshort Hstep data.
  assert (Hall : forall n data, (List.length data <= n)%nat -> P data).
  { clear data. induction n as [|n IH]; intros data Hlen.
    - apply Hshort. lia.
    - destruct data as [|r [|g [|b [|a rest]]]]; try (apply Hshort; cbn; lia).
      apply Hstep, IH. cbn in Hlen. lia. }
  apply (Hall (List.length data)). lia.
Qed.

(** X4.  The alpha test answers true exactly when some pixel, the bytes
    4k .. 4k+3 of the data, has an alpha byte below 255; bytes after the
    last whole pixel are not looked at, and data without a whole pixel has
    no alpha. *)
Theorem alpha_channel_found_iff (data : list byte) :
  hasAlphaChannel data = true
  <-> exists pixel alpha,
        nth_error data (4 * pixel + 3) = Some alpha /\ (Byte.to_N alpha < 255)%N.
Proof.
  induction data as [data Hshort | r g b a rest IH] using by_pixels.
  - split.
    + destruct data as [|r [|g [|b [|a rest]]]]; cbn in *; try discriminate; lia.
    + intros (pixel & alpha & Hnth & _).
      assert (Hlt : (4 * pixel + 3 < List.length data)%nat).
      { apply nth_error_Some. rewrite Hnth. discriminate. }
      lia.
  - cbn [hasAlphaChannel]. destruct (Byte.to_N a <? 255)%N eqn:Ha.
    + split; [intros _|reflexivity].
      exists 0%nat, a. split; [reflexivity|]. apply N.ltb_lt. exact Ha.
    + rewrite IH. split; intros (pixel & alpha & Hnth & Halpha).
      * exists (S pixel), alpha. split; [|exact Halpha].
        replace (4 * S pixel + 3)%nat with (S (S (S (S (4 * pixel + 3))))) by lia.
        exact Hnth.
      * destruct pixel as [|pixel].
        -- cbn in Hnth. injection Hnth as ->. apply N.ltb_ge in Ha. lia.
        -- exists pixel, alpha. split; [|exact Halpha].
           replace (4 * S pixel + 3)%nat with (S (S (S (S (4 * pixel + 3))))) in Hnth
             by lia.
           exact Hnth.
Qed.

(** Sets compared element by element. *)
Ltac by_elements :=
  let x := fresh "x" in
  intros x;
  rewrite ?elem_of_union, ?elem_of_difference, ?elem_of_empty;
  tauto.

Ltac grown H :=
  eapply Z.lt_le_trans; [exact H|]; apply inj_le, subseteq_size; by_elements.

(** What the loop of [estimateColorDepth] hands over: the colours of the
    data joined to those it started from, unless there are more than 65536
    of them. *)
Lemma collect_colors_spec (data : list byte) :
  forall uniqueColors : gset Z,
    match collect_colors data uniqueColors with
    | inl depth =>
        depth = 24
        /\ 65536 < Z.of_nat (base.size (distinct_colors data ∪ uniqueColors))
    | inr collected => collected = distinct_colors data ∪ uniqueColors
    end.
Proof.
  unfold distinct_colors.
  induction data as [data Hshort | r g b a rest IH] using by_pixels;
    intros uniqueColors.
  - destruct data as [|r [|g [|b [|a rest]]]]; try (cbn in Hshort; lia);
      cbn [collect_colors pixel_colors list_to_set];
      try (apply set_eq; by_elements);
      (destruct (65536 <? _) eqn:Hfull;
       [split; [reflexivity|]; apply Z.ltb_lt in Hfull; grown Hfull
       |apply set_eq; by_elements]).
  - cbn [collect_colors pixel_colors list_to_set].
    set (color := pack_color (channel r) (channel g) (channel b)).
    destruct (65536 <? _) eqn:Hfull.
    + split; [reflexivity|]. apply Z.ltb_lt in Hfull. grown Hfull.
    + specialize (IH ({[color]} ∪ uniqueColors)).
      destruct (collect_colors rest ({[color]} ∪ uniqueColors)) as [depth|collected].
      * destruct IH as [-> Hmany]. split; [reflexivity|]. grown Hmany.
      * subst collected. apply set_eq. by_elements.
Qed.

Lemma estimateColorDepth_by_count (data : list byte) :
  estimateColorDepth data
  = depth_of_count (Z.of_nat (base.size (distinct_colors data))).
Proof.
  unfold estimateColorDepth.
  pose proof (collect_colors_spec data ∅) as Hspec.
  destruct (collect_colors data ∅) as [depth|collected].
  - destruct Hspec as [-> Hmany].
    replace (distinct_colors data ∪ ∅) with (distinct_colors data) in Hmany
      by (apply set_eq; by_elements).
    unfold depth_of_count.
    repeat match goal with
           | |- context [?a <=? ?b] => destruct (Z.leb_spec a b); try lia
           end.
  - subst collected.
    replace (distinct_colors data ∪ ∅) with (distinct_colors data)
      by (apply set_eq; by_elements).
    reflexivity.
Qed.

Lemma size_list_to_set_le (colors : list Z) :
  (base.size (list_to_set colors : gset Z) <= List.length colors)%nat.
Proof.
  induction colors as [|c colors IH]; cbn [list_to_set List.length].
  - rewrite size_empty. lia.
  - rewrite size_union_alt, size_singleton.
    assert (base.size ((list_to_set colors : gset Z) ∖ {[c]})
            <= base.size (list_to_set colors : gset Z))%nat
      by (apply subseteq_size; by_elements).
    lia.
Qed.

Lemma pixel_colors_length (data : list byte) :
  (4 * List.length (pixel_colors data) <= List.length data + 3)%nat.
Proof.
  induction data as [data Hshort | r g b a rest IH] using by_pixels.
  - destruct data as [|r [|g [|b [|a rest]]]]; cbn in *; lia.
  - cbn [pixel_colors List.length]. lia.
Qed.

(** X5.  The colour depth is the ladder 1, 4, 8, 16, 24 applied to the
    number of distinct colours of the pixels, the alpha bytes left out:
    leaving the loop early, once more than 65536 colours are seen, gives
    what the ladder gives on the full count.  No other depth is ever
    reported; data without any pixel has depth 1. *)
Theorem color_depth_from_distinct_colors (data : list byte) :
  estimateColorDepth data
  = depth_of_count (Z.of_nat (base.size (distinct_colors data)))
  /\ In (estimateColorDepth data) [1; 4; 8; 16; 24]
  /\ estimateColorDepth [] = 1.
Proof.
  split; [apply estimateColorDepth_by_count|]. split; [|reflexivity].
  rewrite estimateColorDepth_by_count. unfold depth_of_count.
  repeat match goal with
         | |- context [?a <=? ?b] => destruct (Z.leb_spec a b)
         end; cbn; auto 10.
Qed.

(** X6.  Data of at most 65536 pixels never gets the depth 24.  The image
    extractor samples a canvas of at most 100 x 100 pixels, so the
    [colorDepth] it assigns is 1, 4, 8 or 16. *)
Theorem color_depth_of_small_canvas (data : list byte) :
  Z.of_nat (List.length data) <= 4 * 65536 ->
  In (estimateColorDepth data) [1; 4; 8; 16].
Proof.
  intros Hsmall. rewrite estimateColorDepth_by_count.
  pose proof (size_list_to_set_le (pixel_colors data)) as Hsize.
  pose proof (pixel_colors_length data) as Hlen.
  fold (distinct_colors data) in Hsize.
  unfold depth_of_count.
  repeat match goal with
         | |- context [?a <=? ?b] => destruct (Z.leb_spec a b)
         end; cbn; auto 10; lia.
Qed.

Lemma color_depth_of_small_canvas_witness :
  Z.of_nat (List.length two_pixels) <= 4 * 65536
  /\ In (estimateColorDepth two_pixels) [1; 4; 8; 16].
Proof.
  assert (Hsmall : Z.of_nat (List.length two_pixels) <= 4 * 65536) by (cbn; lia).
  split; [exact Hsmall|].
  exact (color_depth_of_small_canvas two_pixels Hsmall).
Defined.

(** ** The encoding of a text *)



(** X7.  [detectEncoding] on a text given by its UTF-16 code units.  The
    answer is 'Binary/Unknown' exactly when the text holds the
    replacement character U+FFFD, whatever else it holds; 'ASCII' exactly
    when every code unit is at most U+007F, the empty text included; and
    'UTF-8' exactly when the text has a unit from U+0080 on and no
    replacement character, so that the second test decides and the return
    after the third is never reached. *)
Theorem encoding_by_code_units (text : list Z) :
  Forall (fun unit => 0 <= unit <= 0xFFFF) text ->
  (detectEncoding text = "Binary/Unknown" <-> In 0xFFFD text)
  /\ (detectEncoding text = "ASCII" <-> Forall (fun unit => unit <= 0x7F) text)
  /\ (detectEncoding text = "UTF-8"
      <-> ~ In 0xFFFD text /\ Exists (fun unit => 0x80 <= unit) text)
  /\ detectEncoding [] = "ASCII".
Proof.
  intros Hunits.
  assert (Hfirst : existsb (Z.eqb 0xFFFD) text = true <-> In 0xFFFD text).
  { rewrite existsb_exists. split.
    - intros (unit & Hin & Heq). apply Z.eqb_eq in Heq. subst unit. exact Hin.
    - intros Hin. exists 0xFFFD. split; [exact Hin | reflexivity]. }
  assert (Hsecond : existsb (fun unit => (0x0080 <=? unit) && (unit <=? 0xFFFF)) text
                    = true
                    <-> Exists (fun unit => 0x80 <= unit) text).
  { rewrite existsb_exists, Exists_exists. rewrite Forall_forall in Hunits.
    split; intros (unit & Hin & Hunit); exists unit; (split; [exact Hin|]).
    - apply andb_true_iff in Hunit as [Hlow _]. apply Z.leb_le in Hlow. exact Hlow.
    - specialize (Hunits unit Hin). apply andb_true_iff.
      split; apply Z.leb_le; lia. }
  assert (Hthird : forallb (fun unit => (0x0000 <=? unit) && (unit <=? 0x007F)) text
                   = true
                   <-> Forall (fun unit => unit <= 0x7F) text).
  { rewrite forallb_forall, !Forall_forall. rewrite Forall_forall in Hunits.
    split; intros Hall unit Hin.
    - specialize (Hall unit Hin). apply andb_true_iff in Hall as [_ Hhigh].
      apply Z.leb_le in Hhigh. exact Hhigh.
    - specialize (Hall unit Hin). specialize (Hunits unit Hin).
      apply andb_true_iff. split; apply Z.leb_le; lia. }
  assert (Hexcl : Forall (fun unit => unit <= 0x7F) text ->
                  ~ Exists (fun unit => 0x80 <= unit) text).
  { rewrite Forall_forall, Exists_exists. intros Hall (unit & Hin & Hunit).
    specialize (Hall unit Hin). lia. }
  assert (Hrepl : In 0xFFFD text -> Exists (fun unit => 0x80 <= unit) text).
  { intros Hin. apply Exists_exists. exists 0xFFFD. split; [exact Hin | lia]. }
  assert (Htotal : Forall (fun unit => unit <= 0x7F) text
                   \/ Exists (fun unit => 0x80 <= unit) text).
  { clear. induction text as [|unit text IH]; [left; constructor|].
    destruct (Z.le_gt_cases unit 0x7F) as [Hle|Hgt].
    - destruct IH as [IH|IH]; [left; constructor; assumption|].
      right. apply Exists_cons_tl. exact IH.
    - right. apply Exists_cons_hd. lia. }
  split; [|split; [|split; [|reflexivity]]]; unfold detectEncoding;
    destruct (existsb (Z.eqb 0xFFFD) text) eqn:H1;
    destruct (existsb (fun unit => (0x0080 <=? unit) && (unit <=? 0xFFFF)) text) eqn:H2;
    destruct (forallb (fun unit => (0x0000 <=? unit) && (unit <=? 0x007F)) text) eqn:H3;
    (split; [intros E; try discriminate E | intros Hgoal; try reflexivity; exfalso]);
    repeat match goal with
           | Hb : _ = true |- _ =>
               first [apply Hfirst in Hb | apply Hsecond in Hb | apply Hthird in Hb]
           | Hb : _ = false |- _ =>
               first [ assert (~ In 0xFFFD text)
                         by (intros Hin; apply Hfirst in Hin; congruence)
                     | assert (~ Exists (fun unit => 0x80 <= unit) text)
                         by (intros Hin; apply Hsecond in Hin; congruence)
                     | assert (~ Forall (fun unit => unit <= 0x7F) text)
                         by (intros Hin; apply Hthird in Hin; congruence) ];
               clear Hb
           end;
    tauto.
Qed.

Lemma encoding_by_code_units_witness :
  Forall (fun unit => 0 <= unit <= 0xFFFF) [0x61; 0xFFFD; 0x62]
  /\ detectEncoding [0x61; 0xFFFD; 0x62] = "Binary/Unknown"
  /\ detectEncoding [0x61; 0xFF; 0x62] <> "ASCII".
Proof.
  assert (Hfirst : Forall (fun unit => 0 <= unit <= 0xFFFF) [0x61; 0xFFFD; 0x62])
    by (repeat constructor; lia).
  assert (Hsecond : Forall (fun unit => 0 <= unit <= 0xFFFF) [0x61; 0xFF; 0x62])
    by (repeat constructor; lia).
  split; [exact Hfirst|]. split.
  - apply (encoding_by_code_units _ Hfirst). right. left. reflexivity.
  - intros Hascii.
    apply (proj1 (proj2 (encoding_by_code_units _ Hsecond))) in Hascii.
    inversion Hascii as [|? ? _ Hrest]; subst.
    inversion Hrest as [|? ? Hunit _]; subst. lia.
Defined.

(** ** Entropy *)

Lemma occurrences_permutation (b : byte) (sample shuffled : list byte) :
  Permutation sample shuffled -> occurrences b sample = occurrences b shuffled.
Proof.
  intros Hperm. unfold occurrences. f_equal.
  revert b. apply (Permutation_count_occ Byte.byte_eq_dec). exact Hperm.
Qed.

Lemma byte_frequency_permutation (sample shuffled : list byte) :
  Permutation sample shuffled -> byte_frequency sample = byte_frequency shuffled.
Proof.
  intros Hperm. rewrite !byte_frequency_occurrences.
  apply map_ext. intros b. apply occurrences_permutation. exact Hperm.
Qed.

(** X8.  The entropy of a file of at most 1024 * 1024 bytes does not
    depend on the order of its bytes: two readable files whose contents
    are permutations of each other get the same entropy. *)
Theorem entropy_ignores_byte_order `{Host} (file other : File)
        (buffer shuffled : list byte) :
  content file = Some buffer ->
  content other = Some shuffled ->
  size file = Z.of_nat (List.length buffer) ->
  size other = Z.of_nat (List.length shuffled) ->
  Z.of_nat (List.length buffer) <= 1024 * 1024 ->
  Permutation buffer shuffled ->
  calculateEntropy file = calculateEntropy other.
Proof.
  intros Hread Hother Hsize Hsize' Hsmall Hperm.
  pose proof (Permutation_length Hperm) as Hlen.
  unfold calculateEntropy.
  rewrite (entropy_slice file buffer Hread Hsize).
  rewrite (entropy_slice other shuffled Hother Hsize').
  rewrite !firstn_all2 by lia.
  cbn [await try_catch resolve].
  rewrite (byte_frequency_permutation buffer shuffled Hperm), Hlen. reflexivity.
Qed.

Lemma entropy_ignores_byte_order_witness :
  @calculateEntropy headless (mkFile "ab" "" 2 0 (Some [x61; x62]))
  = @calculateEntropy headless (mkFile "ba" "" 2 0 (Some [x62; x61])).
Proof.
  apply (entropy_ignores_byte_order
           (mkFile "ab" "" 2 0 (Some [x61; x62]))
           (mkFile "ba" "" 2 0 (Some [x62; x61]))
           [x61; x62] [x62; x61]).
  - reflexivity.
  - reflexivity.
  - reflexivity.
  - reflexivity.
  - cbn. lia.
  - apply perm_swap.
Defined.

(** ** The encryption flag *)

Lemma signature_matches_spec (sig : list N) (bytes : list byte) :
  (List.length sig <=? List.length bytes)%nat && signature_matches sig bytes = true
  <-> map Byte.to_N (firstn (List.length sig) bytes) = sig.
Proof.
  revert bytes. induction sig as [|expected sig IH]; intros bytes.
  - cbn. tauto.
  - destruct bytes as [|b bytes]; [cbn; split; discriminate|].
    cbn [List.length signature_matches firstn map].
    change (S (List.length sig) <=? S (List.length bytes))%nat
      with (List.length sig <=? List.length bytes)%nat.
    specialize (IH bytes). rewrite andb_true_iff in *.
    rewrite andb_true_iff, N.eqb_eq. split.
    + intros [Hlen [Hb Hrest]]. rewrite Hb. f_equal. apply IH. tauto.
    + intros E. injection E as Hb Hrest. apply IH in Hrest. tauto.
Qed.

Lemma signature_scan (buffer : list byte) :
  existsb (fun sig => (List.length sig <=? List.length (firstn 1024 buffer))%nat
                      && signature_matches sig (firstn 1024 buffer)) signatures
  = true
  <-> starts_with_signature buffer.
Proof.
  unfold starts_with_signature. rewrite existsb_exists.
  split; intros (sig & Hin & Hsig); exists sig; (split; [exact Hin|]).
  - apply signature_matches_spec in Hsig. rewrite firstn_firstn in Hsig.
    cbn in Hin. destruct Hin as [<-|[<-|[<-|[]]]]; exact Hsig.
  - apply signature_matches_spec. rewrite firstn_firstn.
    cbn in Hin. destruct Hin as [<-|[<-|[<-|[]]]]; exact Hsig.
Qed.

Lemma detectEncryption_of_readable `{Host} (file : File) (buffer : list byte)
      (entropy : float) :
  content file = Some buffer ->
  calculateEntropy file = Some entropy ->
  detectEncryption file
  = Some (existsb (fun sig =>
                     (List.length sig <=? List.length (firstn 1024 buffer))%nat
                     && signature_matches sig (firstn 1024 buffer)) signatures
          || (7.5 <? entropy)%float).
Proof.
  intros Hread Hentropy. unfold detectEncryption, File_slice_arrayBuffer.
  rewrite Hread. cbn [await resolve]. change (Z.to_nat 1024) with 1024%nat.
  destruct (existsb _ signatures); [reflexivity|].
  rewrite Hentropy. reflexivity.
Qed.

(** X9.  In every record the encryption flag is explained by the file's
    first four bytes and by the entropy the same record shows: it is true
    exactly when the readable content starts with the signature of a ZIP
    (50 4B 03 04), 7z (37 7A BC AF) or RAR (52 61 72 21) archive,
    encrypted or not, or the record's entropy exceeds 7.5. *)
Theorem encryption_flag_explained `{Host} (file : File) :
  exists record entropy flag,
    extractMetadata file = Some record
    /\ record !! "entropy" = Some (VNumber entropy)
    /\ record !! "isEncrypted" = Some (VBoolean flag)
    /\ (flag = true
        <-> (exists buffer, content file = Some buffer /\ starts_with_signature buffer)
            \/ (7.5 <? entropy)%float = true).
Proof.
  destruct (extractMetadata_stages file)
    as (s & m & c & d & e & x & h & _ & _ & _ & _ & _ & _ & _ & Hrec).
  destruct (universal_values file _ Hrec)
    as (c' & d' & entropy & flag & h' & _ & _ & Hentropy & Hflag & _
        & _ & _ & Rentropy & _ & Rflag & _).
  eexists. exists entropy, flag.
  split; [exact Hrec|]. split; [exact Rentropy|]. split; [exact Rflag|].
  destruct (content file) as [buffer|] eqn:Hread.
  - pose proof (detectEncryption_of_readable file buffer entropy Hread Hentropy) as E.
    rewrite Hflag in E. apply (inj Some) in E. rewrite E.
    rewrite orb_true_iff, signature_scan. split.
    + intros [Hsig|Hhigh]; [left; exists buffer; auto | right; exact Hhigh].
    + intros [(buffer' & E' & Hsig)|Hhigh]; [left | right; exact Hhigh].
      injection E' as <-. exact Hsig.
  - rewrite (unreadable_encryption file Hread) in Hflag.
    rewrite (unreadable_entropy file Hread) in Hentropy.
    injection Hflag as <-. injection Hentropy as <-. split; [discriminate|].
    intros [(buffer & E & _)|Hhigh]; [discriminate E | discriminate Hhigh].
Qed.

(** ** Aspect ratio *)

(** X11.  The aspect ratio does not change when both dimensions are
    multiplied by the same positive number. *)
Theorem aspect_ratio_scale_invariant (k width height : Z) :
  0 < k -> 0 < width -> 0 < height ->
  calculateAspectRatio (k * width) (k * height) = calculateAspectRatio width height.
Proof.
  intros Hk Hw Hh. unfold calculateAspectRatio. cbv zeta.
  rewrite !gcd_is_Zgcd by lia.
  assert (Hg : 0 < Z.gcd width height).
  { rewrite <- gcd_is_Zgcd by lia. apply gcd_positive; lia. }
  rewrite Z.gcd_mul_mono_l_nonneg by lia.
  rewrite !quotient_toString_nonzero by lia.
  rewrite !Z.div_mul_cancel_l by lia. reflexivity.
Qed.

Lemma aspect_ratio_scale_invariant_witness :
  0 < 120 /\ 0 < 16 /\ 0 < 9
  /\ calculateAspectRatio (120 * 16) (120 * 9) = calculateAspectRatio 16 9.
Proof.
  split; [lia | split; [lia | split; [lia|]]].
  apply aspect_ratio_scale_invariant; lia.
Defined.

(** X12.  When one dimension is zero the other one is the divisor: the
    ratio is "1:0" for a height of zero and "0:1" for a width of zero,
    whatever the positive dimension.  When both are zero both divisions
    are 0 / 0 and the ratio reads "NaN:NaN". *)
Theorem aspect_ratio_of_degenerate_dimensions :
  (forall n, 0 < n ->
     calculateAspectRatio n 0 = "1:0" /\ calculateAspectRatio 0 n = "0:1")
  /\ calculateAspectRatio 0 0 = "NaN:NaN".
Proof.
  split; [|reflexivity].
  intros n Hn. unfold calculateAspectRatio. cbv zeta.
  rewrite !gcd_is_Zgcd by lia. rewrite Z.gcd_0_r.
  change (Z.gcd 0 n) with (Z.abs n).
  rewrite (Z.abs_eq n) by lia.
  unfold quotient_toString.
  destruct (n =? 0) eqn:E; [apply Z.eqb_eq in E; lia|].
  rewrite Z.quot_same by lia. rewrite Z.quot_0_l by lia. split; reflexivity.
Qed.

Lemma aspect_ratio_of_degenerate_dimensions_witness :
  0 < 640 /\ calculateAspectRatio 640 0 = "1:0".
Proof.
  split; [lia|].
  destruct aspect_ratio_of_degenerate_dimensions as [Hone _].
  apply (Hone 640). lia.
Defined.

(** ** The properties of the selected extractor, as the record has them *)

Section RecordOfExtractor.
Context `{Host}.

(** The properties the selected extractor leaves are in the record
    unchanged: the universal analyzers write other properties. *)
Lemma record_of_extractor (file : File) :
  exists record formatted signature,
    extractMetadata file = Some record
    /\ run_extractor (classify file) file
         (<["fileSignature" := VString signature]> (initial_metadata file))
       = Some formatted
    /\ forall key, ~ In key universal_keys -> record !! key = formatted !! key.
Proof.
  destruct (extractMetadata_stages file)
    as (sig & formatted & c & d & e & x & h & _ & Hfmt & _ & _ & _ & _ & _ & E).
  exists (universal_fields file c d e x h formatted), formatted, sig.
  split; [exact E|]. split; [exact Hfmt|].
  intros key Hkey. unfold universal_fields.
  repeat (rewrite lookup_insert_ne
           by (intros <-; apply Hkey; cbn; auto 10)).
  reflexivity.
Qed.

Lemma count_words_bounds (text : string) (in_word : bool) :
  0 <= count_words in_word text
  /\ 2 * count_words in_word text
     <= Z.of_nat (String.length text) + (if in_word then 0 else 1).
Proof.
  revert in_word. induction text as [|c text IH]; intros in_word.
  - cbn. destruct in_word; lia.
  - cbn [count_words String.length].
    pose proof (IH true). pose proof (IH false).
    destruct (is_space c), in_word; lia.
Qed.






Lemma collapse_spaces_length (text : string) (in_run : bool) :
  (String.length (collapse_spaces in_run text) <= String.length text)%nat.
Proof.
  revert in_run. induction text as [|c text IH]; intros in_run; [reflexivity|].
  cbn [collapse_spaces String.length].
  pose proof (IH true). pose proof (IH false).
  destruct (is_space c), in_run; cbn [String.length]; lia.
Qed.

Lemma map_units_length (f : ascii -> ascii) (text : string) :
  String.length (map_units f text) = String.length text.
Proof. induction text as [|c text IH]; [reflexivity|]. cbn. now rewrite IH. Qed.

Lemma trim_start_length (s : string) :
  (String.length (trim_start s) <= String.length s)%nat.
Proof.
  induction s as [|c s IH]; [reflexivity|].
  cbn [trim_start]. destruct (is_space c); cbn [String.length] in *; lia.
Qed.

(** A page marker takes eleven characters at least, all of them in the
    text. *)
Lemma page_marker_length (text : string) (n : nat) :
  page_marker_here text = Some n -> (11 <= n <= String.length text)%nat.
Proof.
  unfold page_marker_here.
  destruct (drop_prefix "/Type" text) as [after_type|] eqn:Htype; [|discriminate].
  apply drop_prefix_spec in Htype.
  destruct (drop_prefix "/Page" (trim_start after_type)) as [[|c rest]|] eqn:Hpage;
    try discriminate.
  apply drop_prefix_spec in Hpage.
  destruct (Ascii.eqb c "s"); [discriminate|].
  intros E. injection E as <-.
  pose proof (trim_start_length after_type) as Htrim.
  assert (Hlen : String.length text = (5 + String.length after_type)%nat).
  { rewrite Htype, append_length. reflexivity. }
  assert (Hpage_len : String.length (trim_start after_type)
                      = (5 + S (String.length rest))%nat).
  { rewrite Hpage, append_length. reflexivity. }
  lia.
Qed.

Lemma count_page_markers_bound (text : string) :
  forall skip,
    0 <= count_page_markers skip text
    /\ 11 * count_page_markers skip text
       <= Z.max 0 (Z.of_nat (String.length text) - Z.of_nat skip).
Proof.
  induction text as [|c text IH]; intros skip; [cbn; lia|].
  cbn [count_page_markers].
  destruct skip as [|skip].
  - destruct (page_marker_here (String c text)) as [[|rest]|] eqn:Hhere.
    + specialize (IH 0%nat). cbn [String.length]. lia.
    + apply page_marker_length in Hhere. specialize (IH rest).
      cbn [String.length] in *. lia.
    + specialize (IH 0%nat). cbn [String.length]. lia.
  - specialize (IH skip). cbn [String.length]. lia.
Qed.

(** X14.  The record of a readable file given to the PDF extractor holds
    a word count and a character count, taken on the decoded bytes once
    every unit outside U+0020 - U+007E is a space and runs of white space
    are one space: the character count is at most the number of decoded
    units and twice the word count at most the character count plus one.
    The page count is there exactly when a page marker is found, and
    eleven times the number of markers is at most the length of the text:
    markers do not overlap.
    No line count is given for a PDF. *)
Theorem pdf_record_counts (file : File) (buffer : list byte) :
  classify file = Some DocumentExtractor ->
  content file = Some buffer ->
  let text := TextDecoder_latin1 buffer in
  let words := count_words false (pdf_text_content text) in
  let characters := Z.of_nat (String.length (pdf_text_content text)) in
  let pages := count_page_markers 0 text in
  exists record,
    extractMetadata file = Some record
    /\ record !! "wordCount" = Some (VInteger words)
    /\ record !! "characterCount" = Some (VInteger characters)
    /\ 0 <= words
    /\ 2 * words <= characters + 1
    /\ 0 <= characters <= Z.of_nat (String.length text)
    /\ record !! "pageCount"
       = (if 0 <? pages then Some (VInteger pages) else None)
    /\ 0 <= pages
    /\ 11 * pages <= Z.of_nat (String.length text)
    /\ record !! "lineCount" = None.
Proof.
  intros Hclass Hread text words characters pages.
  destruct (record_of_extractor file)
    as (record & formatted & sig & Hrec & Hfmt & Hsame).
  rewrite Hclass in Hfmt. cbn [run_extractor] in Hfmt.
  unfold extractPDFMetadata, File_arrayBuffer in Hfmt. rewrite Hread in Hfmt.
  cbn [await resolve try_catch] in Hfmt. fold text in Hfmt.
  fold (pdf_text_content text) in Hfmt.
  apply (inj Some) in Hfmt. subst formatted.
  exists record. split; [exact Hrec|].
  split; [rewrite Hsame by (cbn; intuition discriminate); look_up; reflexivity|].
  split; [rewrite Hsame by (cbn; intuition discriminate); look_up; reflexivity|].
  pose proof (count_words_bounds (pdf_text_content text) false).
  assert (Hshorter : (String.length (pdf_text_content text)
                      <= String.length text)%nat).
  { unfold pdf_text_content.
    etransitivity; [apply collapse_spaces_length|]. rewrite map_units_length. lia. }
  split; [unfold words; lia|]. split; [unfold words, characters; lia|].
  split; [unfold characters; lia|].
  pose proof (count_page_markers_bound text 0) as Hpages.
  assert (Hinfo : forall key, key = "pageCount" \/ key = "lineCount" ->
            match capture "/Info" "<<" ">" ">>" text with
            | Some info => set_pdf_info info
                             (<["fileSignature" := VString sig]> (initial_metadata file))
            | None => <["fileSignature" := VString sig]> (initial_metadata file)
            end !! key = None).
  { intros key Hkey.
    assert (Hbase : (<["fileSignature" := VString sig]> (initial_metadata file))
                    !! key = None).
    { unfold initial_metadata. destruct Hkey as [-> | ->]; look_up; reflexivity. }
    destruct (capture "/Info" "<<" ">" ">>" text) as [info|]; [|exact Hbase].
    unfold set_pdf_info.
    destruct (capture "/Title" "(" ")" ")" info),
             (capture "/Author" "(" ")" ")" info),
             (capture "/Keywords" "(" ")" ")" info);
      destruct Hkey as [-> | ->]; look_up; exact Hbase. }
  fold pages in Hsame, Hpages.
  split; [|split; [lia|split; [lia|]]].
  - rewrite Hsame by (cbn; intuition discriminate). look_up.
    destruct (0 <? pages); look_up; [reflexivity|].
    apply Hinfo. left. reflexivity.
  - rewrite Hsame by (cbn; intuition discriminate). look_up.
    destruct (0 <? pages); look_up; apply Hinfo; right; reflexivity.
Qed.

Lemma classify_image (file : File) :
  image_type file <-> classify file = Some ImageExtractor.
Proof.
  unfold image_type, classify. rewrite <- startsWith_spec.
  destruct (startsWith (type file) "image/"); [tauto|].
  split; [intros E; discriminate E|].
  repeat match goal with
         | |- context [if ?c then _ else _] => destruct c
         end; intros E; discriminate E.
Qed.

Lemma set_exif_lookup (tags : ExifTags) (metadata : ExtendedMetadata) :
  let result := set_exif_fields tags metadata in
  result !! "exifData" = Some (VTags tags)
  /\ (forall x y, XResolution tags = Some x -> YResolution tags = Some y ->
        result !! "dpi" = Some (VResolution x y))
  /\ (forall artist, Artist tags = Some artist -> artist <> "" ->
        result !! "creator" = Some (VString artist))
  /\ (forall description, ImageDescription tags = Some description ->
        description <> "" -> result !! "subject" = Some (VString description))
  /\ (forall software, Software tags = Some software -> software <> "" ->
        result !! "keywords" = Some (VStrings [software]))
  /\ (forall key, In key ["dimensions"; "aspectRatio"] ->
        result !! key = metadata !! key).
Proof.
  unfold set_exif_fields.
  destruct tags as [x y artist description software others]; cbn.
  destruct x as [x|], y as [y|], artist as [[|a artist]|],
           description as [[|d description]|], software as [[|s software]|];
    cbn [truthy_text];
    repeat split; intros;
    repeat match goal with
           | E : None = Some _ |- _ => discriminate E
           | E : Some _ = Some _ |- _ => injection E as <-
           | Hne : ?s <> ?s |- _ => contradiction Hne; reflexivity
           end;
    look_up; try reflexivity;
    match goal with
    | Hin : _ \/ _ |- _ => destruct Hin as [<-|[<-|[]]]; look_up; reflexivity
    end.
Qed.

Lemma image_record_exif (file : File) :
  image_type file ->
  exists record,
    extractMetadata file = Some record
    /\ record !! "exifData" = Some (VTags (exif_of file)).
Proof.
  intros Himage. apply classify_image in Himage.
  destruct (record_of_extractor file)
    as (record & formatted & sig & Hrec & Hfmt & Hsame).
  rewrite Himage in Hfmt. cbn [run_extractor] in Hfmt.
  unfold extractImageMetadata, getImageDimensions, getExifData in Hfmt.
  fold (exif_of file) in Hfmt.
  exists record. split; [exact Hrec|].
  rewrite Hsame by (cbn; intuition discriminate).
  destruct (Image_load file) as [[w h]|];
    destruct (Canvas_getImageData file) as [[data|]|];
    cbn [await resolve try_catch fst snd] in Hfmt;
    apply (inj Some) in Hfmt; subst formatted;
    look_up; apply set_exif_lookup.
Qed.

(** X16.  The record of a file with an image type holds what each stage of
    the image extractor found: the tag dictionary (empty when the reader
    finds nothing), the dimensions and their aspect ratio when the image
    loads, the alpha flag and the colour depth of the sampled pixels when
    the canvas can be read, the resolution when both of its tags are
    there, and the artist, description and software tags that are not
    empty, as creator, subject and single keyword. *)
Theorem image_record_fields (file : File) :
  image_type file ->
  exists record,
    extractMetadata file = Some record
    /\ record !! "exifData" = Some (VTags (exif_of file))
    /\ (forall width height, Image_load file = Some (width, height) ->
          record !! "dimensions" = Some (VDimensions width height)
          /\ record !! "aspectRatio"
             = Some (VString (calculateAspectRatio width height)))
    /\ (forall data, Canvas_getImageData file = Some (Some data) ->
          record !! "hasAlpha" = Some (VBoolean (hasAlphaChannel data))
          /\ record !! "colorDepth" = Some (VInteger (estimateColorDepth data)))
    /\ (forall x y, XResolution (exif_of file) = Some x ->
                    YResolution (exif_of file) = Some y ->
          record !! "dpi" = Some (VResolution x y))
    /\ (forall artist, Artist (exif_of file) = Some artist -> artist <> "" ->
          record !! "creator" = Some (VString artist))
    /\ (forall description, ImageDescription (exif_of file) = Some description ->
          description <> "" -> record !! "subject" = Some (VString description))
    /\ (forall software, Software (exif_of file) = Some software ->
          software <> "" -> record !! "keywords" = Some (VStrings [software])).
Proof.
  intros Himage. apply classify_image in Himage.
  destruct (record_of_extractor file)
    as (record & formatted & sig & Hrec & Hfmt & Hsame).
  rewrite Himage in Hfmt. cbn [run_extractor] in Hfmt.
  unfold extractImageMetadata, getImageDimensions, getExifData in Hfmt.
  fold (exif_of file) in Hfmt.
  exists record. split; [exact Hrec|].
  destruct (Image_load file) as [[w h]|] eqn:Hload;
    destruct (Canvas_getImageData file) as [[data|]|] eqn:Hcanvas;
    cbn [await resolve try_catch fst snd] in Hfmt;
    apply (inj Some) in Hfmt; subst formatted;
    match type of Hsame with
    | context [set_exif_fields ?tags ?base] =>
        destruct (set_exif_lookup tags base)
          as (Hexif & Hdpi & Hcreator & Hsubject & Hkeywords & Hdims)
    end;
    (split; [rewrite Hsame by (cbn; intuition discriminate); look_up; exact Hexif|]);
    (split; [intros width height E; try discriminate E; injection E as <- <-;
             split; rewrite Hsame by (cbn; intuition discriminate); look_up;
             rewrite Hdims by (cbn; auto); look_up; reflexivity|]);
    (split; [intros data' E; try discriminate E; injection E as <-;
             split; rewrite Hsame by (cbn; intuition discriminate); look_up;
             reflexivity|]);
    (split; [intros x y Hx Hy;
             rewrite Hsame by (cbn; intuition discriminate); look_up;
             exact (Hdpi x y Hx Hy)|]);
    (split; [intros artist Ha Hne;
             rewrite Hsame by (cbn; intuition discriminate); look_up;
             exact (Hcreator artist Ha Hne)|]);
    (split; [intros description Hd Hne;
             rewrite Hsame by (cbn; intuition discriminate); look_up;
             exact (Hsubject description Hd Hne)|]);
    intros software Hs Hne;
    rewrite Hsame by (cbn; intuition discriminate); look_up;
    exact (Hkeywords software Hs Hne).
Qed.


Lemma hasEmbeddedMetadata_cases (file : File) :
  hasEmbeddedMetadata file
  = Some (if startsWith (type file) "image/"
          then (0 <? tag_count (exif_of file))%nat
          else if (type file =? "application/pdf")%string
               then match content file with
                    | Some buffer =>
                        includes (TextDecoder_latin1 (firstn 2048 buffer)) "/Info"
                        || includes (TextDecoder_latin1 (firstn 2048 buffer))
                                    "/Metadata"
                    | None => false
                    end
               else false).
Proof.
  unfold hasEmbeddedMetadata, getExifData, File_slice_arrayBuffer.
  fold (exif_of file).
  destruct (startsWith (type file) "image/"); [reflexivity|].
  destruct (type file =? "application/pdf")%string; [|reflexivity].
  destruct (content file); reflexivity.
Qed.

(** X10.  In every record the embedded-metadata flag is explained by the
    rest of the record and the file: it is true exactly when the file has
    an image type and the tag dictionary of the record is not empty, or
    the type is application/pdf and '/Info' or '/Metadata' occurs in the
    first 2048 bytes; what comes later in a PDF is not looked at. *)
Theorem embedded_metadata_flag_explained (file : File) :
  exists record flag,
    extractMetadata file = Some record
    /\ record !! "hasMetadata" = Some (VBoolean flag)
    /\ (flag = true
        <-> (image_type file
             /\ exists tags, record !! "exifData" = Some (VTags tags)
                             /\ (0 < tag_count tags)%nat)
            \/ (pdf_type file
                /\ exists buffer,
                     content file = Some buffer
                     /\ (Includes (TextDecoder_latin1 (firstn 2048 buffer)) "/Info"
                         \/ Includes (TextDecoder_latin1 (firstn 2048 buffer))
                                     "/Metadata"))).
Proof.
  destruct (extractMetadata_stages file)
    as (sig & formatted & c & d & e & x & flag & _ & _ & _ & _ & _ & _ & Hflag & E).
  exists (universal_fields file c d e x flag formatted), flag.
  split; [exact E|].
  split; [unfold universal_fields; look_up; reflexivity|].
  rewrite hasEmbeddedMetadata_cases in Hflag. apply (inj Some) in Hflag.
  destruct (startsWith (type file) "image/") eqn:Himage.
  - apply startsWith_spec in Himage.
    destruct (image_record_exif file Himage) as (record & Hrec & Hexif).
    rewrite E in Hrec. apply (inj Some) in Hrec. subst record.
    subst flag. rewrite Nat.ltb_lt. split.
    + intros Htags. left. split; [exact Himage|]. exists (exif_of file). auto.
    + intros [(_ & tags & Htags & Hcount) | (Hpdf & _)].
      * rewrite Hexif in Htags. injection Htags as <-. exact Hcount.
      * exfalso. unfold pdf_type in Hpdf. destruct Himage as [rest Hrest].
        rewrite Hpdf in Hrest. discriminate Hrest.
  - assert (Hnot : ~ image_type file).
    { intros Himg. apply startsWith_spec in Himg. congruence. }
    destruct (String.eqb_spec (type file) "application/pdf") as [Hpdf|Hpdf].
    + destruct (content file) as [buffer|] eqn:Hread.
      * subst flag. rewrite orb_true_iff, !includes_spec. split.
        -- intros Hfound. right. split; [exact Hpdf|]. exists buffer. auto.
        -- intros [(Himg & _) | (_ & buffer' & E' & Hfound)]; [contradiction|].
           injection E' as <-. exact Hfound.
      * subst flag. split; [discriminate|].
        intros [(Himg & _) | (_ & buffer' & E' & _)];
          [contradiction | discriminate E'].
    + subst flag. split; [discriminate|].
      intros [(Himg & _) | (Hpdf' & _)]; contradiction.
Qed.

(** X17.  The record of a file given to the media extractor, once the
    element has loaded, holds its duration; a bitrate, the file size in
    bits over the duration, rounded to the nearest integer, exactly when
    the duration is above zero (so none for a duration that is zero or not
    a number); and the
    dimensions with their aspect ratio exactly when the type is a video
    type and the video width is positive: an audio file never gets
    dimensions. *)
Theorem media_record_fields (file : File) (element : MediaElement) :
  classify file = Some MediaExtractor ->
  Media_load file = Some element ->
  exists record,
    extractMetadata file = Some record
    /\ ((0 <? media_duration element)%float = true ->
          exists bitrate,
            Math_round_as_specified
              (Number_of_Z (size file * 8) / media_duration element)%float bitrate
            /\ record !! "bitrate" = Some (VNumber bitrate))
    /\ record !! "duration" = Some (VNumber (media_duration element))
    /\ ((0 <? media_duration element)%float = true ->
          record !! "bitrate"
          = Some (VNumber (Math_round (Number_of_Z (size file * 8)
                                       / media_duration element)%float)))
    /\ ((0 <? media_duration element)%float = false -> record !! "bitrate" = None)
    /\ (StartsWith (type file) "video/" -> 0 < videoWidth element ->
          record !! "dimensions"
          = Some (VDimensions (videoWidth element) (videoHeight element))
          /\ record !! "aspectRatio"
             = Some (VString (calculateAspectRatio (videoWidth element)
                                                   (videoHeight element))))
    /\ (~ StartsWith (type file) "video/" \/ videoWidth element <= 0 ->
          record !! "dimensions" = None /\ record !! "aspectRatio" = None).
Proof.
  intros Hclass Hload.
  destruct (record_of_extractor file)
    as (record & formatted & sig & Hrec & Hfmt & Hsame).
  rewrite Hclass in Hfmt. cbn [run_extractor] in Hfmt.
  unfold extractMediaMetadata in Hfmt. rewrite Hload in Hfmt.
  cbn [await resolve try_catch] in Hfmt. apply (inj Some) in Hfmt. subst formatted.
  exists record. split; [exact Hrec|].
  assert (Hvideo : startsWith (type file) "video/" && (0 <? videoWidth element) = true
                   <-> StartsWith (type file) "video/" /\ 0 < videoWidth element).
  { rewrite andb_true_iff, startsWith_spec, Z.ltb_lt. reflexivity. }
  split.
  { intros Hpositive. eexists. split; [apply Math_round_meets_specification|].
    rewrite Hsame by (cbn; intuition discriminate). rewrite Hpositive.
    look_up. reflexivity. }
  destruct (0 <? media_duration element)%float;
    destruct (startsWith (type file) "video/" && (0 <? videoWidth element)) eqn:Hv;
    repeat split; intros;
    try discriminate;
    try (exfalso;
         match goal with
         | Hs : StartsWith _ _, Hw : 0 < _ |- _ =>
             assert (false = true) by (apply Hvideo; auto); discriminate
         | Hs : _ \/ _ |- _ =>
             assert (StartsWith (type file) "video/" /\ 0 < videoWidth element)
               as [? ?] by (apply Hvideo; reflexivity);
             destruct Hs; [contradiction | lia]
         end);
    rewrite Hsame by (cbn; intuition discriminate);
    unfold initial_metadata; look_up; reflexivity.
Qed.

End RecordOfExtractor.


Lemma pdf_record_counts_witness :
  classify report_file = Some DocumentExtractor
  /\ exists record,
       @extractMetadata headless report_file = Some record
       /\ record !! "wordCount" = Some (VInteger 10)
       /\ record !! "characterCount" = Some (VInteger 61)
       /\ record !! "pageCount" = Some (VInteger 1).
Proof.
  split; [reflexivity|].
  destruct (@pdf_record_counts headless report_file _ eq_refl eq_refl)
    as (record & Hrec & Hwords & Hcharacters & _ & _ & _ & Hpages & _).
  exists record. split; [exact Hrec|].
  split; [exact Hwords | split; [exact Hcharacters | exact Hpages]].
Defined.

Lemma image_record_fields_witness :
  image_type png_file
  /\ exists record,
       @extractMetadata decoding png_file = Some record
       /\ record !! "dimensions" = Some (VDimensions 2 1)
       /\ record !! "aspectRatio" = Some (VString "2:1")
       /\ record !! "hasAlpha" = Some (VBoolean true)
       /\ record !! "creator" = Some (VString "Ada").
Proof.
  assert (Himage : image_type png_file) by (exists "png"; reflexivity).
  split; [exact Himage|].
  destruct (@image_record_fields decoding png_file Himage)
    as (record & Hrec & _ & Hdims & Hpixels & _ & Hartist & _).
  destruct (Hdims 2 1 eq_refl) as [Hd Ha].
  destruct (Hpixels two_pixels eq_refl) as [Halpha _].
  exists record. split; [exact Hrec|].
  split; [exact Hd | split; [exact Ha | split; [exact Halpha|]]].
  apply Hartist; [reflexivity | discriminate].
Defined.

Lemma media_record_fields_witness :
  classify clip_file = Some MediaExtractor
  /\ exists record,
       @extractMetadata decoding clip_file = Some record
       /\ record !! "duration" = Some (VNumber 2%float)
       /\ record !! "bitrate" = Some (VNumber 4000%float)
       /\ record !! "aspectRatio" = Some (VString "16:9").
Proof.
  split; [reflexivity|].
  destruct (@media_record_fields decoding clip_file
              (mkMediaElement 2%float 640 360) eq_refl eq_refl)
    as (record & Hrec & _ & Hduration & Hbitrate & _ & Hvideo & _).
  destruct Hvideo as [_ Hratio]; [exists "mp4"; reflexivity | cbn; lia |].
  exists record. split; [exact Hrec|].
  split; [exact Hduration | split; [exact (Hbitrate eq_refl) | exact Hratio]].
Defined.

(** ** The Info dictionary of a PDF *)

Lemma span_until_spec (stop : ascii) (s : string) :
  s = (fst (span_until stop s) ++ snd (span_until stop s))%string
  /\ ~ In stop (list_ascii_of_string (fst (span_until stop s))).
Proof.
  induction s as [|c s [IHs IHno]]; [cbn; tauto|].
  cbn [span_until]. destruct (Ascii.eqb_spec c stop) as [->|Hne].
  - cbn. tauto.
  - destruct (span_until stop s) as [taken rest]. cbn [fst snd] in *. split.
    + rewrite append_cons. f_equal. exact IHs.
    + cbn [list_ascii_of_string In]. intros [E|Hin]; [congruence | tauto].
Qed.

Lemma trim_start_spec (s : string) :
  exists spaces, s = (spaces ++ trim_start s)%string /\ blank spaces.
Proof.
  induction s as [|c s (spaces & Hs & Hblank)].
  - exists "". split; [reflexivity | constructor].
  - cbn [trim_start]. destruct (is_space c) eqn:Hc.
    + exists (String c spaces). split.
      * rewrite append_cons. f_equal. exact Hs.
      * constructor; assumption.
    + exists "". split; [reflexivity | constructor].
Qed.

Lemma capture_here_sound (key opening : string) (stop : ascii)
      (closing s captured : string) :
  capture_here key opening stop closing s = Some captured ->
  exists spaces rest,
    s = (key ++ spaces ++ opening ++ captured ++ closing ++ rest)%string
    /\ blank spaces
    /\ ~ In stop (list_ascii_of_string captured).
Proof.
  unfold capture_here.
  destruct (drop_prefix key s) as [after_key|] eqn:Hkey; [|discriminate].
  apply drop_prefix_spec in Hkey.
  destruct (drop_prefix opening (trim_start after_key)) as [body|] eqn:Hopen;
    [|discriminate].
  apply drop_prefix_spec in Hopen.
  pose proof (span_until_spec stop body) as [Hbody Hno].
  destruct (span_until stop body) as [taken rest]. cbn [fst snd] in *.
  destruct (String.prefix closing rest) eqn:Hclose; [|discriminate].
  intros E. injection E as <-.
  apply prefix_spec in Hclose. destruct Hclose as [rest' Hrest].
  destruct (trim_start_spec after_key) as (spaces & Hafter & Hblank).
  exists spaces, rest'. split; [|split; assumption].
  rewrite Hkey, Hafter, Hopen, Hbody, Hrest. reflexivity.
Qed.

(** What [capture] returns stands in the text as the pattern describes. *)
Lemma capture_sound (key opening : string) (stop : ascii)
      (closing s captured : string) :
  capture key opening stop closing s = Some captured ->
  exists front spaces rest,
    s = (front ++ key ++ spaces ++ opening ++ captured ++ closing ++ rest)%string
    /\ blank spaces
    /\ ~ In stop (list_ascii_of_string captured).
Proof.
  induction s as [|c s IH]; cbn [capture].
  - destruct (capture_here key opening stop closing "") eqn:Hhere; [|discriminate].
    intros E. injection E as <-.
    destruct (capture_here_sound _ _ _ _ _ _ Hhere) as (spaces & rest & Hs & Hb & Hn).
    exists "", spaces, rest. auto.
  - destruct (capture_here key opening stop closing (String c s)) eqn:Hhere.
    + intros E. injection E as <-.
      destruct (capture_here_sound _ _ _ _ _ _ Hhere) as (spaces & rest & Hs & Hb & Hn).
      exists "", spaces, rest. auto.
    + intros Hlater. destruct (IH Hlater) as (front & spaces & rest & Hs & Hb & Hn).
      exists (String c front), spaces, rest. split; [|auto].
      rewrite append_cons. f_equal. exact Hs.
Qed.

Lemma trim_start_first (s : string) (c : ascii) :
  first_unit (trim_start s) = Some c -> is_space c = false.
Proof.
  induction s as [|a s IH]; [discriminate|].
  cbn [trim_start]. destruct (is_space a) eqn:Ha; [exact IH|].
  cbn. intros E. injection E as <-. exact Ha.
Qed.

Lemma trim_start_units (s : string) (c : ascii) :
  In c (list_ascii_of_string (trim_start s)) -> In c (list_ascii_of_string s).
Proof.
  induction s as [|a s IH]; [auto|].
  cbn [trim_start]. destruct (is_space a); [|auto].
  intros Hin. right. auto.
Qed.

Lemma trim_end_facts (s : string) :
  (forall c, last_unit None (trim_end s) = Some c -> is_space c = false)
  /\ (forall c, In c (list_ascii_of_string (trim_end s)) ->
                In c (list_ascii_of_string s))
  /\ (forall c, first_unit s = Some c -> is_space c = false ->
                first_unit (trim_end s) = Some c).
Proof.
  induction s as [|a s (IHlast & IHunits & IHfirst)].
  - cbn. repeat split; auto; discriminate.
  - cbn [trim_end]. destruct (trim_end s) as [|b rest] eqn:Hrest.
    + destruct (is_space a) eqn:Ha; cbn; repeat split; intros;
        try discriminate; try tauto; try congruence.
    + repeat split.
      * intros c Hc. apply IHlast. exact Hc.
      * intros c [<-|Hin]; [left; reflexivity | right; auto].
      * intros c Hc _. exact Hc.
Qed.

Lemma trim_is_trimmed (s : string) :
  ~ In ","%char (list_ascii_of_string s) -> trimmed_keyword (trim s).
Proof.
  intros Hno. unfold trim.
  destruct (trim_end_facts (trim_start s)) as (Hlast & Hunits & Hfirst).
  split; [|split].
  - intros c Hc.
    destruct (trim_start s) as [|a t] eqn:Hstart; [discriminate Hc|].
    assert (Ha : is_space a = false)
      by (apply (trim_start_first s); rewrite Hstart; reflexivity).
    rewrite (Hfirst a eq_refl Ha) in Hc. injection Hc as <-. exact Ha.
  - exact Hlast.
  - intros Hin. apply Hno, trim_start_units, Hunits, Hin.
Qed.

(** X15.  What the PDF extractor takes from an Info dictionary: the title,
    the author and the keywords are each the text between the parenthesis
    that follows the key, white space allowed in between, and the first
    closing parenthesis after it, so a value never holds a closing
    parenthesis.  The keywords are that text split at its commas, one more
    keyword than commas, each without white space at either end: empty
    parentheses give one empty keyword. *)
Theorem pdf_info_entries (info : string) (metadata : ExtendedMetadata) :
  (forall title, capture "/Title" "(" ")" ")" info = Some title ->
     set_pdf_info info metadata !! "subject" = Some (VString title)
     /\ parenthesised "/Title" title info)
  /\ (forall author, capture "/Author" "(" ")" ")" info = Some author ->
        set_pdf_info info metadata !! "creator" = Some (VString author)
        /\ parenthesised "/Author" author info)
  /\ (forall raw, capture "/Keywords" "(" ")" ")" info = Some raw ->
        exists keywords,
          set_pdf_info info metadata !! "keywords" = Some (VStrings keywords)
          /\ parenthesised "/Keywords" raw info
          /\ List.length keywords = S (separators "," raw)
          /\ Forall trimmed_keyword keywords)
  /\ set_pdf_info "/Keywords ()" metadata !! "keywords" = Some (VStrings [""]).
Proof.
  split; [|split; [|split]]; unfold set_pdf_info, parenthesised;
    [| | |change (capture "/Title" "(" ")" ")" "/Keywords ()") with (@None string);
          change (capture "/Author" "(" ")" ")" "/Keywords ()") with (@None string);
          change (capture "/Keywords" "(" ")" ")" "/Keywords ()") with (Some "");
          cbv beta iota zeta; look_up; reflexivity].
  - intros title Hcap. split; [|exact (capture_sound _ _ _ _ _ _ Hcap)].
    rewrite Hcap.
    destruct (capture "/Author" "(" ")" ")" info),
             (capture "/Keywords" "(" ")" ")" info); look_up; reflexivity.
  - intros author Hcap. split; [|exact (capture_sound _ _ _ _ _ _ Hcap)].
    rewrite Hcap.
    destruct (capture "/Title" "(" ")" ")" info),
             (capture "/Keywords" "(" ")" ")" info); look_up; reflexivity.
  - intros raw Hcap. exists (map trim (split_on "," raw)).
    split; [|split; [exact (capture_sound _ _ _ _ _ _ Hcap)|split]].
    + rewrite Hcap. look_up. reflexivity.
    + rewrite length_map. apply split_on_length.
    + apply Forall_map. eapply Forall_impl; [|apply (split_on_parts_free "," raw)].
      intros part Hpart. apply trim_is_trimmed. exact Hpart.
Qed.

Lemma pdf_info_entries_witness :
  capture "/Title" "(" ")" ")" " /Title (Annual report) /Author(Ada)"
  = Some "Annual report"
  /\ set_pdf_info " /Title (Annual report) /Author(Ada)" ∅ !! "subject"
     = Some (VString "Annual report").
Proof.
  assert (Hcap : capture "/Title" "(" ")" ")" " /Title (Annual report) /Author(Ada)"
                 = Some "Annual report") by reflexivity.
  split; [exact Hcap|].
  destruct (pdf_info_entries " /Title (Annual report) /Author(Ada)" ∅)
    as (Htitle & _).
  exact (proj1 (Htitle "Annual report" Hcap)).
Defined.

(** ** A stop word that starts with an accented letter *)

Lemma match_alternatives_elsewhere (accent : ascii) (words : list string)
      (before : option ascii) (rest : string) :
  first_unit rest <> Some accent ->
  match_alternatives words before rest
  = match_alternatives (filter (fun w => negb (starts_with_unit accent w)) words)
                       before rest.
Proof.
  intros Hfirst. induction words as [|word others IH]; [reflexivity|].
  cbn [filter match_alternatives].
  destruct (starts_with_unit accent word) eqn:Hstart; cbn [negb].
  - destruct word as [|a word]; [discriminate|]. cbn in Hstart.
    apply Ascii.eqb_eq in Hstart. subst a.
    destruct rest as [|b rest]; cbn [drop_prefix]; [exact IH|].
    destruct (Ascii.eqb_spec accent b) as [->|Hne]; [|exact IH].
    contradiction Hfirst. reflexivity.
  - cbn [match_alternatives]. rewrite IH. reflexivity.
Qed.

Lemma count_matches_without_accent (accent : ascii) (words : list string)
      (s : string) :
  is_word_unit accent = false ->
  forall (before : option ascii) (skip : nat),
    follows_word accent before s = false ->
    count_matches words before skip s
    = count_matches (filter (fun w => negb (starts_with_unit accent w)) words)
                    before skip s.
Proof.
  intros Haccent. induction s as [|c s IH]; intros before skip Hnever; [reflexivity|].
  cbn [follows_word] in Hnever. apply orb_false_iff in Hnever as [Hhere Hlater].
  cbn [count_matches].
  destruct skip as [|skip]; [|apply IH; exact Hlater].
  destruct (word_boundary before (Some c)) eqn:Hboundary; [|apply IH; exact Hlater].
  assert (Hc : first_unit (String c s) <> Some accent).
  { cbn. intros E. injection E as ->.
    rewrite Ascii.eqb_refl in Hhere. cbn [andb] in Hhere.
    unfold word_boundary in Hboundary. cbn [is_word] in Hboundary.
    rewrite Hhere, Haccent in Hboundary. discriminate. }
  rewrite <- (match_alternatives_elsewhere accent words before (String c s) Hc).
  destruct (match_alternatives words before (String c s)) as [[|k]|];
    rewrite ?IH by exact Hlater; reflexivity.
Qed.

(** X18.  The word boundaries of the patterns know the characters
    [a-z0-9_] only, so the French stop word that starts with an accented
    letter (e-circumflex, t, r, e) is found only where a word character
    comes right before it.  On a sample in which that letter never follows
    a word character the French score is what it would be without that
    stop word: standing as a word of its own, it is never counted. *)
Theorem french_etre_needs_a_word_before (sample : string) :
  follows_word e_circumflex_unit None sample = false ->
  score sample french = count_matches french_without_etre None 0 sample.
Proof.
  intros Hnever. unfold score.
  rewrite (count_matches_without_accent e_circumflex_unit (snd french) sample
             eq_refl None 0%nat Hnever).
  reflexivity.
Qed.

Lemma french_etre_needs_a_word_before_witness :
  follows_word e_circumflex_unit None etre_sample = false
  /\ score etre_sample french = 0
  /\ detectLanguage etre_sample = "Unknown".
Proof.
  assert (Hnever : follows_word e_circumflex_unit None etre_sample = false)
    by reflexivity.
  split; [exact Hnever|]. split; [|reflexivity].
  rewrite (french_etre_needs_a_word_before etre_sample Hnever). reflexivity.
Defined.

(** ** One extractor per record *)

Lemma stage_assigns `{Host} (extractor : Extractor) (file : File) (key : string) :
  stage_succeeded extractor file key -> assigns extractor key.
Proof.
  intros Hstage. unfold assigns, assigned_by.
  destruct extractor; cbn [stage_succeeded] in Hstage;
    eexists; (split; [cbn; eauto 10|]);
    cbn [In] in Hstage; decompose [or and ex] Hstage; subst;
    try contradiction; cbn; auto 20.
Qed.

Lemma record_keys_assigned `{Host} (file : File) (record : ExtendedMetadata)
      (key : string) :
  extractMetadata file = Some record ->
  is_Some (record !! key) ->
  In key (identity_keys ++ universal_keys)
  \/ exists selected, classify file = Some selected /\ assigns selected key.
Proof.
  intros Hrec Hkey.
  destruct (record_provenance file _ key Hrec Hkey)
    as [Hid | [Huni | (selected & Hsel & Hstage)]].
  - left. apply in_or_app. left. exact Hid.
  - left. apply in_or_app. right. exact Huni.
  - right. exists selected. split; [exact Hsel|].
    exact (stage_assigns selected file key Hstage).
Qed.

(** X21.  The properties of a record other than the identity and the
    universal ones all come from the one extractor selected for the file:
    each is a property that extractor can assign, and any two of them are
    properties of one and the same extractor.  A record never mixes, say,
    a duration with a line count or a page count with a compression
    ratio. *)
Theorem properties_of_one_extractor `{Host} (file : File) :
  exists record,
    extractMetadata file = Some record
    /\ (forall key, is_Some (record !! key) ->
          In key (identity_keys ++ universal_keys)
          \/ exists selected, classify file = Some selected /\ assigns selected key)
    /\ (forall key key',
          is_Some (record !! key) -> is_Some (record !! key') ->
          ~ In key (identity_keys ++ universal_keys) ->
          ~ In key' (identity_keys ++ universal_keys) ->
          exists extractor, assigns extractor key /\ assigns extractor key')
    /\ (is_Some (record !! "duration") ->
          record !! "lineCount" = None /\ record !! "pageCount" = None
          /\ record !! "compressionRatio" = None /\ record !! "exifData" = None).
Proof.
  destruct (extractMetadata_stages file)
    as (s & m & c & d & e & x & h & _ & _ & _ & _ & _ & _ & _ & Hrec).
  eexists. split; [exact Hrec|].
  pose proof (fun key => record_keys_assigned file _ key Hrec) as Hfrom.
  assert (Hpair : forall key key',
            is_Some (universal_fields file c d e x h m !! key) ->
            is_Some (universal_fields file c d e x h m !! key') ->
            ~ In key (identity_keys ++ universal_keys) ->
            ~ In key' (identity_keys ++ universal_keys) ->
            exists extractor, assigns extractor key /\ assigns extractor key').
  { intros key key' Hkey Hkey' Hother Hother'.
    destruct (Hfrom key Hkey) as [Hin | (selected & Hsel & Hassigns)];
      [contradiction|].
    destruct (Hfrom key' Hkey') as [Hin | (selected' & Hsel' & Hassigns')];
      [contradiction|].
    rewrite Hsel in Hsel'. injection Hsel' as <-.
    exists selected. split; assumption. }
  split; [exact Hfrom|]. split; [exact Hpair|].
  intros Hduration.
  assert (Hnever : forall key,
            In key ["lineCount"; "pageCount"; "compressionRatio"; "exifData"] ->
            universal_fields file c d e x h m !! key = None).
  { intros key Hkey.
    destruct (universal_fields file c d e x h m !! key) as [value|] eqn:Hvalue;
      [exfalso | reflexivity].
    assert (Hsome : is_Some (universal_fields file c d e x h m !! key))
      by (rewrite Hvalue; eauto).
    destruct (Hpair "duration" key Hduration Hsome)
      as (extractor & (keys & Hkeys & Hin) & (keys' & Hkeys' & Hin')).
    - not_listed.
    - cbn in Hkey. decompose [or] Hkey; subst; try contradiction; not_listed.
    - cbn in Hkeys, Hkeys', Hkey.
      decompose [or] Hkeys; try contradiction;
        match goal with E : (_, _) = (_, _) |- _ => injection E as <- <- end;
        cbn in Hin; decompose [or] Hin; try discriminate; try contradiction;
        decompose [or] Hkeys'; try contradiction; try discriminate;
        match goal with E : (_, _) = (_, _) |- _ => injection E as <- end;
        cbn in Hin'; decompose [or] Hkey; subst; try contradiction;
        decompose [or] Hin'; try discriminate; contradiction. }
  repeat split; apply Hnever; cbn; auto.
Qed.

(** X22.  The interface of the record declares a sample rate, a channel
    count, a codec and an architecture; no record ever has them, whatever
    the file and the host. *)
Theorem declared_properties_never_assigned `{Host} (file : File) :
  exists record,
    extractMetadata file = Some record
    /\ forall key, In key unassigned_keys -> record !! key = None.
Proof.
  destruct (extractMetadata_stages file)
    as (s & m & c & d & e & x & h & _ & _ & _ & _ & _ & _ & _ & Hrec).
  eexists. split; [exact Hrec|].
  intros key Hkey.
  destruct (universal_fields file c d e x h m !! key) as [value|] eqn:Hvalue;
    [exfalso | reflexivity].
  assert (Hsome : is_Some (universal_fields file c d e x h m !! key))
    by (rewrite Hvalue; eauto).
  destruct (record_keys_assigned file _ key Hrec Hsome)
    as [Hin | (selected & _ & keys & Hkeys & Hin)].
  - cbn in Hkey, Hin. decompose [or] Hkey; subst; try contradiction;
      decompose [or] Hin; try discriminate; contradiction.
  - cbn in Hkey, Hkeys.
    decompose [or] Hkeys; try contradiction;
      match goal with E : (_, _) = (_, _) |- _ => injection E as <- <- end;
      cbn in Hin; decompose [or] Hkey; subst; try contradiction;
      decompose [or] Hin; try discriminate; contradiction.
Qed.

(** ** The callers *)

(** X19.  The label the display gives a MIME type agrees with the
    extractor chosen for the file: the image extractor runs exactly for
    the files labelled 'Image', the media extractor exactly for those
    labelled 'Video' or 'Audio', and every file given to the PDF extractor
    is labelled 'PDF Document'. *)
Theorem category_agrees_with_extractor (file : File) :
  (classify file = Some ImageExtractor <-> getFileCategory (type file) = "Image")
  /\ (classify file = Some MediaExtractor
      <-> getFileCategory (type file) = "Video"
          \/ getFileCategory (type file) = "Audio")
  /\ (classify file = Some DocumentExtractor ->
        getFileCategory (type file) = "PDF Document").
Proof.
  unfold classify, getFileCategory.
  destruct (String.eqb_spec (type file) "application/pdf") as [Hpdf|Hpdf].
  - rewrite Hpdf. cbn. repeat split; intros E; try discriminate E.
    destruct E as [E|E]; discriminate E.
  - destruct (startsWith (type file) "image/"),
             (startsWith (type file) "video/"),
             (startsWith (type file) "audio/"); cbn [orb];
      repeat split; intros E; try (destruct E as [E|E]);
      repeat match type of E with
             | context [if ?c then _ else _] => destruct c
             end;
      try discriminate E; auto.
Qed.

(** X20.  [handleFileSelect] never shows the failure message: the promise
    of [extractMetadata] does not reject, so the handler of the [try] is
    never entered.  When the file has an image type and the EXIF library
    never calls back, the promise stays pending, the [finally] is not
    reached and the application keeps processing, with the record it had
    before; in every other case it ends with the extracted record shown,
    no longer processing. *)
Theorem file_selection_never_shows_an_error `{Host} (file : File)
        (state : AppState) :
  error (handleFileSelect file state) = None
  /\ (image_type file /\ EXIF_calls_back file = false ->
        handleFileSelect file state
        = mkAppState (app_metadata state) true None)
  /\ (~ (image_type file /\ EXIF_calls_back file = false) ->
        exists record,
          extractMetadata file = Some record
          /\ handleFileSelect file state = mkAppState (Some record) false None).
Proof.
  destruct (extractMetadata_stages file)
    as (sig & formatted & c & d & e & x & h & _ & _ & _ & _ & _ & _ & _ & E).
  pose proof (extractMetadata_pends file) as Hpends.
  pose proof (extractMetadata_fate file) as Hfate. rewrite E in Hfate.
  unfold handleFileSelect.
  destruct (startsWith (type file) "image/" && negb (EXIF_calls_back file));
    rewrite Hfate; cbn [error app_metadata isProcessing].
  - split; [reflexivity|]. split; [reflexivity|].
    intros Hsettles. exfalso. apply Hsettles, Hpends. exact Hfate.
  - split; [reflexivity|]. split.
    + intros Hstays. apply Hpends in Hstays. rewrite Hfate in Hstays.
      discriminate Hstays.
    + intros _. eexists. split; [exact E | reflexivity].
Qed.

(** X23.  A click on the header of a section flips that section and no
    other: the section is expanded afterwards exactly when it was not
    before, every other section stays as it was, and a second click gives
    back the set of expanded sections the first one found. *)
Theorem toggle_section_flips_one_section (expandedSections : gset string)
        (section : string) :
  toggleSection (toggleSection expandedSections section) section = expandedSections
  /\ (section ∈ toggleSection expandedSections section
      <-> section ∉ expandedSections)
  /\ (forall other, other <> section ->
        (other ∈ toggleSection expandedSections section
         <-> other ∈ expandedSections)).
Proof.
  assert (Hin : forall other,
            other ∈ toggleSection expandedSections section
            <-> (other = section /\ section ∉ expandedSections)
                \/ (other <> section /\ other ∈ expandedSections)).
  { intros other. unfold toggleSection.
    destruct (decide (section ∈ expandedSections)) as [Hs|Hs].
    - rewrite elem_of_difference, elem_of_singleton.
      destruct (decide (other = section)) as [->|Hne]; tauto.
    - rewrite elem_of_union, elem_of_singleton.
      destruct (decide (other = section)) as [->|Hne]; tauto. }
  split; [|split].
  - apply set_eq. intros other.
    unfold toggleSection at 1.
    destruct (decide (section ∈ toggleSection expandedSections section)) as [Hs|Hs].
    + rewrite elem_of_difference, elem_of_singleton, Hin.
      apply Hin in Hs.
      destruct (decide (other = section)) as [->|Hne]; tauto.
    + rewrite elem_of_union, elem_of_singleton, Hin.
      rewrite Hin in Hs.
      destruct (decide (other = section)) as [->|Hne];
        destruct (decide (section ∈ expandedSections)); tauto.
  - rewrite Hin. tauto.
  - intros other Hne. rewrite Hin. tauto.
Qed.
